(** * Predictive Tap-Hold: a shallow embedding of [predictive_tap_hold.c]

    The development follows the source file top to bottom: machine integers,
    the QMK record types, the module's static variables (one record,
    [pth_state]), the helper functions, the two decision procedures, the
    dispatcher [process_record_predictive_tap_hold] and the housekeeping
    task.  Everything the module does to the outside (re-entering
    [process_record], [register_code16], waits, ...) is an [action] appended
    to an output trace and applied to an abstract firmware [world]. *)

From Stdlib Require Import ZArith Lia Bool List.
Import ListNotations.
Local Open Scope Z_scope.

(* ------------------------------------------------------------------------- *)
(** ** Machine integers *)

(** [uint8_t], [uint16_t] and [int16_t] values are integers with the
    wrap-around of the C conversions written out. *)
Definition u8 (z : Z) : Z := z mod 256.
Definition u16 (z : Z) : Z := z mod 65536.
Definition i16 (z : Z) : Z := (z + 32768) mod 65536 - 32768.

(** Modelled from the spec: QMK's [TIMER_DIFF_16] is not in the source tree;
    the specification describes it as the modular 16-bit subtraction of two
    timer readings. *)
Definition TIMER_DIFF_16 (a b : Z) : Z := u16 (a - b).

Definition MS_MAX_DUR_FOR_TIMERS : Z := 4096.
Definition PTH_MS_MAX_OVERLAP : Z := 232.
Definition PTH_MS_MIN_OVERLAP : Z := 39.
Definition RELEASE_AS_TAP_POSITIONS_SIZE : Z := 8.
Definition RELEASE_RECORD_SIZE : Z := 8.

(** The [MIN] and [MAX] macros of the source. *)
Definition MIN (x y : Z) : Z := if x <? y then x else y.
Definition MAX (x y : Z) : Z := if x >? y then x else y.

(** [change_bit], [clear_bit], [set_bit]: the result is a [uint8_t]. *)
Definition change_bit (bitmask index : Z) (is_set : bool) : Z :=
  u8 (Z.lor (Z.land bitmask (Z.lnot (Z.shiftl 1 index)))
            (Z.shiftl (Z.b2z is_set) index)).
Definition clear_bit (bitmask index : Z) : Z :=
  u8 (Z.land bitmask (Z.lnot (Z.shiftl 1 index))).
Definition set_bit (bitmask index : Z) : Z :=
  u8 (Z.lor bitmask (Z.shiftl 1 index)).

(** [__builtin_ctz]: the index of the least significant set bit.  The
    source itself notes that it "is undefined for a value of 0"; the model
    gives no result there. *)
Fixpoint ctz_pos (p : positive) : Z :=
  match p with
  | xO p' => 1 + ctz_pos p'
  | _ => 0
  end.

Definition builtin_ctz (x : Z) : option Z :=
  match x with
  | Zpos p => Some (ctz_pos p)
  | _ => None
  end.

(* ------------------------------------------------------------------------- *)
(** ** QMK record types *)

Record keypos_t := { col : Z; row : Z }.

(** [event_type] is QMK's [keyevent_type_t] tag, read by [IS_KEYEVENT] and
    [IS_COMBOEVENT]. *)
Record keyevent_t := {
  key : keypos_t;
  pressed : bool;
  time : Z;
  event_type : Z
}.

Record tap_t := { interrupted : bool; count : Z }.

Record keyrecord_t := { event : keyevent_t; tap : tap_t }.

Definition EMPTY_KEYPOS : keypos_t := {| col := 255; row := 255 |}.

Definition keypos_eq (p1 p2 : keypos_t) : bool :=
  (col p1 =? col p2) && (row p1 =? row p2).

Definition with_key (k : keypos_t) (r : keyrecord_t) : keyrecord_t :=
  {| event := {| key := k; pressed := pressed (event r); time := time (event r);
                 event_type := event_type (event r) |};
     tap := tap r |}.
Definition with_pressed (b : bool) (r : keyrecord_t) : keyrecord_t :=
  {| event := {| key := key (event r); pressed := b; time := time (event r);
                 event_type := event_type (event r) |};
     tap := tap r |}.
Definition with_time (t : Z) (r : keyrecord_t) : keyrecord_t :=
  {| event := {| key := key (event r); pressed := pressed (event r); time := t;
                 event_type := event_type (event r) |};
     tap := tap r |}.

(** A zero-initialised record, and the static initialiser
    [{.event = {.key = EMPTY_KEYPOS}}]. *)
Definition zero_record : keyrecord_t :=
  {| event := {| key := {| col := 0; row := 0 |}; pressed := false; time := 0;
                 event_type := 0 |};
     tap := {| interrupted := false; count := 0 |} |}.
Definition empty_record : keyrecord_t := with_key EMPTY_KEYPOS zero_record.

Definition set_record_to_tap (r : keyrecord_t) : keyrecord_t :=
  {| event := event r; tap := {| interrupted := true; count := 1 |} |}.
Definition set_record_to_hold (r : keyrecord_t) : keyrecord_t :=
  {| event := event r; tap := {| interrupted := interrupted (tap r); count := 0 |} |}.

Inductive pth_status_t :=
  PTH_IDLE | PTH_PRESSED | PTH_SECOND_PRESSED | PTH_DECIDED_TAP | PTH_DECIDED_HOLD.

(** The enumeration's integer values, for the [>=] comparisons of the source. *)
Definition status_rank (s : pth_status_t) : Z :=
  match s with
  | PTH_IDLE => 0 | PTH_PRESSED => 1 | PTH_SECOND_PRESSED => 2
  | PTH_DECIDED_TAP => 3 | PTH_DECIDED_HOLD => 4
  end.
Definition status_geb (a b : pth_status_t) : bool := status_rank b <=? status_rank a.
Definition status_eqb (a b : pth_status_t) : bool := status_rank a =? status_rank b.

Inductive release_time_t := AFTER_SECOND | BEFORE_SECOND.

Definition is_BEFORE_SECOND (t : release_time_t) : bool :=
  match t with BEFORE_SECOND => true | AFTER_SECOND => false end.

(* ------------------------------------------------------------------------- *)
(** ** Side encoding (predictive_tap_hold.h) *)

Definition PTH_ATOM_LEFT : Z := 0.
Definition PTH_ATOM_RIGHT : Z := 1.
Definition PTH_ATOM_OPPOSITE : Z := 2.
Definition PTH_ATOM_SAME : Z := 3.

Definition PTH_GET_PTH_ATOM_SIDE (encoded_val : Z) : Z := Z.land (Z.shiftr encoded_val 2) 3.
Definition PTH_GET_OTHER_ATOM_SIDE (encoded_val : Z) : Z := Z.land encoded_val 3.
Definition PTH_GET_USER_BITS (encoded_val : Z) : Z := Z.land encoded_val 240.

(** The 16-entry table of [is_same_side_as_pth]. *)
Definition truth_table : Z := 0xb8a9. (* 0b1011100010101001 *)

(* ------------------------------------------------------------------------- *)
(** ** The module's static variables

    One field per [static] variable of the source, with the source's names.
    The two [float] averages ([pth_press_to_press_w_avg], [pth_overlap_w_avg])
    are left out: they are written once per PTH press as a function of the
    four stored [pth_prev_*] durations and are read by the predictors only,
    which the embedding takes as functions of the whole state. *)

Record pth_state := Build_pth_state {
  pth_status : pth_status_t;
  pth_prev_status : pth_status_t;
  pth_keycode : Z;
  pth_tap_code_instead_of_hold : Z;
  pth_record : keyrecord_t;
  pth_press_timer : Z;
  pth_press_timer_max_reached : bool;
  pth_atomic_side : Z;
  pth_side_user_bits : Z;
  pth_was_held_instantly : bool;
  second_was_held_instantly : bool;
  instant_layer_was_active : bool;
  layer_before_instant_layer_tap : Z;
  has_second : bool;
  second_record : keyrecord_t;
  second_keycode : Z;
  second_press_timer : Z;
  second_press_timer_max_reached : bool;
  second_is_tap_hold : bool;
  second_is_same_side_as_pth : bool;
  second_to_be_released : bool;
  timeout_for_forcing_choice : Z;
  has_chosen_after_timeout_reached : bool;
  min_overlap_dur_for_hold : Z;
  pth_press_to_second_press_dur : Z;
  pth_press_to_second_release_dur : Z;
  pth_second_dur : Z;
  pth_second_press_to_third_press_dur : Z;
  pth_prev_prev_press_to_prev_press_dur : Z;
  pth_prev_press_to_pth_press_dur : Z;
  pth_prev_prev_overlap_dur : Z;
  pth_prev_overlap_dur : Z;
  key_release_before_pth_to_pth_press_dur : Z;
  prev_press_keycode : Z;
  cur_press_keycode : Z;
  down_count : Z;
  overlap_timer : Z;
  overlap_timer_max_reached : bool;
  press_to_press_timer : Z;
  press_to_press_timer_max_reached : bool;
  release_timer : Z;
  release_timer_max_reached : bool;
  prev_press_to_press_dur : Z;
  cur_press_to_press_dur : Z;
  prev_overlap_dur : Z;
  cur_overlap_dur : Z;
  release_as_tap_positions : list keypos_t;
  used_release_as_tap_positions_bitmask : Z;
  release_records : list keyrecord_t;
  is_before_second_bitmask : Z;
  used_release_records_bitmask : Z;
  is_processing_record_due_to_pth : bool
}.

Definition eta_pth_state (s : pth_state) : pth_state :=
  Build_pth_state
    (pth_status s) (pth_prev_status s) (pth_keycode s)
    (pth_tap_code_instead_of_hold s) (pth_record s) (pth_press_timer s)
    (pth_press_timer_max_reached s) (pth_atomic_side s) (pth_side_user_bits s)
    (pth_was_held_instantly s) (second_was_held_instantly s)
    (instant_layer_was_active s) (layer_before_instant_layer_tap s)
    (has_second s) (second_record s) (second_keycode s) (second_press_timer s)
    (second_press_timer_max_reached s) (second_is_tap_hold s)
    (second_is_same_side_as_pth s) (second_to_be_released s)
    (timeout_for_forcing_choice s) (has_chosen_after_timeout_reached s)
    (min_overlap_dur_for_hold s) (pth_press_to_second_press_dur s)
    (pth_press_to_second_release_dur s) (pth_second_dur s)
    (pth_second_press_to_third_press_dur s)
    (pth_prev_prev_press_to_prev_press_dur s)
    (pth_prev_press_to_pth_press_dur s) (pth_prev_prev_overlap_dur s)
    (pth_prev_overlap_dur s) (key_release_before_pth_to_pth_press_dur s)
    (prev_press_keycode s) (cur_press_keycode s) (down_count s)
    (overlap_timer s) (overlap_timer_max_reached s) (press_to_press_timer s)
    (press_to_press_timer_max_reached s) (release_timer s)
    (release_timer_max_reached s) (prev_press_to_press_dur s)
    (cur_press_to_press_dur s) (prev_overlap_dur s) (cur_overlap_dur s)
    (release_as_tap_positions s) (used_release_as_tap_positions_bitmask s)
    (release_records s) (is_before_second_bitmask s)
    (used_release_records_bitmask s) (is_processing_record_due_to_pth s).

(** Assignment to one static variable: the record rebuilt with one field
    replaced. *)
Ltac field_setter proj :=
  lazymatch goal with
  | |- _ -> pth_state -> pth_state =>
    let v := fresh "v" in
    let s := fresh "s" in
    intros v s;
    let e := eval cbv beta delta [eta_pth_state] in (eta_pth_state s) in
    lazymatch eval pattern (proj s) in e with
    | ?f _ => let r := eval cbv beta in (f v) in exact r
    end
  end.

Definition set_pth_status : pth_status_t -> pth_state -> pth_state :=
  ltac:(field_setter pth_status).
Definition set_pth_prev_status : pth_status_t -> pth_state -> pth_state :=
  ltac:(field_setter pth_prev_status).
Definition set_pth_keycode : Z -> pth_state -> pth_state :=
  ltac:(field_setter pth_keycode).
Definition set_pth_tap_code_instead_of_hold : Z -> pth_state -> pth_state :=
  ltac:(field_setter pth_tap_code_instead_of_hold).
Definition set_pth_record : keyrecord_t -> pth_state -> pth_state :=
  ltac:(field_setter pth_record).
Definition set_pth_press_timer : Z -> pth_state -> pth_state :=
  ltac:(field_setter pth_press_timer).
Definition set_pth_press_timer_max_reached : bool -> pth_state -> pth_state :=
  ltac:(field_setter pth_press_timer_max_reached).
Definition set_pth_atomic_side : Z -> pth_state -> pth_state :=
  ltac:(field_setter pth_atomic_side).
Definition set_pth_side_user_bits : Z -> pth_state -> pth_state :=
  ltac:(field_setter pth_side_user_bits).
Definition set_pth_was_held_instantly : bool -> pth_state -> pth_state :=
  ltac:(field_setter pth_was_held_instantly).
Definition set_second_was_held_instantly : bool -> pth_state -> pth_state :=
  ltac:(field_setter second_was_held_instantly).
Definition set_instant_layer_was_active : bool -> pth_state -> pth_state :=
  ltac:(field_setter instant_layer_was_active).
Definition set_layer_before_instant_layer_tap : Z -> pth_state -> pth_state :=
  ltac:(field_setter layer_before_instant_layer_tap).
Definition set_has_second : bool -> pth_state -> pth_state :=
  ltac:(field_setter has_second).
Definition set_second_record : keyrecord_t -> pth_state -> pth_state :=
  ltac:(field_setter second_record).
Definition set_second_keycode : Z -> pth_state -> pth_state :=
  ltac:(field_setter second_keycode).
Definition set_second_press_timer : Z -> pth_state -> pth_state :=
  ltac:(field_setter second_press_timer).
Definition set_second_press_timer_max_reached : bool -> pth_state -> pth_state :=
  ltac:(field_setter second_press_timer_max_reached).
Definition set_second_is_tap_hold : bool -> pth_state -> pth_state :=
  ltac:(field_setter second_is_tap_hold).
Definition set_second_is_same_side_as_pth : bool -> pth_state -> pth_state :=
  ltac:(field_setter second_is_same_side_as_pth).
Definition set_second_to_be_released : bool -> pth_state -> pth_state :=
  ltac:(field_setter second_to_be_released).
Definition set_timeout_for_forcing_choice : Z -> pth_state -> pth_state :=
  ltac:(field_setter timeout_for_forcing_choice).
Definition set_has_chosen_after_timeout_reached : bool -> pth_state -> pth_state :=
  ltac:(field_setter has_chosen_after_timeout_reached).
Definition set_min_overlap_dur_for_hold : Z -> pth_state -> pth_state :=
  ltac:(field_setter min_overlap_dur_for_hold).
Definition set_pth_press_to_second_press_dur : Z -> pth_state -> pth_state :=
  ltac:(field_setter pth_press_to_second_press_dur).
Definition set_pth_press_to_second_release_dur : Z -> pth_state -> pth_state :=
  ltac:(field_setter pth_press_to_second_release_dur).
Definition set_pth_second_dur : Z -> pth_state -> pth_state :=
  ltac:(field_setter pth_second_dur).
Definition set_pth_second_press_to_third_press_dur : Z -> pth_state -> pth_state :=
  ltac:(field_setter pth_second_press_to_third_press_dur).
Definition set_pth_prev_prev_press_to_prev_press_dur : Z -> pth_state -> pth_state :=
  ltac:(field_setter pth_prev_prev_press_to_prev_press_dur).
Definition set_pth_prev_press_to_pth_press_dur : Z -> pth_state -> pth_state :=
  ltac:(field_setter pth_prev_press_to_pth_press_dur).
Definition set_pth_prev_prev_overlap_dur : Z -> pth_state -> pth_state :=
  ltac:(field_setter pth_prev_prev_overlap_dur).
Definition set_pth_prev_overlap_dur : Z -> pth_state -> pth_state :=
  ltac:(field_setter pth_prev_overlap_dur).
Definition set_key_release_before_pth_to_pth_press_dur : Z -> pth_state -> pth_state :=
  ltac:(field_setter key_release_before_pth_to_pth_press_dur).
Definition set_prev_press_keycode : Z -> pth_state -> pth_state :=
  ltac:(field_setter prev_press_keycode).
Definition set_cur_press_keycode : Z -> pth_state -> pth_state :=
  ltac:(field_setter cur_press_keycode).
Definition set_down_count : Z -> pth_state -> pth_state :=
  ltac:(field_setter down_count).
Definition set_overlap_timer : Z -> pth_state -> pth_state :=
  ltac:(field_setter overlap_timer).
Definition set_overlap_timer_max_reached : bool -> pth_state -> pth_state :=
  ltac:(field_setter overlap_timer_max_reached).
Definition set_press_to_press_timer : Z -> pth_state -> pth_state :=
  ltac:(field_setter press_to_press_timer).
Definition set_press_to_press_timer_max_reached : bool -> pth_state -> pth_state :=
  ltac:(field_setter press_to_press_timer_max_reached).
Definition set_release_timer : Z -> pth_state -> pth_state :=
  ltac:(field_setter release_timer).
Definition set_release_timer_max_reached : bool -> pth_state -> pth_state :=
  ltac:(field_setter release_timer_max_reached).
Definition set_prev_press_to_press_dur : Z -> pth_state -> pth_state :=
  ltac:(field_setter prev_press_to_press_dur).
Definition set_cur_press_to_press_dur : Z -> pth_state -> pth_state :=
  ltac:(field_setter cur_press_to_press_dur).
Definition set_prev_overlap_dur : Z -> pth_state -> pth_state :=
  ltac:(field_setter prev_overlap_dur).
Definition set_cur_overlap_dur : Z -> pth_state -> pth_state :=
  ltac:(field_setter cur_overlap_dur).
Definition set_release_as_tap_positions : list keypos_t -> pth_state -> pth_state :=
  ltac:(field_setter release_as_tap_positions).
Definition set_used_release_as_tap_positions_bitmask : Z -> pth_state -> pth_state :=
  ltac:(field_setter used_release_as_tap_positions_bitmask).
Definition set_release_records : list keyrecord_t -> pth_state -> pth_state :=
  ltac:(field_setter release_records).
Definition set_is_before_second_bitmask : Z -> pth_state -> pth_state :=
  ltac:(field_setter is_before_second_bitmask).
Definition set_used_release_records_bitmask : Z -> pth_state -> pth_state :=
  ltac:(field_setter used_release_records_bitmask).
Definition set_is_processing_record_due_to_pth : bool -> pth_state -> pth_state :=
  ltac:(field_setter is_processing_record_due_to_pth).

(** The initial values of the static variables.  [KC_NO] is QMK's; it is
    a parameter of the initial state. *)
Definition initial_state (KC_NO : Z) : pth_state :=
  {| pth_status := PTH_IDLE;
     pth_prev_status := PTH_IDLE;
     pth_keycode := KC_NO;
     pth_tap_code_instead_of_hold := KC_NO;
     pth_record := empty_record;
     pth_press_timer := 0;
     pth_press_timer_max_reached := false;
     pth_atomic_side := 0;
     pth_side_user_bits := 0;
     pth_was_held_instantly := false;
     second_was_held_instantly := false;
     instant_layer_was_active := false;
     layer_before_instant_layer_tap := 0;
     has_second := false;
     second_record := empty_record;
     second_keycode := KC_NO;
     second_press_timer := 0;
     second_press_timer_max_reached := false;
     second_is_tap_hold := false;
     second_is_same_side_as_pth := false;
     second_to_be_released := false;
     timeout_for_forcing_choice := 0;
     has_chosen_after_timeout_reached := false;
     min_overlap_dur_for_hold := 0;
     pth_press_to_second_press_dur := 0;
     pth_press_to_second_release_dur := 0;
     pth_second_dur := 0;
     pth_second_press_to_third_press_dur := 0;
     pth_prev_prev_press_to_prev_press_dur := (-1);
     pth_prev_press_to_pth_press_dur := (-1);
     pth_prev_prev_overlap_dur := (-1);
     pth_prev_overlap_dur := (-1);
     key_release_before_pth_to_pth_press_dur := 0;
     prev_press_keycode := KC_NO;
     cur_press_keycode := KC_NO;
     down_count := 0;
     overlap_timer := 0;
     overlap_timer_max_reached := false;
     press_to_press_timer := 0;
     press_to_press_timer_max_reached := false;
     release_timer := 0;
     release_timer_max_reached := false;
     prev_press_to_press_dur := (-1);
     cur_press_to_press_dur := (-1);
     prev_overlap_dur := (-1);
     cur_overlap_dur := (-1);
     release_as_tap_positions := (repeat {| col := 0; row := 0 |} 8);
     used_release_as_tap_positions_bitmask := 0;
     release_records := (repeat zero_record 8);
     is_before_second_bitmask := 0;
     used_release_records_bitmask := 0;
     is_processing_record_due_to_pth := false |}.

(* ------------------------------------------------------------------------- *)
(** ** The surrounding firmware *)

(** What the module sends out.  [Act_process_record r] is a call
    [process_record(&r)] with the record as it is at the call. *)
Inductive action :=
| Act_process_record (r : keyrecord_t)
| Act_register_code16 (kc : Z)
| Act_unregister_code16 (kc : Z)
| Act_tap_code16 (kc : Z)
| Act_send_keyboard_report
| Act_wait_ms (ms : Z).

(** QMK itself is not part of the source tree.  Its constants, macros and
    functions that the module uses are the fields of this interface; [world]
    is the state of everything outside the module (timer, layers, modifiers,
    keymap, host report), [perform] the effect of an action on it. *)
Class Firmware := {
  world : Type;
  perform : action -> world -> world;
  (* keycodes and modifier masks *)
  KC_NO : Z;
  KC_A : Z;
  KC_Z : Z;
  KC_SPC : Z;
  KC_DOT : Z;
  KC_COMM : Z;
  KC_SCLN : Z;
  KC_SLSH : Z;
  QK_MOD_TAP : Z;
  QK_MOD_TAP_MAX : Z;
  QK_LAYER_TAP : Z;
  QK_LAYER_TAP_MAX : Z;
  QK_SWAP_HANDS : Z;
  QK_SWAP_HANDS_MAX : Z;
  MOD_MASK_GUI : Z;
  MOD_MASK_CG : Z;
  MOD_BIT_LALT : Z;
  MOD_LCTL : Z;
  MOD_LSFT : Z;
  (* macros *)
  IS_KEYEVENT : keyevent_t -> bool;
  IS_COMBOEVENT : keyevent_t -> bool;
  IS_QK_TAP_DANCE : Z -> bool;
  IS_QK_MOD_TAP : Z -> bool;
  IS_QK_LAYER_TAP : Z -> bool;
  IS_SWAP_HANDS_KEYCODE : Z -> bool;
  QK_MOD_TAP_GET_MODS : Z -> Z;
  QK_LAYER_TAP_GET_LAYER : Z -> Z;
  get_tap_keycode : Z -> Z;
  (* functions reading the firmware state *)
  timer_read32 : world -> Z;
  get_tapping_term : Z -> keyrecord_t -> world -> Z;
  layer_switch_get_layer : keypos_t -> world -> Z;
  keycode_at_keymap_location : Z -> Z -> Z -> world -> Z;
  dynamic_keymap_get_keycode : Z -> Z -> Z -> world -> Z;
  get_mods : world -> Z;
  get_oneshot_mods : world -> Z;
  mod_config : Z -> world -> Z;
  is_caps_word_on : world -> bool;
  (* the PROGMEM table [pth_side_layout[row][col]] of the keymap *)
  pth_side_layout : Z -> Z -> Z
}.

(** The compile-time options the source tests with [#ifdef] / [#if]. *)
Class BuildConfig := {
  TAPPING_TERM_PER_KEY : bool;
  TAP_DANCE_ENABLE : bool;
  COMBO_ENABLE : bool;
  CAPS_WORD_ENABLE : bool;
  NO_ACTION_ONESHOT : bool;
  VIAL_ENABLE : bool;
  PTH_RESET_IMMEDIATELY_WHEN_TAP_CHOSEN : bool;
  PTH_FAST_STREAK_TAP_ENABLE : bool;
  PTH_FAST_STREAK_TAP_RESET_IMMEDIATELY : bool;
  TAP_CODE_DELAY : Z;
  PTH_INSTANT_MOD_TAP_SUPPRESSION_KEY : Z
}.

(** The weakly defined functions of the source, which a keymap may
    override.  A hook may call the module's accessor functions and read the
    firmware, so it is a function of the static variables and of the world. *)
Class Hooks {fw : Firmware} := {
  pth_get_side : keyrecord_t -> pth_state -> world -> Z;
  pth_predict_fast_streak_tap : pth_state -> world -> bool;
  pth_should_hold_instantly : Z -> keyrecord_t -> pth_state -> world -> bool;
  pth_second_should_hold_instantly : Z -> keyrecord_t -> pth_state -> world -> bool;
  pth_should_choose_tap_when_second_is_same_side_press : pth_state -> world -> bool;
  pth_should_choose_tap_when_second_is_same_side_release : pth_state -> world -> bool;
  pth_get_timeout_for_forcing_choice : pth_state -> world -> Z;
  pth_get_forced_choice_after_timeout : pth_state -> world -> pth_status_t;
  pth_should_neutralize_mods : Z -> pth_state -> world -> bool;
  pth_get_code_to_be_registered_instead_when_hold_chosen : pth_state -> world -> Z;
  pth_should_register_as_hold_when_same_side : Z -> keyrecord_t -> pth_state -> world -> bool;
  pth_predict_hold_when_third_press : pth_state -> world -> bool;
  pth_predict_hold_when_pth_release_after_second_press : pth_state -> world -> bool;
  pth_predict_hold_when_pth_release_after_second_release : pth_state -> world -> bool;
  pth_predict_min_overlap_for_hold_in_ms : pth_state -> world -> Z
}.

(* ------------------------------------------------------------------------- *)
(** ** The state monad of the embedding *)

Section Model.

Context {fw : Firmware} {cfg : BuildConfig}.

(** The static variables, the firmware state and the actions sent so far. *)
Record machine := Build_machine {
  st : pth_state;
  env : world;
  out : list action
}.

(** A computation either finishes or stops at a fault: a construct the C
    standard leaves undefined ([__builtin_ctz(0)], an access past the end of
    an array), or a [while] loop of the model that ran out of its iteration
    budget.  The machine at the fault is kept. *)
Inductive fault := Ctz_of_zero | Index_out_of_bounds | Loop_budget_exhausted.

Inductive outcome (A : Type) :=
| Done (a : A) (m : machine)
| Fault (f : fault) (m : machine).
Arguments Done {A} a m.
Arguments Fault {A} f m.

Definition M (A : Type) : Type := machine -> outcome A.

Definition ret {A} (a : A) : M A := fun m => Done a m.

Definition bind {A B} (c : M A) (k : A -> M B) : M B :=
  fun m => match c m with
           | Done a m' => k a m'
           | Fault f m' => Fault f m'
           end.

Definition raise {A} (f : fault) : M A := fun m => Fault f m.

(** Reading static variables, reading the firmware, assigning. *)
Definition gets {A} (f : pth_state -> A) : M A := fun m => Done (f (st m)) m.
Definition hook {A} (f : pth_state -> world -> A) : M A :=
  fun m => Done (f (st m) (env m)) m.
Definition modify (g : pth_state -> pth_state) : M unit :=
  fun m => Done tt {| st := g (st m); env := env m; out := out m |}.
Definition assign {A} (setter : A -> pth_state -> pth_state) (v : A) : M unit :=
  modify (setter v).
Definition emit (a : action) : M unit :=
  fun m => Done tt {| st := st m; env := perform a (env m); out := out m ++ [a] |}.
Definition when (b : bool) (c : M unit) : M unit := if b then c else ret tt.

End Model.

Arguments Done {fw A} a m.
Arguments Fault {fw A} f m.

Declare Scope pth_scope.
Delimit Scope pth_scope with pth.
Notation "x <- c1 ;; c2" := (bind c1 (fun x => c2))
  (at level 61, c1 at next level, right associativity) : pth_scope.
Notation "c1 ;; c2" := (bind c1 (fun _ => c2))
  (at level 61, right associativity) : pth_scope.
Local Open Scope pth_scope.

(* ------------------------------------------------------------------------- *)
(** ** Utility functions of the source *)

Section Utilities.

Context {fw : Firmware} {cfg : BuildConfig}.

(** Modelled from the spec: [timer_read] is QMK's; the specification
    describes the time stamp as a free-running 16-bit millisecond counter. *)
Definition timer_read : M Z := hook (fun _ w => u16 (timer_read32 w)).

(** Modelled from the spec: [timer_elapsed(last)] is the modular difference
    between the current reading and [last]. *)
Definition timer_elapsed (last : Z) : M Z :=
  now <- timer_read ;; ret (TIMER_DIFF_16 now last).

Definition get_keycode_same_pos_in_layer (record : keyrecord_t) (layer : Z) : M Z :=
  let pos := key (event record) in
  if VIAL_ENABLE
  then hook (fun _ w => dynamic_keymap_get_keycode layer (row pos) (col pos) w)
  else hook (fun _ w => keycode_at_keymap_location layer (row pos) (col pos) w).

Definition MODS_5_BIT_RL_BIT : Z := 0x10.

Definition convert_5_bit_mods_to_8_bit (mods_5_bit : Z) : Z :=
  if Z.land mods_5_bit MODS_5_BIT_RL_BIT =? 0 then mods_5_bit
  else u8 (Z.shiftl (Z.land mods_5_bit (Z.lnot MODS_5_BIT_RL_BIT)) 4).

Definition get_5_bit_mods_of_mod_tap (keycode : Z) (w : world) : Z :=
  mod_config (QK_MOD_TAP_GET_MODS keycode) w.

Definition is_same_side_as_pth (other_atomic_side : Z) (s : pth_state) : bool :=
  let index := u8 (Z.lor (Z.shiftl (pth_atomic_side s) 2) other_atomic_side) in
  Z.odd (Z.land (Z.shiftr truth_table index) 1).

Definition pth_is_tap_hold_keycode (keycode : Z) : bool :=
  if (QK_MOD_TAP <=? keycode) && (keycode <=? QK_MOD_TAP_MAX) then true
  else if (QK_LAYER_TAP <=? keycode) && (keycode <=? QK_LAYER_TAP_MAX) then true
  else if (QK_SWAP_HANDS <=? keycode) && (keycode <=? QK_SWAP_HANDS_MAX)
       then negb (IS_SWAP_HANDS_KEYCODE keycode)
  else false.

Definition pth_get_all_8_bit_mods (w : world) : Z :=
  if NO_ACTION_ONESHOT then get_mods w
  else Z.lor (get_mods w) (get_oneshot_mods w).

Definition pth_get_8_bit_mods_of_mod_tap (keycode : Z) (w : world) : Z :=
  convert_5_bit_mods_to_8_bit (get_5_bit_mods_of_mod_tap keycode w).

Definition pth_is_mod_tap_with_any_mods_of (keycode mods_8_bit : Z) (w : world) : bool :=
  IS_QK_MOD_TAP keycode
  && negb (Z.land (pth_get_8_bit_mods_of_mod_tap keycode w) mods_8_bit =? 0).

Definition pth_default_should_hold_instantly
    (keycode : Z) (record : keyrecord_t) (w : world) : bool :=
  if CAPS_WORD_ENABLE && is_caps_word_on w then false
  else
    let active_mods_or_gui := Z.lor (pth_get_all_8_bit_mods w) MOD_MASK_GUI in
    if pth_is_mod_tap_with_any_mods_of keycode active_mods_or_gui w then false
    else true.

Definition pth_get_side_from_layout (pos : keypos_t) : Z :=
  u8 (pth_side_layout (row pos) (col pos)).

(** *** The weak functions' default bodies *)

Definition default_pth_get_side (record : keyrecord_t) : Z :=
  pth_get_side_from_layout (key (event record)).

(** Present when [PTH_FAST_STREAK_TAP_ENABLE] is defined. *)
Definition pth_is_fast_streak_tap_key (keycode : Z) (w : world) : bool :=
  if negb (Z.land (get_mods w) (Z.lor MOD_MASK_CG MOD_BIT_LALT) =? 0) then false
  else
    let t := get_tap_keycode keycode in
    if (KC_A <=? t) && (t <=? KC_Z) then true
    else if t =? KC_SPC then true
    else if t =? KC_DOT then true
    else if t =? KC_COMM then true
    else if t =? KC_SCLN then true
    else if t =? KC_SLSH then true
    else false.

Definition default_pth_predict_fast_streak_tap (s : pth_state) (w : world) : bool :=
  pth_is_fast_streak_tap_key (pth_keycode s) w
  && pth_is_fast_streak_tap_key (prev_press_keycode s) w
  && negb (status_eqb (pth_prev_status s) PTH_DECIDED_HOLD)
  && (pth_prev_press_to_pth_press_dur s <? 125).

Definition default_pth_should_choose_tap_when_second_is_same_side_press
    (s : pth_state) : bool :=
  negb (second_is_tap_hold s).

Definition default_pth_get_forced_choice_after_timeout (s : pth_state) : pth_status_t :=
  if has_second s then PTH_IDLE else PTH_DECIDED_HOLD.

Definition default_pth_should_neutralize_mods (mod_5_bit : Z) : bool :=
  Z.land mod_5_bit (Z.lor MOD_LCTL MOD_LSFT) =? 0.

End Utilities.

(** The keymap that overrides nothing: every weak function at its default.
    The four predictors compute with [float] decision trees and a [float]
    formula; they are arguments here. *)
Definition default_hooks {fw : Firmware} {cfg : BuildConfig}
    (predict_third predict_after_press predict_after_release : pth_state -> world -> bool)
    (predict_min_overlap : pth_state -> world -> Z) : Hooks :=
  {| pth_get_side := fun r _ _ => default_pth_get_side r;
     pth_predict_fast_streak_tap := default_pth_predict_fast_streak_tap;
     pth_should_hold_instantly := fun kc r _ w => pth_default_should_hold_instantly kc r w;
     pth_second_should_hold_instantly :=
       fun kc r _ w => pth_default_should_hold_instantly kc r w;
     pth_should_choose_tap_when_second_is_same_side_press :=
       fun s _ => default_pth_should_choose_tap_when_second_is_same_side_press s;
     pth_should_choose_tap_when_second_is_same_side_release := fun _ _ => true;
     pth_get_timeout_for_forcing_choice := fun _ _ => 700;
     pth_get_forced_choice_after_timeout :=
       fun s _ => default_pth_get_forced_choice_after_timeout s;
     pth_should_neutralize_mods := fun m _ _ => default_pth_should_neutralize_mods m;
     pth_get_code_to_be_registered_instead_when_hold_chosen := fun _ _ => KC_NO;
     pth_should_register_as_hold_when_same_side := fun _ _ _ _ => true;
     pth_predict_hold_when_third_press := predict_third;
     pth_predict_hold_when_pth_release_after_second_press := predict_after_press;
     pth_predict_hold_when_pth_release_after_second_release := predict_after_release;
     pth_predict_min_overlap_for_hold_in_ms := predict_min_overlap |}.

(* ------------------------------------------------------------------------- *)
(** ** Key handling, the two caches, the decisions *)

Section Engine.

Context {fw : Firmware} {cfg : BuildConfig} {hk : Hooks}.

Definition reset_pth_state : M unit :=
  s <- gets pth_status ;;
  assign set_pth_prev_status s ;;
  assign set_pth_status PTH_IDLE ;;
  assign set_pth_keycode KC_NO ;;
  assign set_pth_tap_code_instead_of_hold KC_NO ;;
  modify (fun s => set_pth_record (with_key EMPTY_KEYPOS (pth_record s)) s) ;;
  assign set_pth_press_timer_max_reached false ;;
  assign set_pth_was_held_instantly false ;;
  assign set_second_was_held_instantly false ;;
  assign set_instant_layer_was_active false ;;
  assign set_layer_before_instant_layer_tap 0 ;;
  assign set_has_second false ;;
  modify (fun s => set_second_record (with_key EMPTY_KEYPOS (second_record s)) s) ;;
  assign set_second_keycode KC_NO ;;
  assign set_second_press_timer_max_reached false ;;
  assign set_second_is_tap_hold false ;;
  assign set_second_to_be_released false ;;
  assign set_has_chosen_after_timeout_reached false ;;
  assign set_min_overlap_dur_for_hold 0.

Definition keyboard_post_init_predictive_tap_hold : M unit :=
  t1 <- timer_read ;;
  assign set_press_to_press_timer (u16 (t1 - MS_MAX_DUR_FOR_TIMERS)) ;;
  t2 <- timer_read ;;
  assign set_release_timer (u16 (t2 - (MS_MAX_DUR_FOR_TIMERS - 100))).

Definition is_record_same_side_as_pth (record : keyrecord_t) : M bool :=
  side <- hook (pth_get_side record) ;;
  gets (is_same_side_as_pth (PTH_GET_OTHER_ATOM_SIDE side)).

(** *** Sending records on

    The source passes [&pth_record], [&second_record], [&release_records[i]]
    or the caller's [record] to these functions, which write to the record
    and hand it to [process_record].  Here they take the record and return
    it as written; [at_pth_record], [at_second_record] and
    [at_release_record] store the result back into the static variable. *)

Definition process_record_with_new_time (record : keyrecord_t) : M keyrecord_t :=
  t <- timer_read ;;
  let record := with_time t record in
  assign set_is_processing_record_due_to_pth true ;;
  emit (Act_process_record record) ;;
  assign set_is_processing_record_due_to_pth false ;;
  ret record.

Definition process_register_record (record : keyrecord_t) : M keyrecord_t :=
  process_record_with_new_time (with_pressed true record).

Definition process_unregister_record (record : keyrecord_t) : M keyrecord_t :=
  process_record_with_new_time (with_pressed false record).

Definition process_register_record_as_hold (record : keyrecord_t) : M keyrecord_t :=
  process_record_with_new_time (with_pressed true (set_record_to_hold record)).

Definition process_unregister_record_as_hold (record : keyrecord_t) : M keyrecord_t :=
  process_record_with_new_time (with_pressed false (set_record_to_hold record)).

Definition process_register_record_as_tap (record : keyrecord_t) : M keyrecord_t :=
  process_record_with_new_time (with_pressed true (set_record_to_tap record)).

Definition process_unregister_record_as_tap (record : keyrecord_t) : M keyrecord_t :=
  process_record_with_new_time (with_pressed false (set_record_to_tap record)).

Definition at_pth_record (f : keyrecord_t -> M keyrecord_t) : M unit :=
  r <- gets pth_record ;; r' <- f r ;; assign set_pth_record r'.

Definition at_second_record (f : keyrecord_t -> M keyrecord_t) : M unit :=
  r <- gets second_record ;; r' <- f r ;; assign set_second_record r'.

(** Arrays of the source are lists; an index outside the array is a fault. *)
Fixpoint list_set {A} (n : nat) (x : A) (l : list A) : list A :=
  match l, n with
  | [], _ => []
  | _ :: l', O => x :: l'
  | y :: l', S n' => y :: list_set n' x l'
  end.

Definition in_bounds {A} (i : Z) (l : list A) : bool :=
  (0 <=? i) && (i <? Z.of_nat (length l)).

Definition load_release_record (i : Z) : M keyrecord_t :=
  l <- gets release_records ;;
  if in_bounds i l then ret (nth (Z.to_nat i) l zero_record)
  else raise Index_out_of_bounds.

Definition store_release_record (i : Z) (r : keyrecord_t) : M unit :=
  l <- gets release_records ;;
  if in_bounds i l then assign set_release_records (list_set (Z.to_nat i) r l)
  else raise Index_out_of_bounds.

Definition load_release_as_tap_position (i : Z) : M keypos_t :=
  l <- gets release_as_tap_positions ;;
  if in_bounds i l then ret (nth (Z.to_nat i) l EMPTY_KEYPOS)
  else raise Index_out_of_bounds.

Definition store_release_as_tap_position (i : Z) (p : keypos_t) : M unit :=
  l <- gets release_as_tap_positions ;;
  if in_bounds i l then assign set_release_as_tap_positions (list_set (Z.to_nat i) p l)
  else raise Index_out_of_bounds.

Definition at_release_record (i : Z) (f : keyrecord_t -> M keyrecord_t) : M unit :=
  r <- load_release_record i ;; r' <- f r ;; store_release_record i r'.

Definition ctz (x : Z) : M Z :=
  match builtin_ctz x with
  | Some i => ret i
  | None => raise Ctz_of_zero
  end.

(** will only be called if PTH was not held instantly *)
Definition register_pth_hold : M unit :=
  alt <- gets pth_tap_code_instead_of_hold ;;
  if alt =? KC_NO then
    at_pth_record process_register_record_as_hold ;;
    c <- gets (fun s => has_second s && negb (second_was_held_instantly s)
                        && IS_QK_LAYER_TAP (pth_keycode s)) ;;
    when c (
      r <- gets second_record ;;
      kc <- gets pth_keycode ;;
      k <- get_keycode_same_pos_in_layer r (QK_LAYER_TAP_GET_LAYER kc) ;;
      assign set_second_keycode k ;;
      assign set_second_is_tap_hold (pth_is_tap_hold_keycode k))
  else emit (Act_register_code16 alt).

Definition unregister_pth_hold : M unit :=
  alt <- gets pth_tap_code_instead_of_hold ;;
  if alt =? KC_NO then at_pth_record process_unregister_record_as_hold
  else emit (Act_unregister_code16 alt).

Definition send_and_wait : M unit :=
  emit Act_send_keyboard_report ;;
  when (TAP_CODE_DELAY >? 0) (emit (Act_wait_ms TAP_CODE_DELAY)).

Definition tap_code16 (kc : Z) : M unit := emit (Act_tap_code16 kc).

(** *** Tap-hold releases that should be taps *)

(** The [while (to_check_bitmask != 0)] loop.  Each round clears one bit of
    an 8-bit mask, so eight rounds are its budget. *)
Fixpoint remove_pos_loop (budget : nat) (pos : keypos_t) (to_check_bitmask : Z) : M bool :=
  if to_check_bitmask =? 0 then ret false
  else
    match budget with
    | O => raise Loop_budget_exhausted
    | S budget' =>
      lsb_set_index <- ctz to_check_bitmask ;;
      p <- load_release_as_tap_position lsb_set_index ;;
      if keypos_eq p pos then
        used <- gets used_release_as_tap_positions_bitmask ;;
        assign set_used_release_as_tap_positions_bitmask (clear_bit used lsb_set_index) ;;
        ret true
      else remove_pos_loop budget' pos (clear_bit to_check_bitmask lsb_set_index)
    end.

Definition remove_pos_from_tap_releases (pos : keypos_t) : M bool :=
  to_check_bitmask <- gets used_release_as_tap_positions_bitmask ;;
  remove_pos_loop 8 pos to_check_bitmask.

Definition add_pos_to_tap_releases (pos : keypos_t) : M unit :=
  used <- gets used_release_as_tap_positions_bitmask ;;
  let empty_release_as_tap_positions_bitmask := u8 (Z.lnot used) in
  if empty_release_as_tap_positions_bitmask =? 0 then ret tt
  else
    lsb_set_index <- ctz empty_release_as_tap_positions_bitmask ;;
    store_release_as_tap_position lsb_set_index pos ;;
    assign set_used_release_as_tap_positions_bitmask (set_bit used lsb_set_index).

(** *** Release records *)

Definition get_to_be_released_bitmask (release_time : release_time_t) (s : pth_state) : Z :=
  let is_before_second := is_BEFORE_SECOND release_time in
  let same_release_time_bitmask :=
    u8 (Z.lxor (is_before_second_bitmask s) (Z.lnot (- Z.b2z is_before_second))) in
  Z.land (used_release_records_bitmask s) same_release_time_bitmask.

Fixpoint release_loop (budget : nat) (to_be_released_bitmask : Z) (waited : bool) : M bool :=
  if to_be_released_bitmask =? 0 then ret waited
  else
    match budget with
    | O => raise Loop_budget_exhausted
    | S budget' =>
      lsb_set_index <- ctz to_be_released_bitmask ;;
      when (negb waited) send_and_wait ;;
      at_release_record lsb_set_index process_record_with_new_time ;;
      release_loop budget' (clear_bit to_be_released_bitmask lsb_set_index) true
    end.

Definition process_release_records
    (release_time : release_time_t) (wait_before_first : bool) : M bool :=
  to_be_released_bitmask <- gets (get_to_be_released_bitmask release_time) ;;
  if to_be_released_bitmask =? 0 then ret false
  else
    used <- gets used_release_records_bitmask ;;
    assign set_used_release_records_bitmask
           (u8 (Z.land used (Z.lnot to_be_released_bitmask))) ;;
    release_loop 8 to_be_released_bitmask (negb wait_before_first).

Definition process_release_records_and_wait_before_first
    (release_time : release_time_t) : M bool :=
  process_release_records release_time true.

(** The full-cache branch calls [process_record] and has no [return]: the
    function goes on to [__builtin_ctz(has_no_record_bitmask)]. *)
Definition add_release_record (record : keyrecord_t) (release_time : release_time_t) : M unit :=
  used <- gets used_release_records_bitmask ;;
  let has_no_record_bitmask := u8 (Z.lnot used) in
  when (has_no_record_bitmask =? 0) (emit (Act_process_record record)) ;;
  lsb_unset_index <- ctz has_no_record_bitmask ;;
  store_release_record lsb_unset_index record ;;
  let is_before_second := is_BEFORE_SECOND release_time in
  before <- gets is_before_second_bitmask ;;
  assign set_is_before_second_bitmask (change_bit before lsb_unset_index is_before_second) ;;
  used <- gets used_release_records_bitmask ;;
  assign set_used_release_records_bitmask (set_bit used lsb_unset_index).

(** *** Decisions *)

Definition should_neutralize_mods (keycode : Z) (was_held_instantly : bool) : M bool :=
  if was_held_instantly && IS_QK_MOD_TAP keycode
  then hook (fun s w => pth_should_neutralize_mods (get_5_bit_mods_of_mod_tap keycode w) s w)
  else ret false.

Definition make_decision_tap : M unit :=
  status <- gets pth_status ;;
  if status_geb status PTH_DECIDED_TAP then ret tt
  else
    assign set_pth_status PTH_DECIDED_TAP ;;
    kc <- gets pth_keycode ;;
    held <- gets pth_was_held_instantly ;;
    n1 <- should_neutralize_mods kc held ;;
    n <- (if n1 then ret true
          else (kc2 <- gets second_keycode ;;
                held2 <- gets second_was_held_instantly ;;
                should_neutralize_mods kc2 held2)) ;;
    when n (tap_code16 PTH_INSTANT_MOD_TAP_SUPPRESSION_KEY) ;;
    held <- gets pth_was_held_instantly ;;
    when held (
      kc <- gets pth_keycode ;;
      when (IS_QK_LAYER_TAP kc) (
        r <- gets second_record ;;
        layer <- gets layer_before_instant_layer_tap ;;
        k <- get_keycode_same_pos_in_layer r layer ;;
        assign set_second_keycode k ;;
        assign set_second_is_tap_hold (pth_is_tap_hold_keycode k)) ;;
      at_pth_record process_unregister_record_as_hold) ;;
    held2 <- gets second_was_held_instantly ;;
    when held2 (at_second_record process_unregister_record_as_hold) ;;
    at_pth_record process_register_record_as_tap ;;
    _ <- process_release_records_and_wait_before_first BEFORE_SECOND ;;
    has <- gets has_second ;;
    if negb has then ret tt
    else
      sth <- gets second_is_tap_hold ;;
      when sth (
        to_be_released <- gets second_to_be_released ;;
        when (negb to_be_released) (
          r <- gets second_record ;;
          add_pos_to_tap_releases (key (event r))) ;;
        modify (fun s => set_second_record (set_record_to_tap (second_record s)) s)) ;;
      at_second_record process_register_record ;;
      waited <- process_release_records_and_wait_before_first AFTER_SECOND ;;
      to_be_released <- gets second_to_be_released ;;
      when to_be_released (
        when (negb waited) send_and_wait ;;
        at_second_record process_unregister_record).

Definition make_decision_hold : M unit :=
  status <- gets pth_status ;;
  if status_geb status PTH_DECIDED_TAP then ret tt
  else
    assign set_pth_status PTH_DECIDED_HOLD ;;
    held <- gets pth_was_held_instantly ;;
    when (negb held) register_pth_hold ;;
    held <- gets pth_was_held_instantly ;;
    _ <- process_release_records BEFORE_SECOND held ;;
    has <- gets has_second ;;
    if negb has then ret tt
    else
      held2 <- gets second_was_held_instantly ;;
      when (negb held2) (
        sth <- gets second_is_tap_hold ;;
        when sth (
          same <- gets second_is_same_side_as_pth ;;
          as_hold <- (if same
                      then hook (fun s w => pth_should_register_as_hold_when_same_side
                                              (second_keycode s) (second_record s) s w)
                      else ret false) ;;
          if as_hold then
            modify (fun s => set_second_record (set_record_to_hold (second_record s)) s)
          else
            to_be_released <- gets second_to_be_released ;;
            when (negb to_be_released) (
              r <- gets second_record ;;
              add_pos_to_tap_releases (key (event r))) ;;
            modify (fun s => set_second_record (set_record_to_tap (second_record s)) s)) ;;
        at_second_record process_register_record) ;;
      held2 <- gets second_was_held_instantly ;;
      waited <- process_release_records AFTER_SECOND held2 ;;
      to_be_released <- gets second_to_be_released ;;
      when to_be_released (
        when (negb waited) send_and_wait ;;
        at_second_record process_unregister_record).

(** The [#ifdef PTH_RESET_IMMEDIATELY_WHEN_TAP_CHOSEN] block that follows
    a tap decision in several places. *)
Definition reset_immediately_when_tap_chosen : M unit :=
  when PTH_RESET_IMMEDIATELY_WHEN_TAP_CHOSEN (
    r <- gets pth_record ;;
    add_pos_to_tap_releases (key (event r)) ;;
    reset_pth_state).

Definition make_user_choice_or_not : M unit :=
  assign set_has_chosen_after_timeout_reached true ;;
  choice <- hook pth_get_forced_choice_after_timeout ;;
  match choice with
  | PTH_DECIDED_HOLD => make_decision_hold
  | PTH_DECIDED_TAP => make_decision_tap ;; reset_immediately_when_tap_chosen
  | _ => ret tt
  end.

(** *** Timing tracker *)

Definition store_press_to_press_and_overlap_for_pth : M unit :=
  d <- gets prev_press_to_press_dur ;;
  assign set_pth_prev_prev_press_to_prev_press_dur d ;;
  d <- gets cur_press_to_press_dur ;;
  assign set_pth_prev_press_to_pth_press_dur d ;;
  dc <- gets down_count ;;
  let down_count_before_this := u8 (dc - 1) in
  d <- gets prev_overlap_dur ;;
  assign set_pth_prev_prev_overlap_dur d ;;
  d <- gets cur_overlap_dur ;;
  assign set_pth_prev_overlap_dur d ;;
  if down_count_before_this =? 1 then
    d <- gets pth_prev_overlap_dur ;;
    assign set_pth_prev_prev_overlap_dur d ;;
    assign set_pth_prev_overlap_dur 0
  else if down_count_before_this >=? 2 then
    assign set_pth_prev_prev_overlap_dur 0 ;;
    reached <- gets overlap_timer_max_reached ;;
    if reached then assign set_pth_prev_overlap_dur MS_MAX_DUR_FOR_TIMERS
    else
      timer <- gets overlap_timer ;;
      e <- timer_elapsed timer ;;
      assign set_pth_prev_overlap_dur (i16 e)
  else ret tt.

Definition collect_new_press_to_press_and_overlap_duration
    (is_pressed : bool) (cur_time : Z) : M unit :=
  if is_pressed then
    reached <- gets press_to_press_timer_max_reached ;;
    timer <- gets press_to_press_timer ;;
    let p_to_p_dur :=
      if reached then MS_MAX_DUR_FOR_TIMERS else TIMER_DIFF_16 cur_time timer in
    d <- gets cur_press_to_press_dur ;;
    assign set_prev_press_to_press_dur d ;;
    assign set_cur_press_to_press_dur (i16 p_to_p_dur) ;;
    assign set_press_to_press_timer cur_time ;;
    assign set_press_to_press_timer_max_reached false ;;
    dc <- gets down_count ;;
    assign set_down_count (u8 (dc + 1)) ;;
    dc <- gets down_count ;;
    when (dc =? 2) (
      assign set_overlap_timer cur_time ;;
      assign set_overlap_timer_max_reached false)
  else
    dc <- gets down_count ;;
    reached <- gets overlap_timer_max_reached ;;
    timer <- gets overlap_timer ;;
    let overlap :=
      if dc >=? 2
      then (if reached then MS_MAX_DUR_FOR_TIMERS else TIMER_DIFF_16 cur_time timer)
      else 0 in
    when (dc >? 0) (assign set_down_count (u8 (dc - 1))) ;;
    d <- gets cur_overlap_dur ;;
    assign set_prev_overlap_dur d ;;
    assign set_cur_overlap_dur (i16 overlap) ;;
    assign set_overlap_timer cur_time ;;
    assign set_overlap_timer_max_reached false ;;
    assign set_release_timer cur_time ;;
    assign set_release_timer_max_reached false.

(** *** The state machine

    The [switch (pth_status)] of [process_record_predictive_tap_hold], one
    definition per [case].  A case answers [Some b] where the source says
    [return b], and [None] where it leaves the [switch] with [break]. *)

Definition pth_key : M keypos_t := gets (fun s => key (event (pth_record s))).
Definition second_key : M keypos_t := gets (fun s => key (event (second_record s))).

(** The recurring [if (x_max_reached) d = MS_MAX_DUR_FOR_TIMERS; else
    d = TIMER_DIFF_16(now, timer);] of the dispatcher. *)
Definition saturated_diff (max_reached : bool) (now timer : Z) : Z :=
  if max_reached then MS_MAX_DUR_FOR_TIMERS else TIMER_DIFF_16 now timer.

Definition case_PTH_IDLE
    (keycode : Z) (record : keyrecord_t) (cur_time : Z) (is_tap_hold : bool)
    : M (option bool) :=
  if pressed (event record) && is_tap_hold then
    assign set_pth_status PTH_PRESSED ;;
    assign set_pth_press_timer cur_time ;;
    assign set_pth_keycode keycode ;;
    assign set_pth_record record ;;
    r <- gets pth_record ;;
    side <- hook (pth_get_side r) ;;
    assign set_pth_side_user_bits (PTH_GET_USER_BITS side) ;;
    assign set_pth_atomic_side (PTH_GET_PTH_ATOM_SIDE side) ;;
    reached <- gets release_timer_max_reached ;;
    press_timer <- gets pth_press_timer ;;
    timer <- gets release_timer ;;
    assign set_key_release_before_pth_to_pth_press_dur
           (saturated_diff reached press_timer timer) ;;
    store_press_to_press_and_overlap_for_pth ;;
    alt <- hook pth_get_code_to_be_registered_instead_when_hold_chosen ;;
    assign set_pth_tap_code_instead_of_hold alt ;;
    t <- hook pth_get_timeout_for_forcing_choice ;;
    assign set_timeout_for_forcing_choice t ;;
    t <- gets timeout_for_forcing_choice ;;
    decided <- (if t =? 0 then
                  make_user_choice_or_not ;;
                  status <- gets pth_status ;;
                  ret (status_geb status PTH_DECIDED_TAP)
                else ret false) ;;
    if decided then ret (Some false)
    else
      streak <- (if PTH_FAST_STREAK_TAP_ENABLE then hook pth_predict_fast_streak_tap
                 else ret false) ;;
      if streak then
        (if PTH_FAST_STREAK_TAP_RESET_IMMEDIATELY then
           at_pth_record process_register_record_as_tap ;;
           pos <- pth_key ;;
           add_pos_to_tap_releases pos ;;
           reset_pth_state
         else make_decision_tap) ;;
        ret (Some false)
      else
        alt <- gets pth_tap_code_instead_of_hold ;;
        instantly <- (if alt =? KC_NO
                      then hook (fun s w => pth_should_hold_instantly
                                              (pth_keycode s) (pth_record s) s w)
                      else ret false) ;;
        assign set_pth_was_held_instantly instantly ;;
        when instantly (
          when (IS_QK_LAYER_TAP keycode) (
            assign set_instant_layer_was_active true ;;
            pos <- pth_key ;;
            layer <- hook (fun _ w => layer_switch_get_layer pos w) ;;
            assign set_layer_before_instant_layer_tap layer) ;;
          at_pth_record process_register_record_as_hold) ;;
        ret (Some false)
  else ret None.

Definition case_PTH_PRESSED
    (keycode : Z) (record : keyrecord_t) (cur_time : Z) (is_tap_hold : bool)
    : M (option bool) :=
  let cur_pos := key (event record) in
  if pressed (event record) then
    assign set_pth_status PTH_SECOND_PRESSED ;;
    assign set_has_second true ;;
    assign set_second_press_timer cur_time ;;
    assign set_second_keycode keycode ;;
    assign set_second_record record ;;
    assign set_second_is_tap_hold is_tap_hold ;;
    same <- is_record_same_side_as_pth record ;;
    assign set_second_is_same_side_as_pth same ;;
    reached <- gets pth_press_timer_max_reached ;;
    second_timer <- gets second_press_timer ;;
    timer <- gets pth_press_timer ;;
    assign set_pth_press_to_second_press_dur (saturated_diff reached second_timer timer) ;;
    no_key <- gets (fun s => pth_was_held_instantly s && instant_layer_was_active s
                             && (second_keycode s =? KC_NO)) ;;
    if no_key then
      make_decision_tap ;;
      reset_immediately_when_tap_chosen ;;
      ret (Some false)
    else
      sth <- gets second_is_tap_hold ;;
      same <- gets second_is_same_side_as_pth ;;
      when (sth || negb same) (
        v <- hook pth_predict_min_overlap_for_hold_in_ms ;;
        assign set_min_overlap_dur_for_hold
               (MIN PTH_MS_MAX_OVERLAP (MAX PTH_MS_MIN_OVERLAP v))) ;;
      same <- gets second_is_same_side_as_pth ;;
      if negb same then ret (Some false)
      else
        choose_tap <- hook pth_should_choose_tap_when_second_is_same_side_press ;;
        if choose_tap then
          make_decision_tap ;;
          reset_immediately_when_tap_chosen ;;
          ret (Some false)
        else
          sth <- gets second_is_tap_hold ;;
          instantly <- (if sth
                        then hook (fun s w => pth_second_should_hold_instantly
                                                (second_keycode s) (second_record s) s w)
                        else ret false) ;;
          when instantly (
            active <- gets instant_layer_was_active ;;
            kc2 <- gets second_keycode ;;
            when (negb active && IS_QK_LAYER_TAP kc2) (
              pos <- second_key ;;
              layer <- hook (fun _ w => layer_switch_get_layer pos w) ;;
              assign set_layer_before_instant_layer_tap layer ;;
              assign set_instant_layer_was_active true) ;;
            assign set_second_was_held_instantly true ;;
            at_second_record process_register_record_as_hold) ;;
          ret (Some false)
  else
    pos <- pth_key ;;
    if keypos_eq cur_pos pos then
      make_decision_tap ;;
      send_and_wait ;;
      at_pth_record process_unregister_record_as_tap ;;
      reset_pth_state ;;
      ret (Some false)
    else
      add_release_record record BEFORE_SECOND ;;
      ret (Some false).

Definition case_PTH_SECOND_PRESSED
    (keycode : Z) (record : keyrecord_t) (cur_time : Z) (is_tap_hold : bool)
    : M (option bool) :=
  let cur_pos := key (event record) in
  if pressed (event record) then
    reached <- gets second_press_timer_max_reached ;;
    timer <- gets second_press_timer ;;
    assign set_pth_second_press_to_third_press_dur (saturated_diff reached cur_time timer) ;;
    hold <- hook pth_predict_hold_when_third_press ;;
    third <- (if hold then make_decision_hold ;; ret (keycode, is_tap_hold)
              else
                make_decision_tap ;;
                active <- gets instant_layer_was_active ;;
                if active then
                  layer <- gets layer_before_instant_layer_tap ;;
                  k <- get_keycode_same_pos_in_layer record layer ;;
                  ret (k, pth_is_tap_hold_keycode k)
                else ret (keycode, is_tap_hold)) ;;
    let keycode := fst third in
    let third_is_tap_hold := snd third in
    (if third_is_tap_hold then
       as_hold <- (if hold then
                     same <- is_record_same_side_as_pth record ;;
                     if same
                     then hook (pth_should_register_as_hold_when_same_side keycode record)
                     else ret false
                   else ret false) ;;
       if as_hold then _ <- process_register_record_as_hold record ;; ret tt
       else
         add_pos_to_tap_releases cur_pos ;;
         _ <- process_register_record_as_tap record ;; ret tt
     else _ <- process_record_with_new_time record ;; ret tt) ;;
    when (negb hold) reset_immediately_when_tap_chosen ;;
    ret (Some false)
  else
    pos <- pth_key ;;
    if keypos_eq cur_pos pos then
      same <- gets second_is_same_side_as_pth ;;
      hold <- (if negb same then
                 to_be_released <- gets second_to_be_released ;;
                 if to_be_released
                 then hook pth_predict_hold_when_pth_release_after_second_release
                 else hook pth_predict_hold_when_pth_release_after_second_press
               else ret false) ;;
      (if hold then make_decision_hold ;; unregister_pth_hold
       else
         make_decision_tap ;;
         send_and_wait ;;
         at_pth_record process_unregister_record_as_tap) ;;
      reset_pth_state ;;
      ret (Some false)
    else
      pos2 <- second_key ;;
      if keypos_eq cur_pos pos2 then
        assign set_second_to_be_released true ;;
        same <- gets second_is_same_side_as_pth ;;
        choose_tap <- (if same
                       then hook pth_should_choose_tap_when_second_is_same_side_release
                       else ret false) ;;
        if choose_tap then
          make_decision_tap ;;
          reset_immediately_when_tap_chosen ;;
          ret (Some false)
        else
          reached <- gets pth_press_timer_max_reached ;;
          timer <- gets pth_press_timer ;;
          assign set_pth_press_to_second_release_dur (saturated_diff reached cur_time timer) ;;
          reached <- gets second_press_timer_max_reached ;;
          timer <- gets second_press_timer ;;
          assign set_pth_second_dur (saturated_diff reached cur_time timer) ;;
          ret (Some false)
      else
        add_release_record record AFTER_SECOND ;;
        ret (Some false).

Definition case_PTH_DECIDED_TAP
    (keycode : Z) (record : keyrecord_t) (cur_time : Z) (is_tap_hold : bool)
    : M (option bool) :=
  let cur_pos := key (event record) in
  if pressed (event record) then
    if is_tap_hold then
      add_pos_to_tap_releases (key (event record)) ;;
      _ <- process_register_record_as_tap record ;;
      ret (Some false)
    else ret None
  else
    pos <- pth_key ;;
    if keypos_eq cur_pos pos then
      send_and_wait ;;
      at_pth_record process_unregister_record_as_tap ;;
      reset_pth_state ;;
      ret (Some false)
    else ret None.

Definition case_PTH_DECIDED_HOLD
    (keycode : Z) (record : keyrecord_t) (cur_time : Z) (is_tap_hold : bool)
    : M (option bool) :=
  let cur_pos := key (event record) in
  if pressed (event record) then
    if is_tap_hold then
      same <- is_record_same_side_as_pth record ;;
      as_hold <- (if same
                  then hook (pth_should_register_as_hold_when_same_side keycode record)
                  else ret false) ;;
      (if as_hold then _ <- process_register_record_as_hold record ;; ret tt
       else
         add_pos_to_tap_releases cur_pos ;;
         _ <- process_register_record_as_tap record ;; ret tt) ;;
      ret (Some false)
    else ret None
  else
    pos <- pth_key ;;
    if keypos_eq cur_pos pos then
      unregister_pth_hold ;;
      reset_pth_state ;;
      ret (Some false)
    else ret None.

(** The part of the dispatcher between the guards and the [switch]: the
    timing tracker and, for a release, the tap-release set.  [None] is the
    [return false] after [process_unregister_record_as_tap]; otherwise the
    caller's record, possibly marked as a tap, goes on to the [switch]. *)
Definition track_event (keycode : Z) (record : keyrecord_t) (cur_time : Z)
    : M (option keyrecord_t) :=
  let cur_is_pressed := pressed (event record) in
  let cur_pos := key (event record) in
  collect_new_press_to_press_and_overlap_duration cur_is_pressed cur_time ;;
  if cur_is_pressed then
    kc <- gets cur_press_keycode ;;
    assign set_prev_press_keycode kc ;;
    assign set_cur_press_keycode keycode ;;
    ret (Some record)
  else
    removed <- remove_pos_from_tap_releases cur_pos ;;
    if removed then
      status <- gets pth_status ;;
      if status_eqb status PTH_PRESSED || status_eqb status PTH_SECOND_PRESSED
      then ret (Some (set_record_to_tap record))
      else
        _ <- process_unregister_record_as_tap record ;;
        ret None
    else ret (Some record).

(** The guards before the timing tracker that hand the event to QMK. *)
Definition yields_to_qmk (keycode : Z) (record : keyrecord_t) (w : world) : bool :=
  (TAPPING_TERM_PER_KEY && negb (get_tapping_term keycode record w =? 0))
  || (TAP_DANCE_ENABLE && IS_QK_TAP_DANCE keycode)
  || (COMBO_ENABLE && IS_COMBOEVENT (event record)).

Definition process_record_predictive_tap_hold (keycode : Z) (record : keyrecord_t) : M bool :=
  internal <- gets is_processing_record_due_to_pth ;;
  if internal || negb (IS_KEYEVENT (event record)) then ret true
  else
    yields <- hook (fun _ w => yields_to_qmk keycode record w) ;;
    if yields then ret true
    else
      cur_time <- timer_read ;;
      tracked <- track_event keycode record cur_time ;;
      match tracked with
      | None => ret false
      | Some record =>
        let cur_is_pressed := pressed (event record) in
        let cur_pos := key (event record) in
        let is_tap_hold := pth_is_tap_hold_keycode keycode in
        status <- gets pth_status ;;
        returned <- match status with
                    | PTH_IDLE => case_PTH_IDLE keycode record cur_time is_tap_hold
                    | PTH_PRESSED => case_PTH_PRESSED keycode record cur_time is_tap_hold
                    | PTH_SECOND_PRESSED =>
                        case_PTH_SECOND_PRESSED keycode record cur_time is_tap_hold
                    | PTH_DECIDED_TAP =>
                        case_PTH_DECIDED_TAP keycode record cur_time is_tap_hold
                    | PTH_DECIDED_HOLD =>
                        case_PTH_DECIDED_HOLD keycode record cur_time is_tap_hold
                    end ;;
        match returned with
        | Some b => ret b
        | None =>
          held2 <- gets second_was_held_instantly ;;
          pos2 <- second_key ;;
          when (negb cur_is_pressed && negb held2 && keypos_eq cur_pos pos2) send_and_wait ;;
          ret true
        end
      end.

(** *** Housekeeping *)

Definition housekeeping_task_predictive_tap_hold : M unit :=
  cur_time <- timer_read ;;
  reached <- gets release_timer_max_reached ;;
  timer <- gets release_timer ;;
  when (negb reached && (TIMER_DIFF_16 cur_time timer >=? MS_MAX_DUR_FOR_TIMERS))
       (assign set_release_timer_max_reached true) ;;
  reached <- gets overlap_timer_max_reached ;;
  dc <- gets down_count ;;
  timer <- gets overlap_timer ;;
  when (negb reached && (dc >=? 2)
        && (TIMER_DIFF_16 cur_time timer >=? MS_MAX_DUR_FOR_TIMERS))
       (assign set_overlap_timer_max_reached true) ;;
  reached <- gets press_to_press_timer_max_reached ;;
  timer <- gets press_to_press_timer ;;
  when (negb reached && (TIMER_DIFF_16 cur_time timer >=? MS_MAX_DUR_FOR_TIMERS))
       (assign set_press_to_press_timer_max_reached true) ;;
  status <- gets pth_status ;;
  if status_eqb status PTH_IDLE || status_geb status PTH_DECIDED_TAP then ret tt
  else
    reached <- gets second_press_timer_max_reached ;;
    decided <- (if negb reached && status_eqb status PTH_SECOND_PRESSED then
                  min_overlap <- gets min_overlap_dur_for_hold ;;
                  timer <- gets second_press_timer ;;
                  if (min_overlap >? 0) && (TIMER_DIFF_16 cur_time timer >=? min_overlap)
                  then make_decision_hold ;; ret true
                  else
                    when (TIMER_DIFF_16 cur_time timer >=? MS_MAX_DUR_FOR_TIMERS)
                         (assign set_second_press_timer_max_reached true) ;;
                    ret false
                else ret false) ;;
    if decided then ret tt
    else
      reached <- gets pth_press_timer_max_reached ;;
      when (negb reached) (
        timer <- gets pth_press_timer ;;
        if TIMER_DIFF_16 cur_time timer >=? MS_MAX_DUR_FOR_TIMERS
        then assign set_pth_press_timer_max_reached true
        else
          chosen <- gets has_chosen_after_timeout_reached ;;
          timeout <- gets timeout_for_forcing_choice ;;
          when (negb chosen && (timeout >? 0) && (TIMER_DIFF_16 cur_time timer >=? timeout))
               make_user_choice_or_not).

End Engine.

(* ------------------------------------------------------------------------- *)
(** ** Entry points and runs *)

Section Runs.

Context {fw : Firmware} {cfg : BuildConfig} {hk : Hooks}.

(** The firmware calls the module at three places.  Each call finds the
    world as the rest of the firmware left it. *)
Inductive call :=
| Call_post_init (w : world)
| Call_process_record (keycode : Z) (record : keyrecord_t) (w : world)
| Call_housekeeping (w : world).

Definition enter (w : world) (m : machine) : machine :=
  {| st := st m; env := w; out := out m |}.

Definition boot (w : world) : machine :=
  {| st := initial_state KC_NO; env := w; out := [] |}.

(** One call; the dispatcher's answer is kept, the other two give [true]. *)
Definition do_call (c : call) (m : machine) : outcome bool :=
  match c with
  | Call_post_init w =>
      (keyboard_post_init_predictive_tap_hold ;; ret true) (enter w m)
  | Call_process_record keycode record w =>
      process_record_predictive_tap_hold keycode record (enter w m)
  | Call_housekeeping w =>
      (housekeeping_task_predictive_tap_hold ;; ret true) (enter w m)
  end.

Fixpoint run (cs : list call) (m : machine) : outcome bool :=
  match cs with
  | [] => Done true m
  | c :: cs' =>
    match do_call c m with
    | Done b m' => match cs' with [] => Done b m' | _ => run cs' m' end
    | Fault f m' => Fault f m'
    end
  end.

End Runs.

(* ------------------------------------------------------------------------- *)
(** ** A reference firmware

    QMK's values for the constants and macros of the interface, a world of a
    clock and the active modifiers, and a split keyboard of ten columns
    whose left half is columns 0 to 4.  The keymap overrides no weak
    function; the four predictors are constant. *)

Record ref_world := { clock : Z; mods : Z }.

Definition in_range (lo hi x : Z) : bool := (lo <=? x) && (x <=? hi).

Definition ref_firmware : Firmware := {|
  world := ref_world;
  perform := fun a w => match a with
                        | Act_wait_ms d => {| clock := clock w + d; mods := mods w |}
                        | _ => w
                        end;
  KC_NO := 0; KC_A := 4; KC_Z := 0x1d; KC_SPC := 0x2c; KC_DOT := 0x37; KC_COMM := 0x36;
  KC_SCLN := 0x33; KC_SLSH := 0x38;
  QK_MOD_TAP := 0x2000; QK_MOD_TAP_MAX := 0x3fff;
  QK_LAYER_TAP := 0x4000; QK_LAYER_TAP_MAX := 0x4fff;
  QK_SWAP_HANDS := 0x5600; QK_SWAP_HANDS_MAX := 0x56ff;
  MOD_MASK_GUI := 0x88; MOD_MASK_CG := 0x99; MOD_BIT_LALT := 0x04;
  MOD_LCTL := 0x01; MOD_LSFT := 0x02;
  IS_KEYEVENT := fun e => event_type e =? 1;
  IS_COMBOEVENT := fun e => event_type e =? 4;
  IS_QK_TAP_DANCE := in_range 0x5700 0x57ff;
  IS_QK_MOD_TAP := in_range 0x2000 0x3fff;
  IS_QK_LAYER_TAP := in_range 0x4000 0x4fff;
  IS_SWAP_HANDS_KEYCODE := in_range 0x56f0 0x56f6;
  QK_MOD_TAP_GET_MODS := fun kc => Z.land (Z.shiftr kc 8) 0x1f;
  QK_LAYER_TAP_GET_LAYER := fun kc => Z.land (Z.shiftr kc 8) 0xf;
  get_tap_keycode := fun kc => if in_range 0x2000 0x4fff kc then Z.land kc 0xff else kc;
  timer_read32 := clock;
  get_tapping_term := fun _ _ _ => 0;
  layer_switch_get_layer := fun _ _ => 0;
  keycode_at_keymap_location := fun _ _ _ _ => 0;
  dynamic_keymap_get_keycode := fun _ _ _ _ => 0;
  get_mods := mods;
  get_oneshot_mods := fun _ => 0;
  mod_config := fun m _ => m;
  is_caps_word_on := fun _ => false;
  pth_side_layout := fun _ c => if c <? 5 then 0 else 5
|}.

Definition ref_config : BuildConfig := {|
  TAPPING_TERM_PER_KEY := false; TAP_DANCE_ENABLE := false; COMBO_ENABLE := false;
  CAPS_WORD_ENABLE := false; NO_ACTION_ONESHOT := false; VIAL_ENABLE := false;
  PTH_RESET_IMMEDIATELY_WHEN_TAP_CHOSEN := false;
  PTH_FAST_STREAK_TAP_ENABLE := false;
  PTH_FAST_STREAK_TAP_RESET_IMMEDIATELY := false;
  TAP_CODE_DELAY := 0;
  PTH_INSTANT_MOD_TAP_SUPPRESSION_KEY := 0x72
|}.

Definition ref_hooks : @Hooks ref_firmware :=
  @default_hooks ref_firmware ref_config
    (fun _ _ => false) (fun _ _ => false) (fun _ _ => false) (fun _ _ => 80).

(** A keymap that overrides [pth_get_timeout_for_forcing_choice] only. *)
Definition with_timeout {fw : Firmware} (h : Hooks) (t : Z) : Hooks :=
  {| pth_get_side := pth_get_side;
     pth_predict_fast_streak_tap := pth_predict_fast_streak_tap;
     pth_should_hold_instantly := pth_should_hold_instantly;
     pth_second_should_hold_instantly := pth_second_should_hold_instantly;
     pth_should_choose_tap_when_second_is_same_side_press :=
       pth_should_choose_tap_when_second_is_same_side_press;
     pth_should_choose_tap_when_second_is_same_side_release :=
       pth_should_choose_tap_when_second_is_same_side_release;
     pth_get_timeout_for_forcing_choice := fun _ _ => t;
     pth_get_forced_choice_after_timeout := pth_get_forced_choice_after_timeout;
     pth_should_neutralize_mods := pth_should_neutralize_mods;
     pth_get_code_to_be_registered_instead_when_hold_chosen :=
       pth_get_code_to_be_registered_instead_when_hold_chosen;
     pth_should_register_as_hold_when_same_side := pth_should_register_as_hold_when_same_side;
     pth_predict_hold_when_third_press := pth_predict_hold_when_third_press;
     pth_predict_hold_when_pth_release_after_second_press :=
       pth_predict_hold_when_pth_release_after_second_press;
     pth_predict_hold_when_pth_release_after_second_release :=
       pth_predict_hold_when_pth_release_after_second_release;
     pth_predict_min_overlap_for_hold_in_ms := pth_predict_min_overlap_for_hold_in_ms |}.

(** A keymap that decides for a tap on press: no time to wait, tap as the
    forced choice, and every press taken for part of a fast streak. *)
Definition tap_on_press_hooks {fw : Firmware} (h : Hooks) : Hooks :=
  {| pth_get_side := pth_get_side;
     pth_predict_fast_streak_tap := fun _ _ => true;
     pth_should_hold_instantly := pth_should_hold_instantly;
     pth_second_should_hold_instantly := pth_second_should_hold_instantly;
     pth_should_choose_tap_when_second_is_same_side_press :=
       pth_should_choose_tap_when_second_is_same_side_press;
     pth_should_choose_tap_when_second_is_same_side_release :=
       pth_should_choose_tap_when_second_is_same_side_release;
     pth_get_timeout_for_forcing_choice := fun _ _ => 0;
     pth_get_forced_choice_after_timeout := fun _ _ => PTH_DECIDED_TAP;
     pth_should_neutralize_mods := pth_should_neutralize_mods;
     pth_get_code_to_be_registered_instead_when_hold_chosen :=
       pth_get_code_to_be_registered_instead_when_hold_chosen;
     pth_should_register_as_hold_when_same_side := pth_should_register_as_hold_when_same_side;
     pth_predict_hold_when_third_press := pth_predict_hold_when_third_press;
     pth_predict_hold_when_pth_release_after_second_press :=
       pth_predict_hold_when_pth_release_after_second_press;
     pth_predict_hold_when_pth_release_after_second_release :=
       pth_predict_hold_when_pth_release_after_second_release;
     pth_predict_min_overlap_for_hold_in_ms := pth_predict_min_overlap_for_hold_in_ms |}.

(** The build with [PTH_RESET_IMMEDIATELY_WHEN_TAP_CHOSEN] and
    [PTH_FAST_STREAK_TAP_ENABLE] defined. *)
Definition streak_config : BuildConfig := {|
  TAPPING_TERM_PER_KEY := false; TAP_DANCE_ENABLE := false; COMBO_ENABLE := false;
  CAPS_WORD_ENABLE := false; NO_ACTION_ONESHOT := false; VIAL_ENABLE := false;
  PTH_RESET_IMMEDIATELY_WHEN_TAP_CHOSEN := true;
  PTH_FAST_STREAK_TAP_ENABLE := true;
  PTH_FAST_STREAK_TAP_RESET_IMMEDIATELY := false;
  TAP_CODE_DELAY := 0;
  PTH_INSTANT_MOD_TAP_SUPPRESSION_KEY := 0x72
|}.

(** The world at a clock reading, a key event of the matrix, and two
    keycodes: [LCTL_T(KC_A)] and [LT(1, KC_B)]. *)
Definition at_ms (t : Z) : ref_world := {| clock := t; mods := 0 |}.

Definition key_event (c r : Z) (p : bool) (t : Z) : keyrecord_t :=
  {| event := {| key := {| col := c; row := r |}; pressed := p; time := t; event_type := 1 |};
     tap := {| interrupted := false; count := 0 |} |}.

Definition LCTL_T_A : Z := 0x2104.
Definition LT_1_B : Z := 0x4105.
Definition KC_C : Z := 6.

(** What a run answered, the fault it stopped at, and the machine it ends
    in, also when it ends in a fault. *)
Definition answer {fw : Firmware} {A} (o : outcome A) : option A :=
  match o with
  | Done a _ => Some a
  | Fault _ _ => None
  end.

Definition fault_of {fw : Firmware} {A} (o : outcome A) : option fault :=
  match o with
  | Done _ _ => None
  | Fault f _ => Some f
  end.


Definition final {fw : Firmware} {A} (o : outcome A) : machine :=
  match o with
  | Done _ m => m
  | Fault _ m => m
  end.

(** Calls and runs of the reference firmware. *)
Definition ref_boot (t : Z) : @machine ref_firmware := @boot ref_firmware (at_ms t).

Definition ref_event (keycode : Z) (c r : Z) (p : bool) (t : Z) : @call ref_firmware :=
  @Call_process_record ref_firmware keycode (key_event c r p t) (at_ms t).

Definition ref_tick (t : Z) : @call ref_firmware := @Call_housekeeping ref_firmware (at_ms t).

(* ------------------------------------------------------------------------- *)
(** ** Notions the properties are stated with *)

Definition bytes : list Z := map Z.of_nat (seq 0 256).

(** The lowest set bit of a non-zero byte: [__builtin_ctz] finds it, and
    clearing it leaves a byte whose trailing zeros are one more at least. *)
Definition ctz_step_ok (k : nat) (mask : Z) : bool :=
  (mask =? 0) || negb (mask mod 2 ^ Z.of_nat k =? 0) ||
  match builtin_ctz mask with
  | Some i => (0 <=? i) && (i <? 8) && (0 <=? clear_bit mask i) && (clear_bit mask i <? 256)
              && (clear_bit mask i mod 2 ^ Z.of_nat (S k) =? 0) && (k <? 8)%nat
  | None => false
  end.

(** The records' contents apart from their key, the second key's keycode
    and kind, the two caches with their masks and the recursion guard are
    written by the helper functions; [havoc] overwrites them all. *)
Record loose := {
  l_pth_record : keyrecord_t;
  l_second_record : keyrecord_t;
  l_second_keycode : Z;
  l_second_is_tap_hold : bool;
  l_release_records : list keyrecord_t;
  l_release_as_tap_positions : list keypos_t;
  l_used_tap : Z;
  l_used_records : Z;
  l_flag : bool
}.

Definition havoc (x : loose) (s : pth_state) : pth_state :=
  set_pth_record (l_pth_record x)
    (set_second_record (l_second_record x)
      (set_second_keycode (l_second_keycode x)
        (set_second_is_tap_hold (l_second_is_tap_hold x)
          (set_release_records (l_release_records x)
            (set_release_as_tap_positions (l_release_as_tap_positions x)
              (set_used_release_as_tap_positions_bitmask (l_used_tap x)
                (set_used_release_records_bitmask (l_used_records x)
                  (set_is_processing_record_due_to_pth (l_flag x) s)))))))).

Definition loose_of (s : pth_state) : loose :=
  {| l_pth_record := pth_record s;
     l_second_record := second_record s;
     l_second_keycode := second_keycode s;
     l_second_is_tap_hold := second_is_tap_hold s;
     l_release_records := release_records s;
     l_release_as_tap_positions := release_as_tap_positions s;
     l_used_tap := used_release_as_tap_positions_bitmask s;
     l_used_records := used_release_records_bitmask s;
     l_flag := is_processing_record_due_to_pth s |}.

(** The caches are well formed: eight slots each, masks of eight bits, and
    the module is not inside one of its own [process_record] calls. *)
Definition wf (s : pth_state) : Prop :=
  length (release_records s) = 8%nat /\
  length (release_as_tap_positions s) = 8%nat /\
  0 <= used_release_as_tap_positions_bitmask s < 256 /\
  0 <= used_release_records_bitmask s < 256 /\
  is_processing_record_due_to_pth s = false.

(** The same, as a test. *)
Definition wfb (s : pth_state) : bool :=
  (length (release_records s) =? 8)%nat
  && (length (release_as_tap_positions s) =? 8)%nat
  && (0 <=? used_release_as_tap_positions_bitmask s)
  && (used_release_as_tap_positions_bitmask s <? 256)
  && (0 <=? used_release_records_bitmask s)
  && (used_release_records_bitmask s <? 256)
  && negb (is_processing_record_due_to_pth s).

Definition same_keys (s s' : pth_state) : Prop :=
  key (event (pth_record s')) = key (event (pth_record s)) /\
  key (event (second_record s')) = key (event (second_record s)).

Definition tame (s : pth_state) (x : loose) : Prop :=
  same_keys s (havoc x s) /\ wf (havoc x s).

Definition blank (s : pth_state) : pth_state :=
  havoc {| l_pth_record := zero_record; l_second_record := zero_record;
           l_second_keycode := 0; l_second_is_tap_hold := false;
           l_release_records := []; l_release_as_tap_positions := [];
           l_used_tap := 0; l_used_records := 0; l_flag := false |} s.

Section Judgements.

Context {fw : Firmware} {cfg : BuildConfig} {hk : Hooks}.

(** [c] returns from [m], and its answer and the machine it returns in
    satisfy [Q]. *)
Definition wp {A} (c : M A) (Q : A -> machine -> Prop) (m : machine) : Prop :=
  match c m with Done a m' => Q a m' | Fault _ _ => False end.

(** [s'] is [s] up to the loose fields. *)
Definition quietly (s s' : pth_state) : Prop := exists x, s' = havoc x s /\ tame s x.

(** [c] ends, and changes the static variables in the loose fields only. *)
Definition tq {A} (c : M A) : Prop :=
  forall s w o, wf s ->
  wp c (fun _ m' => quietly s (st m')) {| st := s; env := w; out := o |}.

(** The functions that hand a record to [process_record]: they end, the
    record keeps its key, and the static variables change in the loose
    fields only. *)
Definition tq_record (f : keyrecord_t -> M keyrecord_t) : Prop :=
  forall r s w o, wf s ->
  exists r' x w' o',
    f r {| st := s; env := w; out := o |} = Done r' {| st := havoc x s; env := w'; out := o' |}
    /\ key (event r') = key (event r) /\ tame s x.

(** A decision changes the status, if none was made before, and loose
    fields. *)
Definition decide (status : pth_status_t) (s : pth_state) : pth_state :=
  if status_geb (pth_status s) PTH_DECIDED_TAP then s else set_pth_status status s.

End Judgements.


(** *** The side rules in the words of the specification *)

Inductive atom := Atom_left | Atom_right | Atom_opposite | Atom_same.

Definition atom_code (a : atom) : Z :=
  match a with
  | Atom_left => PTH_ATOM_LEFT
  | Atom_right => PTH_ATOM_RIGHT
  | Atom_opposite => PTH_ATOM_OPPOSITE
  | Atom_same => PTH_ATOM_SAME
  end.

Definition atom_eqb (a b : atom) : bool := atom_code a =? atom_code b.

(** Different when the other key says Opposite, same when it says Same;
    otherwise different when the PTH says Opposite, same when it says Same;
    otherwise same exactly when the two absolute sides are equal. *)
Definition same_side_by_the_rules (pth other : atom) : bool :=
  match other with
  | Atom_opposite => false
  | Atom_same => true
  | _ =>
    match pth with
    | Atom_opposite => false
    | Atom_same => true
    | _ => atom_eqb pth other
    end
  end.

(** *** Runs of the reference firmware *)

(** QMK's [MOD_MASK_SHIFT]: the two Shift bits of a modifier state. *)
Definition MOD_MASK_SHIFT : Z := 0x22.
(** QMK's [MOD_BIT(KC_RALT)]. *)
Definition MOD_BIT_RALT : Z := 0x40.

(** Nine plain keys go down, then a mod-tap key, then the first eight plain
    keys are released: eight releases wait in the cache. *)
Definition plain_press (i : Z) : @call ref_firmware :=
  ref_event KC_C (5 + i) 2 true (10 * i).
Definition plain_release (i : Z) : @call ref_firmware :=
  ref_event KC_C (5 + i) 2 false (200 + 10 * i).

Definition fill_the_cache : list (@call ref_firmware) :=
  map plain_press [0; 1; 2; 3; 4; 5; 6; 7; 8]
  ++ [ref_event LCTL_T_A 1 1 true 100]
  ++ map plain_release [0; 1; 2; 3; 4; 5; 6; 7].

Definition ref_run (cs : list (@call ref_firmware)) : @outcome ref_firmware bool :=
  @run ref_firmware ref_config ref_hooks cs (ref_boot 0).

(** A machine whose release cache is full. *)
Definition full_cache : @machine ref_firmware :=
  @Build_machine ref_firmware
    (set_used_release_records_bitmask 255 (initial_state (@KC_NO ref_firmware)))
    (at_ms 0) [].

(** One press of a mod-tap key in the build with
    [PTH_RESET_IMMEDIATELY_WHEN_TAP_CHOSEN] and [PTH_FAST_STREAK_TAP_ENABLE],
    under a keymap that decides for a tap on press. *)
Definition tap_on_press_run : @outcome ref_firmware bool :=
  @run ref_firmware streak_config (tap_on_press_hooks ref_hooks)
       [ref_event LCTL_T_A 1 1 true 100] (ref_boot 0).

(** A machine that is inside one of the module's own [process_record]
    calls, and one that has decided for a tap. *)
Definition reentered : @machine ref_firmware :=
  @Build_machine ref_firmware
    (set_is_processing_record_due_to_pth true (initial_state (@KC_NO ref_firmware)))
    (at_ms 0) [].

Definition tap_decided : @machine ref_firmware :=
  @Build_machine ref_firmware
    (set_pth_status PTH_DECIDED_TAP (initial_state (@KC_NO ref_firmware)))
    (at_ms 0) [].

(** One press of [LCTL_T(KC_A)] under a keymap whose timeout is negative. *)
Definition negative_timeout_run : @outcome ref_firmware bool :=
  @run ref_firmware ref_config (with_timeout ref_hooks (-1))
       [ref_event LCTL_T_A 1 1 true 100] (ref_boot 0).

(** A layer-tap key is held on the left half, its layer active at once;
    then a key that has no keycode there goes down on the right half. *)
Definition layer_tap_pressed : @machine ref_firmware :=
  final (ref_run [ref_event LT_1_B 1 1 true 100]).

Definition no_key_on_layer_run : @outcome ref_firmware bool :=
  ref_run [ref_event LT_1_B 1 1 true 100; ref_event (@KC_NO ref_firmware) 7 1 true 150].

(** [LCTL_T(KC_A)] is held on the left half. *)
Definition mod_tap_pressed : @machine ref_firmware :=
  final (ref_run [ref_event LCTL_T_A 1 1 true 100]).

(** [LCTL_T(KC_A)] goes down, and a plain key 5.1 seconds later, with no
    housekeeping call in between; a plain key is tapped and [LCTL_T(KC_A)]
    goes down 40 seconds later, again with no housekeeping call; and the
    first press after boot, right after a housekeeping call. *)
Definition sparse_run : @outcome ref_firmware bool :=
  ref_run [ref_event LCTL_T_A 1 1 true 100; ref_event KC_C 7 1 true 5200].

Definition far_run : @outcome ref_firmware bool :=
  ref_run [ref_event KC_C 7 1 true 100; ref_event KC_C 7 1 false 200;
           ref_event LCTL_T_A 1 1 true 40200].

Definition first_press_run : @outcome ref_firmware bool :=
  ref_run [ref_tick 100; ref_event LCTL_T_A 1 1 true 100].

(** The keys of [sparse_run] and their releases, each event right after a
    housekeeping call, and one more housekeeping call while the keys are
    down. *)
Definition paced_typing : list (@call ref_firmware) :=
  [ ref_tick 100; ref_event LCTL_T_A 1 1 true 100;
    ref_tick 4300;
    ref_tick 5200; ref_event KC_C 7 1 true 5200;
    ref_tick 5300; ref_event KC_C 7 1 false 5301;
    ref_tick 5400; ref_event LCTL_T_A 1 1 false 5400 ].

(** The build with [PTH_FAST_STREAK_TAP_ENABLE] and
    [PTH_FAST_STREAK_TAP_RESET_IMMEDIATELY] defined. *)
Definition streak_reset_config : BuildConfig := {|
  TAPPING_TERM_PER_KEY := false; TAP_DANCE_ENABLE := false; COMBO_ENABLE := false;
  CAPS_WORD_ENABLE := false; NO_ACTION_ONESHOT := false; VIAL_ENABLE := false;
  PTH_RESET_IMMEDIATELY_WHEN_TAP_CHOSEN := false;
  PTH_FAST_STREAK_TAP_ENABLE := true;
  PTH_FAST_STREAK_TAP_RESET_IMMEDIATELY := true;
  TAP_CODE_DELAY := 0;
  PTH_INSTANT_MOD_TAP_SUPPRESSION_KEY := 0x72
|}.

Definition streak_run (cs : list (@call ref_firmware)) : @outcome ref_firmware bool :=
  @run ref_firmware streak_reset_config ref_hooks cs (ref_boot 0).

(** A plain key goes down and then, 10 ms apart, eight mod-tap keys: each
    is a fast streak tap, and all nine keys stay down. *)
Definition streak_press (i : Z) : @call ref_firmware :=
  ref_event LCTL_T_A i 2 true (20 + 10 * i).

Definition eight_held : list (@call ref_firmware) :=
  ref_event KC_C 9 1 true 10 :: map streak_press [0; 1; 2; 3; 4; 5; 6; 7].

(** A ninth mod-tap key is pressed and released. *)
Definition ninth_tap : list (@call ref_firmware) :=
  [ref_event LCTL_T_A 8 2 true 100; ref_event LCTL_T_A 8 2 false 150].

(** *** The tap-release set and the release cache, read as data *)

Definition slots : list Z := [0; 1; 2; 3; 4; 5; 6; 7].

(** Slot [i] is in use, by the mask [used], and holds [pos]. *)
Definition holds (used : Z) (l : list keypos_t) (pos : keypos_t) (i : Z) : bool :=
  Z.testbit used i && keypos_eq (nth (Z.to_nat i) l EMPTY_KEYPOS) pos.

(** The lowest slot that holds [pos], and the lowest slot not in use. *)
Definition slot_of (used : Z) (l : list keypos_t) (pos : keypos_t) : option Z :=
  find (holds used l pos) slots.

Definition free_slot (used : Z) : option Z :=
  find (fun i => negb (Z.testbit used i)) slots.

Definition tap_release_slot (s : pth_state) (pos : keypos_t) : option Z :=
  slot_of (used_release_as_tap_positions_bitmask s) (release_as_tap_positions s) pos.

(** The tap-release set after [pos] has been added to it. *)
Definition with_tap_release (pos : keypos_t) (s : pth_state) : pth_state :=
  match free_slot (used_release_as_tap_positions_bitmask s) with
  | Some i =>
    set_used_release_as_tap_positions_bitmask
      (set_bit (used_release_as_tap_positions_bitmask s) i)
      (set_release_as_tap_positions
         (list_set (Z.to_nat i) pos (release_as_tap_positions s)) s)
  | None => s
  end.

(** The tap-release set after the lowest slot holding [pos] has been freed. *)
Definition without_tap_release (pos : keypos_t) (s : pth_state) : pth_state :=
  match tap_release_slot s pos with
  | Some i =>
    set_used_release_as_tap_positions_bitmask
      (clear_bit (used_release_as_tap_positions_bitmask s) i) s
  | None => s
  end.

(** What [__builtin_ctz] and [clear_bit] do to the bits of a byte. *)
Definition ctz_bits_ok (k : nat) (mask : Z) : bool :=
  (mask =? 0) || negb (mask mod 2 ^ Z.of_nat k =? 0) ||
  match builtin_ctz mask with
  | Some i =>
    (0 <=? i) && (i <? 8) && (k <? 8)%nat
    && (0 <=? clear_bit mask i) && (clear_bit mask i <? 256)
    && (clear_bit mask i mod 2 ^ Z.of_nat (S k) =? 0)
    && Z.testbit mask i
    && negb (Z.testbit (clear_bit mask i) i)
    && forallb (fun j => (i <=? j) || negb (Z.testbit mask j)) slots
    && forallb (fun j => (j =? i) || Bool.eqb (Z.testbit (clear_bit mask i) j)
                                              (Z.testbit mask j)) slots
  | None => false
  end.

(** The lowest clear bit of a byte, as [add_pos_to_tap_releases] and
    [add_release_record] look for it. *)
Definition free_bit_ok (used : Z) : bool :=
  match free_slot used with
  | Some i =>
    negb (u8 (Z.lnot used) =? 0)
    && match builtin_ctz (u8 (Z.lnot used)) with
       | Some j => (j =? i)
       | None => false
       end
    && Z.testbit (set_bit used i) i
    && (clear_bit (set_bit used i) i =? used)
    && forallb (fun j => (j =? i) || Bool.eqb (Z.testbit (set_bit used i) j)
                                              (Z.testbit used j)) slots
  | None => (u8 (Z.lnot used) =? 0) && (used =? 255)
  end.

(** *** Durations and the timers they are measured with *)

(** A duration of the module: between 0 and [MS_MAX_DUR_FOR_TIMERS].  The
    press-to-press and overlap durations start at -1, which stands for
    "none measured". *)
Definition is_dur (d : Z) : Prop := 0 <= d <= MS_MAX_DUR_FOR_TIMERS.
Definition is_dur_or_none (d : Z) : Prop := -1 <= d <= MS_MAX_DUR_FOR_TIMERS.

(** The durations the predictors read, the four the tracker keeps for the
    next PTH press, and the count of keys that are down. *)
Definition durations_in_range (s : pth_state) : Prop :=
  is_dur (pth_press_to_second_press_dur s) /\
  is_dur (pth_press_to_second_release_dur s) /\
  is_dur (pth_second_dur s) /\
  is_dur (pth_second_press_to_third_press_dur s) /\
  is_dur (key_release_before_pth_to_pth_press_dur s) /\
  is_dur_or_none (pth_prev_prev_press_to_prev_press_dur s) /\
  is_dur_or_none (pth_prev_press_to_pth_press_dur s) /\
  is_dur_or_none (pth_prev_prev_overlap_dur s) /\
  is_dur_or_none (pth_prev_overlap_dur s) /\
  is_dur_or_none (prev_press_to_press_dur s) /\
  is_dur_or_none (cur_press_to_press_dur s) /\
  is_dur_or_none (prev_overlap_dur s) /\
  is_dur_or_none (cur_overlap_dur s) /\
  0 <= down_count s < 256.

(** The same, as a test. *)
Definition in_dur_range (lo d : Z) : bool := (lo <=? d) && (d <=? MS_MAX_DUR_FOR_TIMERS).

Definition durations_in_rangeb (s : pth_state) : bool :=
  in_dur_range 0 (pth_press_to_second_press_dur s)
  && in_dur_range 0 (pth_press_to_second_release_dur s)
  && in_dur_range 0 (pth_second_dur s)
  && in_dur_range 0 (pth_second_press_to_third_press_dur s)
  && in_dur_range 0 (key_release_before_pth_to_pth_press_dur s)
  && in_dur_range (-1) (pth_prev_prev_press_to_prev_press_dur s)
  && in_dur_range (-1) (pth_prev_press_to_pth_press_dur s)
  && in_dur_range (-1) (pth_prev_prev_overlap_dur s)
  && in_dur_range (-1) (pth_prev_overlap_dur s)
  && in_dur_range (-1) (prev_press_to_press_dur s)
  && in_dur_range (-1) (cur_press_to_press_dur s)
  && in_dur_range (-1) (prev_overlap_dur s)
  && in_dur_range (-1) (cur_overlap_dur s)
  && (0 <=? down_count s) && (down_count s <? 256).

(** A timer is fresh at the reading [now]: its flag is set, or it is at
    most [bound] ms behind. *)
Definition fresh (bound now : Z) (max_reached : bool) (timer : Z) : Prop :=
  max_reached = false -> TIMER_DIFF_16 now timer <= bound.

(** Every timer that is in use is fresh: the overlap timer when two keys
    are down, the timers of the PTH and of the second key while no decision
    has been made. *)
Definition timers_fresh (bound now : Z) (s : pth_state) : Prop :=
  fresh bound now (release_timer_max_reached s) (release_timer s) /\
  (2 <= down_count s ->
   fresh bound now (overlap_timer_max_reached s) (overlap_timer s)) /\
  fresh bound now (press_to_press_timer_max_reached s) (press_to_press_timer s) /\
  (pth_status s = PTH_SECOND_PRESSED ->
   fresh bound now (second_press_timer_max_reached s) (second_press_timer s)) /\
  (pth_status s = PTH_PRESSED \/ pth_status s = PTH_SECOND_PRESSED ->
   fresh bound now (pth_press_timer_max_reached s) (pth_press_timer s)).

Section Pacing.

Context {fw : Firmware} {cfg : BuildConfig} {hk : Hooks}.

(** The property holds of the machine a computation ends in, whether it
    returns or stops at a fault. *)
Definition always {A} (c : M A) (Q : machine -> Prop) (m : machine) : Prop :=
  match c m with
  | Done _ m' => Q m'
  | Fault _ m' => Q m'
  end.

Definition now (w : world) : Z := u16 (timer_read32 w).

(** Every key event comes right after a housekeeping call, at most one
    millisecond later. *)
Fixpoint paced (cs : list call) : bool :=
  match cs with
  | [] => true
  | Call_process_record _ _ _ :: _ => false
  | Call_housekeeping w :: Call_process_record _ _ w' :: cs' =>
    (TIMER_DIFF_16 (now w') (now w) <=? 1) && paced cs'
  | _ :: cs' => paced cs'
  end.

(** What [paced] asks of the calls that follow a housekeeping call in the
    world [w]. *)
Definition paced_after (w : world) (cs : list call) : bool :=
  match cs with
  | Call_process_record _ _ w' :: cs' => (TIMER_DIFF_16 (now w') (now w) <=? 1) && paced cs'
  | _ => paced cs
  end.

End Pacing.

(** The fourteen values [durations_in_range] speaks of. *)
Definition durs (s : pth_state) : list Z :=
  [ pth_press_to_second_press_dur s; pth_press_to_second_release_dur s; pth_second_dur s;
    pth_second_press_to_third_press_dur s; key_release_before_pth_to_pth_press_dur s;
    pth_prev_prev_press_to_prev_press_dur s; pth_prev_press_to_pth_press_dur s;
    pth_prev_prev_overlap_dur s; pth_prev_overlap_dur s;
    prev_press_to_press_dur s; cur_press_to_press_dur s;
    prev_overlap_dur s; cur_overlap_dur s; down_count s ].

(** [s'] is well formed and has the durations of [s]. *)
Definition keeps (s s' : pth_state) : Prop := wf s' /\ durs s' = durs s.

Section DurationQuiet.

Context {fw : Firmware} {cfg : BuildConfig} {hk : Hooks}.

(** [c] writes no duration and keeps the caches well formed, whether it
    returns or stops at a fault. *)
Definition dq {A} (c : M A) : Prop :=
  forall s w o, wf s ->
  always c (fun m' => keeps s (st m')) {| st := s; env := w; out := o |}.

End DurationQuiet.

(** *** A lone tap *)

(** The taps of the key at [k] in what was sent: [true] for a record that
    goes to [process_record] pressed and marked as a tap, [false] for one
    that goes there released and marked as a tap. *)
Definition tap_of (k : keypos_t) (a : action) : option bool :=
  match a with
  | Act_process_record r =>
    if (count (tap r) =? 1) && interrupted (tap r) && keypos_eq (key (event r)) k
    then Some (pressed (event r))
    else None
  | _ => None
  end.

Fixpoint taps_of (k : keypos_t) (l : list action) : list bool :=
  match l with
  | [] => []
  | a :: l' =>
    match tap_of k a with
    | Some p => p :: taps_of k l'
    | None => taps_of k l'
    end
  end.

(** How far a lone tap has got after the press: the PTH waits for its
    release, or a fast streak has made it a tap, with or without a reset. *)
Inductive lone_mode := Waiting | Tapped | Tapped_and_reset.

Definition taps_so_far (mode : lone_mode) : list bool :=
  match mode with
  | Waiting => []
  | _ => [true]
  end.

Section LoneTap.

Context {fw : Firmware} {cfg : BuildConfig} {hk : Hooks}.

(** The timeout is not 0, and no housekeeping call of [ticks] finds it
    reached, counted from the reading [t0]. *)
Definition not_forced (timeout t0 : Z) (ticks : list world) : Prop :=
  timeout <> 0
  /\ (0 < timeout -> Forall (fun w => TIMER_DIFF_16 (now w) t0 < timeout) ticks).

(** The module is idle, with no release waiting in the cache; the key at
    [k] is not in the tap-release set, and the set has a free slot. *)
Definition lone_ready (k : keypos_t) (s : pth_state) : Prop :=
  wf s
  /\ pth_status s = PTH_IDLE
  /\ has_second s = false
  /\ used_release_records_bitmask s = 0
  /\ tap_release_slot s k = None
  /\ free_slot (used_release_as_tap_positions_bitmask s) <> None.

(** The static variables between the press and the release. *)
Definition lone_inv (k : keypos_t) (t0 : Z) (ticks : list world) (mode : lone_mode)
    (s : pth_state) : Prop :=
  wf s /\
  match mode with
  | Waiting =>
    pth_status s = PTH_PRESSED
    /\ key (event (pth_record s)) = k
    /\ has_second s = false
    /\ used_release_records_bitmask s = 0
    /\ tap_release_slot s k = None
    /\ pth_press_timer s = t0
    /\ not_forced (timeout_for_forcing_choice s) t0 ticks
  | Tapped =>
    pth_status s = PTH_DECIDED_TAP
    /\ key (event (pth_record s)) = k
    /\ tap_release_slot s k = None
  | Tapped_and_reset =>
    pth_status s = PTH_IDLE
    /\ tap_release_slot s k <> None
  end.

(** The press of a key, housekeeping calls, and the key's release. *)
Definition lone_tap_calls (keycode : Z) (press release : keyrecord_t)
    (w1 : world) (ticks : list world) (w2 : world) : list call :=
  Call_process_record keycode press w1
  :: map Call_housekeeping ticks ++ [Call_process_record keycode release w2].

End LoneTap.

(** What the timing tracker leaves alone: every static variable but the
    press-to-press and overlap durations, the three timers they are
    measured with, and the count of keys that are down. *)
Definition untracked (s : pth_state) :=
  (pth_status s, pth_prev_status s, pth_keycode s, pth_tap_code_instead_of_hold s,
   pth_record s, pth_press_timer s, pth_press_timer_max_reached s, pth_atomic_side s,
   pth_side_user_bits s, pth_was_held_instantly s, second_was_held_instantly s,
   instant_layer_was_active s, layer_before_instant_layer_tap s, has_second s,
   second_record s, second_keycode s, second_press_timer s,
   second_press_timer_max_reached s, second_is_tap_hold s, second_is_same_side_as_pth s,
   second_to_be_released s, timeout_for_forcing_choice s,
   has_chosen_after_timeout_reached s, min_overlap_dur_for_hold s,
   pth_press_to_second_press_dur s, pth_press_to_second_release_dur s, pth_second_dur s,
   pth_second_press_to_third_press_dur s, key_release_before_pth_to_pth_press_dur s,
   prev_press_keycode s, cur_press_keycode s, release_as_tap_positions s,
   used_release_as_tap_positions_bitmask s, release_records s,
   is_before_second_bitmask s, used_release_records_bitmask s,
   is_processing_record_due_to_pth s).

Section Silent.

Context {fw : Firmware} {cfg : BuildConfig} {hk : Hooks}.

(** [c] returns, sends nothing, and changes no static variable that
    [view] shows. *)
Definition sq {V} (view : pth_state -> V) {A} (c : M A) : Prop :=
  forall s w o, wf s ->
  exists a s',
    c {| st := s; env := w; out := o |} = Done a {| st := s'; env := w; out := o |}
    /\ wf s' /\ view s' = view s.

End Silent.

(* ------------------------------------------------------------------------- *)
(** ** Bytes, lists and the loose fields *)

Lemma in_bytes x : 0 <= x < 256 -> In x bytes.
Proof.
  intros H. unfold bytes. apply in_map_iff. exists (Z.to_nat x). split; [lia|].
  apply in_seq. lia.
Qed.

Lemma byte_forall (P : Z -> bool) :
  forallb P bytes = true -> forall x, 0 <= x < 256 -> P x = true.
Proof. intros H x Hx. rewrite forallb_forall in H. apply H, in_bytes, Hx. Qed.

Lemma u8_range z : 0 <= u8 z < 256.
Proof. unfold u8. apply Z.mod_pos_bound. lia. Qed.

Lemma u8_small z : 0 <= z < 256 -> u8 z = z.
Proof. intros H. unfold u8. apply Z.mod_small, H. Qed.

Lemma ctz_step (k : nat) mask :
  0 < mask < 256 -> mask mod 2 ^ Z.of_nat k = 0 ->
  exists i, builtin_ctz mask = Some i /\ 0 <= i < 8 /\ 0 <= clear_bit mask i < 256 /\
            clear_bit mask i mod 2 ^ Z.of_nat (S k) = 0 /\ (k < 8)%nat.
Proof.
  intros Hm Hmod.
  assert (Hk : (k < 8)%nat).
  { destruct (Nat.lt_ge_cases k 8) as [|Hge]; [assumption|exfalso].
    assert (256 <= 2 ^ Z.of_nat k).
    { change 256 with (2 ^ 8). apply Z.pow_le_mono_r; lia. }
    rewrite Z.mod_small in Hmod; lia. }
  assert (Hall : forallb (fun k => forallb (ctz_step_ok k) bytes) (seq 0 8) = true)
    by (vm_compute; reflexivity).
  rewrite forallb_forall in Hall.
  specialize (Hall k ltac:(apply in_seq; lia)).
  pose proof (byte_forall _ Hall mask ltac:(lia)) as Hc.
  unfold ctz_step_ok in Hc.
  replace (mask =? 0) with false in Hc by (symmetry; apply Z.eqb_neq; lia).
  rewrite Hmod in Hc. cbn [Z.eqb negb orb] in Hc.
  destruct (builtin_ctz mask) as [i|]; [|discriminate].
  rewrite !andb_true_iff in Hc.
  destruct Hc as [[[[[Hi0 Hi8] Hc0] Hclt] Hcmod] _].
  apply Z.leb_le in Hi0, Hc0. apply Z.ltb_lt in Hi8, Hclt. apply Z.eqb_eq in Hcmod.
  exists i. repeat split; try assumption; lia.
Qed.

Lemma length_list_set {A} n (x : A) l : length (list_set n x l) = length l.
Proof. revert n; induction l; intros [|n]; cbn; auto. Qed.

Lemma in_bounds_8 {A} i (l : list A) : 0 <= i < 8 -> length l = 8%nat -> in_bounds i l = true.
Proof.
  intros Hi Hl. unfold in_bounds. rewrite Hl.
  apply andb_true_iff. split; [apply Z.leb_le|apply Z.ltb_lt]; lia.
Qed.

Lemma wfb_wf s : wfb s = true -> wf s.
Proof.
  unfold wfb, wf. rewrite !andb_true_iff, !Nat.eqb_eq, !Z.leb_le, !Z.ltb_lt.
  intros [[[[[[H1 H2] H3] H4] H5] H6] H7]. repeat split; try assumption.
  destruct (is_processing_record_due_to_pth s); [discriminate|reflexivity].
Qed.

Lemma MIN_min x y : MIN x y = Z.min x y.
Proof. unfold MIN. destruct (Z.ltb_spec x y); lia. Qed.

Lemma MAX_max x y : MAX x y = Z.max x y.
Proof. unfold MAX. rewrite Z.gtb_ltb. destruct (Z.ltb_spec y x); lia. Qed.

Lemma land_byte a z : 0 <= a < 256 -> 0 <= Z.land a z < 256.
Proof.
  intros H.
  replace a with (Z.land a (Z.ones 8))
    by (rewrite Z.land_ones by lia; apply Z.mod_small; exact H).
  rewrite <- Z.land_assoc, (Z.land_comm (Z.ones 8)), Z.land_assoc, Z.land_ones by lia.
  apply Z.mod_pos_bound. lia.
Qed.

Lemma havoc_havoc x y s : havoc y (havoc x s) = havoc y s.
Proof. reflexivity. Qed.

Lemma havoc_self s : havoc (loose_of s) s = s.
Proof. destruct s; reflexivity. Qed.

Lemma havoc_intro s s' : blank s' = blank s -> s' = havoc (loose_of s') s.
Proof.
  intros Hb. destruct s', s. cbn in Hb. injection Hb. intros. subst. reflexivity.
Qed.

Lemma tame_intro s s' :
  blank s' = blank s -> same_keys s s' -> wf s' ->
  exists x, s' = havoc x s /\ tame s x.
Proof.
  intros Hb Hk Hw. exists (loose_of s'). pose proof (havoc_intro _ _ Hb) as E.
  split; [exact E|]. unfold tame. rewrite <- E. split; assumption.
Qed.

Lemma tame_trans s x y : tame s x -> tame (havoc x s) y -> tame s y.
Proof.
  unfold tame, same_keys. intros [[Hx1 Hx2] _] [[Hy1 Hy2] Hw].
  rewrite havoc_havoc in *. split; [split|exact Hw].
  - cbn in *. congruence.
  - cbn in *. congruence.
Qed.

(** Reading a field out of a state written as updates of another state. *)
Declare Reduction fields :=
  cbn [
    pth_status pth_prev_status pth_keycode pth_tap_code_instead_of_hold pth_record
    pth_press_timer pth_press_timer_max_reached pth_atomic_side pth_side_user_bits
    pth_was_held_instantly second_was_held_instantly instant_layer_was_active
    layer_before_instant_layer_tap has_second second_record second_keycode
    second_press_timer second_press_timer_max_reached second_is_tap_hold
    second_is_same_side_as_pth second_to_be_released timeout_for_forcing_choice
    has_chosen_after_timeout_reached min_overlap_dur_for_hold
    pth_press_to_second_press_dur pth_press_to_second_release_dur pth_second_dur
    pth_second_press_to_third_press_dur pth_prev_prev_press_to_prev_press_dur
    pth_prev_press_to_pth_press_dur pth_prev_prev_overlap_dur pth_prev_overlap_dur
    key_release_before_pth_to_pth_press_dur prev_press_keycode cur_press_keycode
    down_count overlap_timer overlap_timer_max_reached press_to_press_timer
    press_to_press_timer_max_reached release_timer release_timer_max_reached
    prev_press_to_press_dur cur_press_to_press_dur prev_overlap_dur cur_overlap_dur
    release_as_tap_positions used_release_as_tap_positions_bitmask release_records
    is_before_second_bitmask used_release_records_bitmask
    is_processing_record_due_to_pth set_pth_status set_pth_prev_status set_pth_keycode
    set_pth_tap_code_instead_of_hold set_pth_record set_pth_press_timer
    set_pth_press_timer_max_reached set_pth_atomic_side set_pth_side_user_bits
    set_pth_was_held_instantly set_second_was_held_instantly
    set_instant_layer_was_active set_layer_before_instant_layer_tap set_has_second
    set_second_record set_second_keycode set_second_press_timer
    set_second_press_timer_max_reached set_second_is_tap_hold
    set_second_is_same_side_as_pth set_second_to_be_released
    set_timeout_for_forcing_choice set_has_chosen_after_timeout_reached
    set_min_overlap_dur_for_hold set_pth_press_to_second_press_dur
    set_pth_press_to_second_release_dur set_pth_second_dur
    set_pth_second_press_to_third_press_dur set_pth_prev_prev_press_to_prev_press_dur
    set_pth_prev_press_to_pth_press_dur set_pth_prev_prev_overlap_dur
    set_pth_prev_overlap_dur set_key_release_before_pth_to_pth_press_dur
    set_prev_press_keycode set_cur_press_keycode set_down_count set_overlap_timer
    set_overlap_timer_max_reached set_press_to_press_timer
    set_press_to_press_timer_max_reached set_release_timer
    set_release_timer_max_reached set_prev_press_to_press_dur
    set_cur_press_to_press_dur set_prev_overlap_dur set_cur_overlap_dur
    set_release_as_tap_positions set_used_release_as_tap_positions_bitmask
    set_release_records set_is_before_second_bitmask set_used_release_records_bitmask
    set_is_processing_record_due_to_pth havoc l_pth_record l_second_record
    l_second_keycode l_second_is_tap_hold l_release_records l_release_as_tap_positions
    l_used_tap l_used_records l_flag event tap key pressed time event_type interrupted
    count col row with_key with_pressed with_time set_record_to_tap set_record_to_hold
    fst snd negb andb orb is_BEFORE_SECOND st env out
  ].

Ltac fields_goal := match goal with |- ?G => let G' := eval fields in G in change G' end.
Ltac fields_in H :=
  let T := type of H in let T' := eval fields in T in change T' in H.


(* ------------------------------------------------------------------------- *)
(** ** A calculus for the helper functions *)

Section Calculus.

Context {fw : Firmware} {cfg : BuildConfig} {hk : Hooks}.

Lemma wp_done {A} (c : M A) Q m :
  wp c Q m -> exists a m', c m = Done a m' /\ Q a m'.
Proof. unfold wp. destruct (c m) as [a m'|]; [eauto|tauto]. Qed.

Lemma tq_run {A} (c : M A) s w o :
  tq c -> wf s ->
  exists a x w' o',
    c {| st := s; env := w; out := o |} = Done a {| st := havoc x s; env := w'; out := o' |}
    /\ tame s x.
Proof.
  intros Hc Hw. destruct (wp_done _ _ _ (Hc s w o Hw)) as (a & [s' w' o'] & E & x & Es & Hx).
  cbn [st] in Es. subst s'. exists a, x, w', o'. split; assumption.
Qed.

Lemma quietly_refl s : wf s -> quietly s s.
Proof.
  intros Hw. exists (loose_of s). unfold tame. rewrite havoc_self.
  split; [reflexivity|]. split; [split; reflexivity|exact Hw].
Qed.

Lemma tq_ret {A} (a : A) : tq (ret a).
Proof. intros s w o Hw. apply quietly_refl, Hw. Qed.

Lemma tq_gets {A} (f : pth_state -> A) : tq (gets f).
Proof. intros s w o Hw. apply quietly_refl, Hw. Qed.

Lemma tq_hook {A} (f : pth_state -> world -> A) : tq (hook f).
Proof. intros s w o Hw. apply quietly_refl, Hw. Qed.

Lemma tq_emit a : tq (emit a).
Proof. intros s w o Hw. apply quietly_refl, Hw. Qed.

Lemma tq_bind {A B} (c : M A) (k : A -> M B) :
  tq c -> (forall a, tq (k a)) -> tq (bind c k).
Proof.
  intros Hc Hk s w o Hw.
  destruct (tq_run c s w o Hc Hw) as (a & x & w1 & o1 & E1 & Hx).
  destruct (tq_run (k a) (havoc x s) w1 o1 (Hk a) (proj2 Hx)) as (b & y & w2 & o2 & E2 & Hy).
  unfold wp, bind. rewrite E1, E2. cbn [st].
  exists y. split; [reflexivity|]. exact (tame_trans _ _ _ Hx Hy).
Qed.

Lemma tq_bind_ret {A B} (a : A) (k : A -> M B) : tq (k a) -> tq (bind (ret a) k).
Proof. intros H s w o Hw. exact (H s w o Hw). Qed.

Lemma tq_if {A} (b : bool) (c1 c2 : M A) : tq c1 -> tq c2 -> tq (if b then c1 else c2).
Proof. destruct b; auto. Qed.

Lemma tq_when b c : tq c -> tq (when b c).
Proof. intros H. unfold when. apply tq_if; [exact H|apply tq_ret]. Qed.

Lemma tq_modify g :
  (forall s, wf s -> blank (g s) = blank s /\ same_keys s (g s) /\ wf (g s)) ->
  tq (modify g).
Proof.
  intros H s w o Hw. destruct (H s Hw) as (Hb & Hk & Hw').
  exact (tame_intro _ _ Hb Hk Hw').
Qed.

Lemma bind_gets {A B} (f : pth_state -> A) (k : A -> M B) s w o :
  bind (gets f) k {| st := s; env := w; out := o |}
  = k (f s) {| st := s; env := w; out := o |}.
Proof. reflexivity. Qed.

Lemma bind_assign {A B} (set : A -> pth_state -> pth_state) v (k : unit -> M B) s w o :
  bind (assign set v) k {| st := s; env := w; out := o |}
  = k tt {| st := set v s; env := w; out := o |}.
Proof. reflexivity. Qed.

Lemma tame_status v s x : tame (set_pth_status v s) x -> tame s x.
Proof. intros H. exact H. Qed.

End Calculus.

(** *** Symbolic execution

    [mon] unfolds the monad at the head of the goal and substitutes; it
    evaluates nothing.  The term in the way, the [blocker], is then dealt
    with on its own: a helper call by its specification, a projection out of
    a state by evaluating it in place, a condition by cases. *)
Ltac blocker t :=
  lazymatch t with
  | match ?x with _ => _ end => blocker x
  | (match ?x with _ => _ end) _ => blocker x
  | (match ?x with _ => _ end) _ _ => blocker x
  | negb ?x => blocker x
  | ?x && _ => blocker x
  | ?x || _ => blocker x
  | _ => t
  end.

Ltac mon :=
  cbv beta iota zeta delta [bind ret gets hook modify assign emit when raise wp];
  cbn [st env out negb andb orb].

Ltac rewrite_known b :=
  match goal with
  | H : b = _ |- _ => rewrite H
  end.

Ltac in_bounds_known b :=
  lazymatch b with
  | in_bounds ?i ?l =>
    rewrite (in_bounds_8 i l) by (rewrite ?length_list_set; first [assumption | lia])
  end.

Ltac eval_fields b := eval fields in b.

(** Comparisons of two status constants are computed. *)
Ltac eval_ground b :=
  lazymatch b with
  | status_geb ?a ?c =>
    let _ := match goal with _ => is_constructor a; is_constructor c end in
    eval cbv in b
  | status_eqb ?a ?c =>
    let _ := match goal with _ => is_constructor a; is_constructor c end in
    eval cbv in b
  end.

Ltac eval_blocker b :=
  let b' := eval_fields b in
  let b'' := match goal with
             | _ => eval_ground b'
             | _ => b'
             end in
  tryif constr_eq b b'' then fail else change b with b''.

(** Settling a condition: evaluate the fields it reads, use what is known,
    and go by cases on what is left. *)
Ltac case_blocker b :=
  let T := type of b in
  lazymatch T with
  | bool => destruct b eqn:?
  | pth_status_t => destruct b eqn:?
  | option _ => destruct b eqn:?
  | _ => fail "stuck at" b
  end.

Ltac settle b :=
  first
    [ let b' := eval_fields b in
      tryif constr_eq b b' then fail else (change b with b'; try settle b')
    | let b' := eval_ground b in change b with b'
    | rewrite_known b
    | match goal with
      | H : ?l = ?v |- _ =>
        lazymatch type of l with
        | pth_status_t =>
          lazymatch b with
          | l => fail
          | context C [l] => let b' := context C [v] in rewrite H; try settle b'
          end
        end
      end
    | in_bounds_known b
    | case_blocker b ].

Ltac sym_step use_spec :=
  lazymatch goal with
  | |- ?G =>
    let b := blocker G in
    tryif constr_eq b G then fail
    else first [ use_spec b | settle b ]
  end; mon.

Ltac sym use_spec := mon; repeat sym_step use_spec.

Ltac no_spec b := fail.

Ltac wf_split H :=
  let H1 := fresh "Hlen" in
  let H2 := fresh "Hlen" in
  let H3 := fresh "Hrange" in
  let H4 := fresh "Hrange" in
  let H5 := fresh "Hflag" in
  unfold wf in H; fields_in H; rewrite ?length_list_set in H;
  destruct H as (H1 & H2 & H3 & H4 & H5).

Ltac tame_split H :=
  let Hk1 := fresh "Hkey" in
  let Hk2 := fresh "Hkey" in
  let Hw := fresh "Hw" in
  destruct H as [[Hk1 Hk2] Hw]; fields_in Hk1; fields_in Hk2; wf_split Hw.

Ltac wf_solve :=
  unfold wf; fields_goal; rewrite ?length_list_set;
  repeat split;
  first [ assumption | reflexivity | apply u8_range
        | unfold set_bit, clear_bit, change_bit; apply u8_range | lia ].

Ltac keys_solve :=
  unfold same_keys; fields_goal; split; first [ reflexivity | assumption | congruence ].

(** Closing [exists x, s' = havoc x s /\ tame s x] for an explicit [s']. *)
Ltac tame_close :=
  apply tame_intro; [ reflexivity | keys_solve | wf_solve ].

(** Use [L : tq c] at the blocker [c m]. *)
Ltac use_tq b L :=
  lazymatch b with
  | _ (Build_machine ?S ?W ?O) =>
    let Hwf := fresh "Hwf" in
    let E := fresh "E" in
    let Ht := fresh "Ht" in
    assert (Hwf : wf S) by wf_solve;
    destruct (tq_run _ S W O L Hwf) as (? & ? & ? & ? & E & Ht); clear Hwf;
    rewrite E; clear E; tame_split Ht
  end.

Ltac tame_close_with tac := apply tame_intro; [ tac; reflexivity | keys_solve | wf_solve ].
Ltac tq_close := unfold quietly; tame_close.

Ltac use_tq_record b L :=
  lazymatch b with
  | _ ?r (Build_machine ?S ?W ?O) =>
    let Hwf := fresh "Hwf" in
    let E := fresh "E" in
    let Ht := fresh "Ht" in
    let Hk := fresh "Hkey" in
    assert (Hwf : wf S) by wf_solve;
    destruct (L r S W O Hwf) as (? & ? & ? & ? & E & Hk & Ht); clear Hwf;
    rewrite E; clear E; fields_in Hk; tame_split Ht
  end.

Section Helpers.

Context {fw : Firmware} {cfg : BuildConfig} {hk : Hooks}.

Lemma tq_process_record_with_new_time : tq_record process_record_with_new_time.
Proof.
  intros r s w o Hw. unfold process_record_with_new_time, timer_read. mon.
  wf_split Hw.
  assert (Hx : exists x, set_is_processing_record_due_to_pth false
                           (set_is_processing_record_due_to_pth true s) = havoc x s
                         /\ tame s x) by tame_close.
  destruct Hx as (x & E & Hx). rewrite E.
  eexists _, x, _, _. split; [reflexivity|]. split; [reflexivity|exact Hx].
Qed.

Ltac by_new_time r' :=
  let r := fresh "r" in
  let s := fresh "s" in
  let w := fresh "w" in
  let o := fresh "o" in
  let Hw := fresh "Hw" in
  intros r s w o Hw;
  destruct (tq_process_record_with_new_time (r' r) s w o Hw) as (r1 & x & w1 & o1 & E & Hk & Ht);
  exists r1, x, w1, o1; split; [exact E|]; split; [exact Hk | exact Ht].

Lemma tq_process_register_record : tq_record process_register_record.
Proof. by_new_time (fun r => with_pressed true r). Qed.
Lemma tq_process_unregister_record : tq_record process_unregister_record.
Proof. by_new_time (fun r => with_pressed false r). Qed.
Lemma tq_process_register_record_as_hold : tq_record process_register_record_as_hold.
Proof. by_new_time (fun r => with_pressed true (set_record_to_hold r)). Qed.
Lemma tq_process_unregister_record_as_hold : tq_record process_unregister_record_as_hold.
Proof. by_new_time (fun r => with_pressed false (set_record_to_hold r)). Qed.
Lemma tq_process_register_record_as_tap : tq_record process_register_record_as_tap.
Proof. by_new_time (fun r => with_pressed true (set_record_to_tap r)). Qed.
Lemma tq_process_unregister_record_as_tap : tq_record process_unregister_record_as_tap.
Proof. by_new_time (fun r => with_pressed false (set_record_to_tap r)). Qed.

Lemma tq_of_record f r : tq_record f -> tq (f r).
Proof.
  intros H s w o Hw. destruct (H r s w o Hw) as (r' & x & w' & o' & E & _ & Ht).
  unfold wp. rewrite E. exists x. split; [reflexivity|exact Ht].
Qed.

Lemma tq_at_pth_record f : tq_record f -> tq (at_pth_record f).
Proof.
  intros Hf s w o Hw. unfold at_pth_record. pose proof Hw as Hw0. wf_split Hw0.
  sym ltac:(fun b => use_tq_record b Hf).
  tq_close.
Qed.

Lemma tq_at_second_record f : tq_record f -> tq (at_second_record f).
Proof.
  intros Hf s w o Hw. unfold at_second_record. pose proof Hw as Hw0. wf_split Hw0.
  sym ltac:(fun b => use_tq_record b Hf).
  tq_close.
Qed.

Lemma tq_at_release_record i f :
  0 <= i < 8 -> tq_record f -> tq (at_release_record i f).
Proof.
  intros Hi Hf s w o Hw.
  unfold at_release_record, load_release_record, store_release_record.
  pose proof Hw as Hw0. wf_split Hw0.
  sym ltac:(fun b => use_tq_record b Hf).
  tq_close.
Qed.

Lemma tq_send_and_wait : tq send_and_wait.
Proof.
  unfold send_and_wait. apply tq_bind; [apply tq_emit|intros _]. apply tq_when, tq_emit.
Qed.

Lemma tq_tap_code16 kc : tq (tap_code16 kc).
Proof. apply tq_emit. Qed.

Lemma tq_should_neutralize_mods kc b : tq (should_neutralize_mods kc b).
Proof. unfold should_neutralize_mods. apply tq_if; [apply tq_hook|apply tq_ret]. Qed.

Lemma tq_get_keycode_same_pos_in_layer r l : tq (get_keycode_same_pos_in_layer r l).
Proof. unfold get_keycode_same_pos_in_layer. apply tq_if; apply tq_hook. Qed.

Lemma tq_assign_second_keycode v : tq (assign set_second_keycode v).
Proof.
  apply tq_modify. intros s Hw. wf_split Hw.
  split; [reflexivity|]. split; [keys_solve|wf_solve].
Qed.

Lemma tq_assign_second_is_tap_hold v : tq (assign set_second_is_tap_hold v).
Proof.
  apply tq_modify. intros s Hw. wf_split Hw.
  split; [reflexivity|]. split; [keys_solve|wf_solve].
Qed.

Lemma tq_second_record_to_tap :
  tq (modify (fun s => set_second_record (set_record_to_tap (second_record s)) s)).
Proof.
  apply tq_modify. intros s Hw. wf_split Hw.
  split; [reflexivity|]. split; [keys_solve|wf_solve].
Qed.

Lemma tq_second_record_to_hold :
  tq (modify (fun s => set_second_record (set_record_to_hold (second_record s)) s)).
Proof.
  apply tq_modify. intros s Hw. wf_split Hw.
  split; [reflexivity|]. split; [keys_solve|wf_solve].
Qed.


(** *** The cache loops *)

Lemma tq_add_pos_to_tap_releases pos : tq (add_pos_to_tap_releases pos).
Proof.
  intros s w o Hw. pose proof Hw as Hw0. wf_split Hw0.
  unfold add_pos_to_tap_releases, store_release_as_tap_position, ctz. mon.
  destruct (u8 (Z.lnot (used_release_as_tap_positions_bitmask s)) =? 0) eqn:E.
  - apply quietly_refl, Hw.
  - apply Z.eqb_neq in E.
    pose proof (u8_range (Z.lnot (used_release_as_tap_positions_bitmask s))) as Hr.
    destruct (ctz_step 0 (u8 (Z.lnot (used_release_as_tap_positions_bitmask s))))
      as (i & Hi & Hi8 & _); [lia|apply Z.mod_1_r|].
    rewrite Hi. sym no_spec. tq_close.
Qed.

Lemma tq_remove_pos_loop n pos : forall k mask,
  (k + n = 8)%nat -> 0 <= mask < 256 -> mask mod 2 ^ Z.of_nat k = 0 ->
  tq (remove_pos_loop n pos mask).
Proof.
  induction n as [|n IH]; intros k mask Hk Hm Hmod s w o Hw.
  - assert (mask = 0).
    { replace k with 8%nat in Hmod by lia. change (2 ^ Z.of_nat 8) with 256 in Hmod.
      rewrite Z.mod_small in Hmod; lia. }
    subst mask. cbn [remove_pos_loop]. rewrite Z.eqb_refl. apply quietly_refl, Hw.
  - cbn [remove_pos_loop]. destruct (mask =? 0) eqn:E; [apply quietly_refl, Hw|].
    apply Z.eqb_neq in E.
    destruct (ctz_step k mask) as (i & Hi & Hi8 & Hc & Hcm & _); [lia|assumption|].
    pose proof Hw as Hw0. wf_split Hw0.
    unfold load_release_as_tap_position, ctz. rewrite Hi.
    sym ltac:(fun b =>
      lazymatch b with
      | remove_pos_loop n pos ?mask' _ =>
        use_tq b (IH (S k) mask' ltac:(lia) Hc Hcm)
      end).
    + tq_close.
    + tq_close.
Qed.

Lemma tq_remove_pos_from_tap_releases pos : tq (remove_pos_from_tap_releases pos).
Proof.
  intros s w o Hw. pose proof Hw as Hw0. wf_split Hw0.
  unfold remove_pos_from_tap_releases. mon.
  apply (tq_remove_pos_loop 8 pos 0); [reflexivity|assumption|apply Z.mod_1_r|exact Hw].
Qed.

Lemma tq_release_loop n : forall k mask waited,
  (k + n = 8)%nat -> 0 <= mask < 256 -> mask mod 2 ^ Z.of_nat k = 0 ->
  tq (release_loop n mask waited).
Proof.
  induction n as [|n IH]; intros k mask waited Hk Hm Hmod.
  - assert (mask = 0).
    { replace k with 8%nat in Hmod by lia. change (2 ^ Z.of_nat 8) with 256 in Hmod.
      rewrite Z.mod_small in Hmod; lia. }
    subst mask. cbn [release_loop]. rewrite Z.eqb_refl. apply tq_ret.
  - cbn [release_loop]. destruct (mask =? 0) eqn:E; [apply tq_ret|].
    apply Z.eqb_neq in E.
    destruct (ctz_step k mask) as (i & Hi & Hi8 & Hc & Hcm & _); [lia|assumption|].
    unfold ctz. rewrite Hi.
    apply tq_bind_ret.
    apply tq_bind; [apply tq_when, tq_send_and_wait|intros _].
    apply tq_bind;
      [apply tq_at_release_record; [exact Hi8|apply tq_process_record_with_new_time]|intros _].
    apply (IH (S k)); [lia|exact Hc|exact Hcm].
Qed.


Lemma to_be_released_range rt s :
  0 <= used_release_records_bitmask s < 256 ->
  0 <= get_to_be_released_bitmask rt s < 256.
Proof. intros Hu. unfold get_to_be_released_bitmask. apply land_byte, Hu. Qed.

Lemma tq_process_release_records rt wait : tq (process_release_records rt wait).
Proof.
  intros s w o Hw. pose proof Hw as Hw0. wf_split Hw0.
  pose proof (to_be_released_range rt s Hrange0) as Hr.
  unfold process_release_records. mon.
  destruct (get_to_be_released_bitmask rt s =? 0) eqn:E; [apply quietly_refl, Hw|].
  sym ltac:(fun b =>
    lazymatch b with
    | release_loop 8 ?mask ?wt _ =>
      use_tq b (tq_release_loop 8 0 mask wt eq_refl Hr (Z.mod_1_r mask))
    end).
  tq_close.
Qed.

End Helpers.

Create HintDb tq.

#[global] Hint Resolve tq_ret tq_gets tq_hook tq_emit tq_send_and_wait tq_tap_code16
  tq_should_neutralize_mods tq_get_keycode_same_pos_in_layer
  tq_assign_second_keycode tq_assign_second_is_tap_hold
  tq_second_record_to_tap tq_second_record_to_hold
  tq_add_pos_to_tap_releases tq_remove_pos_from_tap_releases
  tq_process_release_records
  tq_at_pth_record tq_at_second_record
  tq_process_record_with_new_time tq_process_register_record tq_process_unregister_record
  tq_process_register_record_as_hold tq_process_unregister_record_as_hold
  tq_process_register_record_as_tap tq_process_unregister_record_as_tap
  tq_of_record : tq.

(** The rules are syntax directed: one pass over the program text. *)
Ltac tq_auto :=
  repeat first
    [ solve [auto with tq]
    | apply tq_bind; [|intro]
    | apply tq_when
    | apply tq_if ].

Section Decisions.

Context {fw : Firmware} {cfg : BuildConfig} {hk : Hooks}.

Lemma tq_register_pth_hold : tq register_pth_hold.
Proof. unfold register_pth_hold. tq_auto. Qed.

Lemma tq_unregister_pth_hold : tq unregister_pth_hold.
Proof. unfold unregister_pth_hold. tq_auto. Qed.

Lemma make_decision_tap_run s w o :
  wf s ->
  exists x w' o',
    make_decision_tap {| st := s; env := w; out := o |}
    = Done tt {| st := havoc x (decide PTH_DECIDED_TAP s); env := w'; out := o' |}
    /\ tame s x.
Proof.
  intros Hw. unfold make_decision_tap, decide. rewrite bind_gets.
  destruct (status_geb (pth_status s) PTH_DECIDED_TAP).
  - destruct (tq_run (ret tt) s w o (tq_ret tt) Hw) as ([] & x & w' & o' & E & Hx).
    exists x, w', o'. split; assumption.
  - rewrite bind_assign.
    match goal with
    | |- exists x w' o', ?c _ = _ /\ _ =>
      assert (Hq : tq c) by (unfold process_release_records_and_wait_before_first; tq_auto)
    end.
    destruct (tq_run _ (set_pth_status PTH_DECIDED_TAP s) w o Hq Hw)
      as ([] & x & w' & o' & E & Hx).
    exists x, w', o'. split; [exact E|exact (tame_status _ _ _ Hx)].
Qed.

Lemma make_decision_hold_run s w o :
  wf s ->
  exists x w' o',
    make_decision_hold {| st := s; env := w; out := o |}
    = Done tt {| st := havoc x (decide PTH_DECIDED_HOLD s); env := w'; out := o' |}
    /\ tame s x.
Proof.
  intros Hw. unfold make_decision_hold, decide. rewrite bind_gets.
  destruct (status_geb (pth_status s) PTH_DECIDED_TAP).
  - destruct (tq_run (ret tt) s w o (tq_ret tt) Hw) as ([] & x & w' & o' & E & Hx).
    exists x, w', o'. split; assumption.
  - rewrite bind_assign.
    match goal with
    | |- exists x w' o', ?c _ = _ /\ _ =>
      assert (Hq : tq c) by tq_auto
    end.
    destruct (tq_run _ (set_pth_status PTH_DECIDED_HOLD s) w o Hq Hw)
      as ([] & x & w' & o' & E & Hx).
    exists x, w', o'. split; [exact E|exact (tame_status _ _ _ Hx)].
Qed.


End Decisions.

#[global] Hint Resolve tq_register_pth_hold tq_unregister_pth_hold : tq.

Arguments process_release_records : simpl never.
Arguments process_release_records_and_wait_before_first : simpl never.
Arguments add_pos_to_tap_releases : simpl never.
Arguments remove_pos_from_tap_releases : simpl never.
Arguments add_release_record : simpl never.
Arguments make_decision_tap : simpl never.
Arguments make_decision_hold : simpl never.
Arguments send_and_wait : simpl never.
Arguments should_neutralize_mods : simpl never.
Arguments get_keycode_same_pos_in_layer : simpl never.
Arguments at_pth_record : simpl never.
Arguments at_second_record : simpl never.
Arguments at_release_record : simpl never.
Arguments process_record_with_new_time : simpl never.
Arguments process_register_record : simpl never.
Arguments process_unregister_record : simpl never.
Arguments process_register_record_as_hold : simpl never.
Arguments process_unregister_record_as_hold : simpl never.
Arguments process_register_record_as_tap : simpl never.
Arguments process_unregister_record_as_tap : simpl never.
Arguments tap_code16 : simpl never.
Arguments register_pth_hold : simpl never.
Arguments unregister_pth_hold : simpl never.
Arguments track_event : simpl never.
Arguments collect_new_press_to_press_and_overlap_duration : simpl never.
Arguments store_press_to_press_and_overlap_for_pth : simpl never.
Arguments case_PTH_IDLE : simpl never.
Arguments case_PTH_PRESSED : simpl never.
Arguments case_PTH_SECOND_PRESSED : simpl never.
Arguments case_PTH_DECIDED_TAP : simpl never.
Arguments case_PTH_DECIDED_HOLD : simpl never.
Arguments reset_pth_state : simpl never.
Arguments reset_immediately_when_tap_chosen : simpl never.
Arguments make_user_choice_or_not : simpl never.
Arguments is_record_same_side_as_pth : simpl never.
Arguments keyboard_post_init_predictive_tap_hold : simpl never.
Arguments timer_read : simpl never.
Arguments timer_elapsed : simpl never.
Arguments pth_key : simpl never.
Arguments second_key : simpl never.
Arguments keypos_eq : simpl never.
Arguments u8 : simpl never.
Arguments u16 : simpl never.
Arguments i16 : simpl never.
Arguments set_bit : simpl never.
Arguments clear_bit : simpl never.
Arguments change_bit : simpl never.
Arguments TIMER_DIFF_16 : simpl never.
Arguments saturated_diff : simpl never.
Arguments MIN : simpl never.
Arguments MAX : simpl never.
Arguments pth_is_tap_hold_keycode : simpl never.
Arguments yields_to_qmk : simpl never.
Arguments is_same_side_as_pth : simpl never.
Arguments set_pth_status _ !_ /.
Arguments set_pth_prev_status _ !_ /.
Arguments set_pth_keycode _ !_ /.
Arguments set_pth_tap_code_instead_of_hold _ !_ /.
Arguments set_pth_record _ !_ /.
Arguments set_pth_press_timer _ !_ /.
Arguments set_pth_press_timer_max_reached _ !_ /.
Arguments set_pth_atomic_side _ !_ /.
Arguments set_pth_side_user_bits _ !_ /.
Arguments set_pth_was_held_instantly _ !_ /.
Arguments set_second_was_held_instantly _ !_ /.
Arguments set_instant_layer_was_active _ !_ /.
Arguments set_layer_before_instant_layer_tap _ !_ /.
Arguments set_has_second _ !_ /.
Arguments set_second_record _ !_ /.
Arguments set_second_keycode _ !_ /.
Arguments set_second_press_timer _ !_ /.
Arguments set_second_press_timer_max_reached _ !_ /.
Arguments set_second_is_tap_hold _ !_ /.
Arguments set_second_is_same_side_as_pth _ !_ /.
Arguments set_second_to_be_released _ !_ /.
Arguments set_timeout_for_forcing_choice _ !_ /.
Arguments set_has_chosen_after_timeout_reached _ !_ /.
Arguments set_min_overlap_dur_for_hold _ !_ /.
Arguments set_pth_press_to_second_press_dur _ !_ /.
Arguments set_pth_press_to_second_release_dur _ !_ /.
Arguments set_pth_second_dur _ !_ /.
Arguments set_pth_second_press_to_third_press_dur _ !_ /.
Arguments set_pth_prev_prev_press_to_prev_press_dur _ !_ /.
Arguments set_pth_prev_press_to_pth_press_dur _ !_ /.
Arguments set_pth_prev_prev_overlap_dur _ !_ /.
Arguments set_pth_prev_overlap_dur _ !_ /.
Arguments set_key_release_before_pth_to_pth_press_dur _ !_ /.
Arguments set_prev_press_keycode _ !_ /.
Arguments set_cur_press_keycode _ !_ /.
Arguments set_down_count _ !_ /.
Arguments set_overlap_timer _ !_ /.
Arguments set_overlap_timer_max_reached _ !_ /.
Arguments set_press_to_press_timer _ !_ /.
Arguments set_press_to_press_timer_max_reached _ !_ /.
Arguments set_release_timer _ !_ /.
Arguments set_release_timer_max_reached _ !_ /.
Arguments set_prev_press_to_press_dur _ !_ /.
Arguments set_cur_press_to_press_dur _ !_ /.
Arguments set_prev_overlap_dur _ !_ /.
Arguments set_cur_overlap_dur _ !_ /.
Arguments set_release_as_tap_positions _ !_ /.
Arguments set_used_release_as_tap_positions_bitmask _ !_ /.
Arguments set_release_records _ !_ /.
Arguments set_is_before_second_bitmask _ !_ /.
Arguments set_used_release_records_bitmask _ !_ /.
Arguments set_is_processing_record_due_to_pth _ !_ /.
Arguments havoc _ !_ /.

(** *** The dispatcher *)

Ltac use_tq_auto b :=
  lazymatch b with
  | ?c (Build_machine _ _ _) =>
    let Hq := fresh "Hq" in
    assert (Hq : tq c) by (solve [auto with tq]);
    use_tq b Hq; clear Hq
  end.

Ltac status_solve :=
  fields_goal;
  repeat match goal with
         | H : pth_status _ = _ |- _ => rewrite H
         end;
  first [ assumption | reflexivity ].

Ltac use_decision_at L S D :=
  let Hwf := fresh "Hwf" in
  let E := fresh "E" in
  let Ht := fresh "Ht" in
  assert (Hwf : wf S) by wf_solve;
  destruct (L Hwf) as (? & ? & ? & E & Ht); clear Hwf;
  rewrite E; clear E; tame_split Ht; unfold decide;
  try settle (status_geb (pth_status S) PTH_DECIDED_TAP).

Ltac use_decision b :=
  lazymatch b with
  | make_decision_tap (Build_machine ?S ?W ?O) =>
    use_decision_at (make_decision_tap_run S W O) S PTH_DECIDED_TAP
  | make_decision_hold (Build_machine ?S ?W ?O) =>
    use_decision_at (make_decision_hold_run S W O) S PTH_DECIDED_HOLD
  end.

Ltac unfold_head b :=
  lazymatch b with
  | track_event _ _ _ _ => unfold track_event
  | collect_new_press_to_press_and_overlap_duration _ _ _ =>
    unfold collect_new_press_to_press_and_overlap_duration
  | store_press_to_press_and_overlap_for_pth _ =>
    unfold store_press_to_press_and_overlap_for_pth
  | case_PTH_IDLE _ _ _ _ _ => unfold case_PTH_IDLE
  | case_PTH_PRESSED _ _ _ _ _ => unfold case_PTH_PRESSED
  | case_PTH_SECOND_PRESSED _ _ _ _ _ => unfold case_PTH_SECOND_PRESSED
  | case_PTH_DECIDED_TAP _ _ _ _ _ => unfold case_PTH_DECIDED_TAP
  | case_PTH_DECIDED_HOLD _ _ _ _ _ => unfold case_PTH_DECIDED_HOLD
  | reset_pth_state _ => unfold reset_pth_state
  | reset_immediately_when_tap_chosen _ => unfold reset_immediately_when_tap_chosen
  | make_user_choice_or_not _ => unfold make_user_choice_or_not
  | is_record_same_side_as_pth _ _ => unfold is_record_same_side_as_pth
  | keyboard_post_init_predictive_tap_hold _ => unfold keyboard_post_init_predictive_tap_hold
  | timer_read _ => unfold timer_read
  | timer_elapsed _ _ => unfold timer_elapsed
  | pth_key _ => unfold pth_key
  | second_key _ => unfold second_key
  end.

Ltac engine b := first [ use_decision b | use_tq_auto b | unfold_head b ].

(** Running the monad on a state written out field by field. *)
Declare Reduction run_flat :=
  cbv beta iota zeta delta [
    bind when wp ret gets hook modify assign emit raise st env out pth_status
    pth_prev_status pth_keycode pth_tap_code_instead_of_hold pth_record pth_press_timer
    pth_press_timer_max_reached pth_atomic_side pth_side_user_bits
    pth_was_held_instantly second_was_held_instantly instant_layer_was_active
    layer_before_instant_layer_tap has_second second_record second_keycode
    second_press_timer second_press_timer_max_reached second_is_tap_hold
    second_is_same_side_as_pth second_to_be_released timeout_for_forcing_choice
    has_chosen_after_timeout_reached min_overlap_dur_for_hold
    pth_press_to_second_press_dur pth_press_to_second_release_dur pth_second_dur
    pth_second_press_to_third_press_dur pth_prev_prev_press_to_prev_press_dur
    pth_prev_press_to_pth_press_dur pth_prev_prev_overlap_dur pth_prev_overlap_dur
    key_release_before_pth_to_pth_press_dur prev_press_keycode cur_press_keycode
    down_count overlap_timer overlap_timer_max_reached press_to_press_timer
    press_to_press_timer_max_reached release_timer release_timer_max_reached
    prev_press_to_press_dur cur_press_to_press_dur prev_overlap_dur cur_overlap_dur
    release_as_tap_positions used_release_as_tap_positions_bitmask release_records
    is_before_second_bitmask used_release_records_bitmask
    is_processing_record_due_to_pth set_pth_status set_pth_prev_status set_pth_keycode
    set_pth_tap_code_instead_of_hold set_pth_record set_pth_press_timer
    set_pth_press_timer_max_reached set_pth_atomic_side set_pth_side_user_bits
    set_pth_was_held_instantly set_second_was_held_instantly
    set_instant_layer_was_active set_layer_before_instant_layer_tap set_has_second
    set_second_record set_second_keycode set_second_press_timer
    set_second_press_timer_max_reached set_second_is_tap_hold
    set_second_is_same_side_as_pth set_second_to_be_released
    set_timeout_for_forcing_choice set_has_chosen_after_timeout_reached
    set_min_overlap_dur_for_hold set_pth_press_to_second_press_dur
    set_pth_press_to_second_release_dur set_pth_second_dur
    set_pth_second_press_to_third_press_dur set_pth_prev_prev_press_to_prev_press_dur
    set_pth_prev_press_to_pth_press_dur set_pth_prev_prev_overlap_dur
    set_pth_prev_overlap_dur set_key_release_before_pth_to_pth_press_dur
    set_prev_press_keycode set_cur_press_keycode set_down_count set_overlap_timer
    set_overlap_timer_max_reached set_press_to_press_timer
    set_press_to_press_timer_max_reached set_release_timer
    set_release_timer_max_reached set_prev_press_to_press_dur
    set_cur_press_to_press_dur set_prev_overlap_dur set_cur_overlap_dur
    set_release_as_tap_positions set_used_release_as_tap_positions_bitmask
    set_release_records set_is_before_second_bitmask set_used_release_records_bitmask
    set_is_processing_record_due_to_pth havoc negb andb orb fst snd
  ].

(** With the state written out field by field, one reduction both
    substitutes and evaluates. *)
Ltac monf := match goal with |- ?G => let G' := eval run_flat in G in change G' end.

(** A hook's answer is a value of its own: what it was computed from is
    kept in an equation, not in the state. *)
Ltac name_hook_answers :=
  repeat match goal with
         | |- context [?f ?S ?W] =>
           lazymatch S with Build_pth_state _ _ _ _ _ _ _ _ _ _ _ _ _ _ _ _ _ _ _ _ _ _ _ _ _ _ _ _ _ _ _ _ _ _ _ _ _ _ _ _ _ _ _ _ _ _ _ _ _ _ _ _ => idtac end;
           lazymatch type of W with world => idtac end;
           lazymatch f with context [@Build_machine] => fail | _ => idtac end;
           let v := fresh "v" in
           let Hv := fresh "Hv" in
           remember (f S W) as v eqn:Hv; symmetry in Hv
         end.

Ltac flat_step use_spec :=
  lazymatch goal with
  | |- ?G =>
    let b := blocker G in
    tryif constr_eq b G then fail
    else first [ use_spec b | settle b ]
  end; monf; name_hook_answers.

Ltac flat use_spec := monf; name_hook_answers; repeat flat_step use_spec.



(* ------------------------------------------------------------------------- *)
(** ** The tap-release set *)

Lemma in_slots i : In i slots <-> 0 <= i < 8.
Proof.
  unfold slots. cbn [In]. split.
  - intros H. repeat (destruct H as [H|H]; [subst; lia|]). contradiction.
  - intros H. assert (i = 0 \/ i = 1 \/ i = 2 \/ i = 3 \/ i = 4 \/ i = 5 \/ i = 6 \/ i = 7)
      as Hi by lia.
    intuition.
Qed.

Lemma ctz_bits (k : nat) mask :
  0 < mask < 256 -> mask mod 2 ^ Z.of_nat k = 0 ->
  exists i,
    builtin_ctz mask = Some i /\ 0 <= i < 8 /\ (k < 8)%nat
    /\ 0 <= clear_bit mask i < 256
    /\ clear_bit mask i mod 2 ^ Z.of_nat (S k) = 0
    /\ Z.testbit mask i = true
    /\ Z.testbit (clear_bit mask i) i = false
    /\ (forall j, 0 <= j < i -> Z.testbit mask j = false)
    /\ (forall j, 0 <= j < 8 -> j <> i ->
        Z.testbit (clear_bit mask i) j = Z.testbit mask j).
Proof.
  intros Hm Hmod.
  assert (Hk : (k < 8)%nat).
  { destruct (Nat.lt_ge_cases k 8) as [|Hge]; [assumption|exfalso].
    assert (256 <= 2 ^ Z.of_nat k).
    { change 256 with (2 ^ 8). apply Z.pow_le_mono_r; lia. }
    rewrite Z.mod_small in Hmod; lia. }
  assert (Hall : forallb (fun k => forallb (ctz_bits_ok k) bytes) (seq 0 8) = true)
    by (vm_compute; reflexivity).
  rewrite forallb_forall in Hall.
  specialize (Hall k ltac:(apply in_seq; lia)).
  pose proof (byte_forall _ Hall mask ltac:(lia)) as Hc.
  unfold ctz_bits_ok in Hc.
  replace (mask =? 0) with false in Hc by (symmetry; apply Z.eqb_neq; lia).
  rewrite Hmod in Hc. cbn [Z.eqb negb orb] in Hc.
  destruct (builtin_ctz mask) as [i|]; [|discriminate].
  rewrite !andb_true_iff in Hc.
  destruct Hc as [[[[[[[[[Hi0 Hi8] _] Hc0] Hclt] Hcmod] Hti] Htc] Hlow] Hoth].
  apply Z.leb_le in Hi0, Hc0. apply Z.ltb_lt in Hi8, Hclt. apply Z.eqb_eq in Hcmod.
  apply negb_true_iff in Htc.
  rewrite forallb_forall in Hlow, Hoth.
  exists i. repeat split; try assumption; try lia.
  - intros j Hj. specialize (Hlow j ltac:(apply in_slots; lia)).
    apply orb_true_iff in Hlow. destruct Hlow as [H|H].
    + apply Z.leb_le in H. lia.
    + apply negb_true_iff in H. exact H.
  - intros j Hj Hne. specialize (Hoth j ltac:(apply in_slots; lia)).
    apply orb_true_iff in Hoth. destruct Hoth as [H|H].
    + apply Z.eqb_eq in H. contradiction.
    + apply Bool.eqb_prop in H. exact H.
Qed.

(** [find] over the slots stops at index [i] when the test fails below
    [i] and holds at [i]. *)
Lemma find_slot_at (f : Z -> bool) i :
  0 <= i < 8 -> f i = true -> (forall j, 0 <= j < i -> f j = false) ->
  find f slots = Some i.
Proof.
  intros Hi Hf Hlow.
  assert (i = 0 \/ i = 1 \/ i = 2 \/ i = 3 \/ i = 4 \/ i = 5 \/ i = 6 \/ i = 7) as Hc by lia.
  unfold slots. cbn [find].
  repeat (destruct Hc as [Hc|Hc];
          [subst i; rewrite ?Hlow by lia; rewrite Hf; reflexivity|]).
  subst i. rewrite ?Hlow by lia. rewrite Hf. reflexivity.
Qed.

Lemma find_slot_ext (f g : Z -> bool) :
  (forall j, 0 <= j < 8 -> f j = g j) -> find f slots = find g slots.
Proof.
  intros H. unfold slots. cbn [find].
  rewrite !H by lia. reflexivity.
Qed.

Lemma find_slot_none (f : Z -> bool) :
  (forall j, 0 <= j < 8 -> f j = false) -> find f slots = None.
Proof. intros H. unfold slots. cbn [find]. rewrite !H by lia. reflexivity. Qed.

Lemma find_slot_some (f : Z -> bool) i :
  find f slots = Some i -> 0 <= i < 8 /\ f i = true /\ forall j, 0 <= j < i -> f j = false.
Proof.
  intros H. pose proof (find_some _ _ H) as [Hin Hf]. apply in_slots in Hin.
  repeat split; try assumption; try lia.
  intros j Hj. destruct (f j) eqn:E; [|reflexivity]. exfalso.
  pose proof (find_slot_at f j ltac:(lia) E) as Hat.
  assert (Hlow : forall j0, 0 <= j0 < j -> f j0 = false).
  { clear Hat. revert H. unfold slots. cbn [find]. intros H j0 Hj0.
    destruct (f j0) eqn:E0; [|reflexivity]. exfalso.
    assert (j0 = 0 \/ j0 = 1 \/ j0 = 2 \/ j0 = 3 \/ j0 = 4 \/ j0 = 5 \/ j0 = 6 \/ j0 = 7)
      as Hc by lia.
    repeat (destruct Hc as [Hc|Hc];
            [subst j0;
             repeat match type of H with
                    | (if f ?a then _ else _) = _ =>
                      destruct (f a) eqn:?;
                      [first [ congruence | injection H; intros; lia ]|]
                    end; congruence|]).
    subst j0.
    repeat match type of H with
           | (if f ?a then _ else _) = _ =>
             destruct (f a) eqn:?;
             [first [ congruence | injection H; intros; lia ]|]
           end; congruence. }
  rewrite (Hat Hlow) in H. injection H. lia.
Qed.

Lemma keypos_eq_refl p : keypos_eq p p = true.
Proof. unfold keypos_eq. rewrite !Z.eqb_refl. reflexivity. Qed.

Lemma keypos_eq_eq p q : keypos_eq p q = true -> p = q.
Proof.
  unfold keypos_eq. rewrite andb_true_iff, !Z.eqb_eq. destruct p, q. cbn.
  intros [-> ->]. reflexivity.
Qed.

Lemma nth_list_set {A} (l : list A) : forall n x d,
  (n < length l)%nat -> nth n (list_set n x l) d = x.
Proof.
  induction l as [|y l IH]; intros [|n] x d H; cbn in *; try lia; [reflexivity|].
  apply IH. lia.
Qed.

Lemma nth_list_set_other {A} (l : list A) : forall n m x d,
  n <> m -> nth m (list_set n x l) d = nth m l d.
Proof.
  induction l as [|y l IH]; intros [|n] [|m] x d H; cbn in *; try reflexivity; try lia.
  apply IH. lia.
Qed.

Lemma free_bit (used : Z) :
  0 <= used < 256 ->
  match free_slot used with
  | Some i =>
    0 <= i < 8
    /\ u8 (Z.lnot used) <> 0
    /\ builtin_ctz (u8 (Z.lnot used)) = Some i
    /\ Z.testbit used i = false
    /\ Z.testbit (set_bit used i) i = true
    /\ clear_bit (set_bit used i) i = used
    /\ (forall j, 0 <= j < 8 -> j <> i ->
        Z.testbit (set_bit used i) j = Z.testbit used j)
  | None => u8 (Z.lnot used) = 0 /\ used = 255
  end.
Proof.
  intros Hu.
  assert (Hall : forallb free_bit_ok bytes = true) by (vm_compute; reflexivity).
  pose proof (byte_forall _ Hall used Hu) as Hc. unfold free_bit_ok in Hc.
  destruct (free_slot used) as [i|] eqn:Hf.
  - apply find_slot_some in Hf. destruct Hf as (Hi & Hfi & _).
    apply negb_true_iff in Hfi.
    rewrite !andb_true_iff in Hc. destruct Hc as [[[[Hnz Hctz] Hset] Hclr] Hoth].
    apply negb_true_iff, Z.eqb_neq in Hnz. apply Z.eqb_eq in Hclr.
    destruct (builtin_ctz (u8 (Z.lnot used))) as [j|]; [|discriminate].
    apply Z.eqb_eq in Hctz. subst j.
    rewrite forallb_forall in Hoth.
    repeat split; try assumption; try lia.
    intros j Hj Hne. specialize (Hoth j ltac:(apply in_slots; lia)).
    apply orb_true_iff in Hoth. destruct Hoth as [H|H].
    + apply Z.eqb_eq in H. contradiction.
    + apply Bool.eqb_prop in H. exact H.
  - apply andb_true_iff in Hc. destruct Hc as [H1 H2].
    apply Z.eqb_eq in H1, H2. split; assumption.
Qed.

Section TapReleases.

Context {fw : Firmware} {cfg : BuildConfig} {hk : Hooks}.

(** The loop of [remove_pos_from_tap_releases] frees the lowest slot of
    the mask that holds the position, and stops there. *)
Lemma remove_pos_loop_run n pos : forall k mask s w o,
  (k + n = 8)%nat -> 0 <= mask < 256 -> mask mod 2 ^ Z.of_nat k = 0 ->
  length (release_as_tap_positions s) = 8%nat ->
  remove_pos_loop n pos mask {| st := s; env := w; out := o |}
  = match slot_of mask (release_as_tap_positions s) pos with
    | Some i =>
      Done true
        {| st := set_used_release_as_tap_positions_bitmask
                   (clear_bit (used_release_as_tap_positions_bitmask s) i) s;
           env := w; out := o |}
    | None => Done false {| st := s; env := w; out := o |}
    end.
Proof.
  induction n as [|n IH]; intros k mask s w o Hk Hm Hmod Hlen.
  - assert (mask = 0).
    { replace k with 8%nat in Hmod by lia. change (2 ^ Z.of_nat 8) with 256 in Hmod.
      rewrite Z.mod_small in Hmod; lia. }
    subst mask. cbn [remove_pos_loop]. rewrite Z.eqb_refl.
    unfold slot_of. rewrite find_slot_none; [reflexivity|].
    intros j _. unfold holds. rewrite Z.testbit_0_l. reflexivity.
  - cbn [remove_pos_loop]. destruct (mask =? 0) eqn:E.
    + apply Z.eqb_eq in E. subst mask.
      unfold slot_of. rewrite find_slot_none; [reflexivity|].
      intros j _. unfold holds. rewrite Z.testbit_0_l. reflexivity.
    + apply Z.eqb_neq in E.
      destruct (ctz_bits k mask) as (i & Hi & Hi8 & _ & Hc & Hcm & Hti & Htc & Hlow & Hoth);
        [lia|assumption|].
      unfold ctz, load_release_as_tap_position. rewrite Hi.
      unfold bind at 1. unfold ret at 1. unfold bind at 1. unfold bind at 1.
      unfold gets at 1. cbn [st].
      rewrite (in_bounds_8 i _ Hi8 Hlen). unfold ret at 1.
      destruct (keypos_eq (nth (Z.to_nat i) (release_as_tap_positions s) EMPTY_KEYPOS) pos)
        eqn:Ep.
      * unfold slot_of. rewrite (find_slot_at _ i Hi8).
        -- reflexivity.
        -- unfold holds. rewrite Hti, Ep. reflexivity.
        -- intros j Hj. unfold holds. rewrite (Hlow j Hj). reflexivity.
      * rewrite (IH (S k) _ s w o ltac:(lia) Hc Hcm Hlen).
        unfold slot_of.
        rewrite (find_slot_ext (holds (clear_bit mask i) (release_as_tap_positions s) pos)
                               (holds mask (release_as_tap_positions s) pos));
          [reflexivity|].
        intros j Hj. unfold holds. destruct (Z.eq_dec j i) as [->|Hne].
        -- rewrite Htc, Hti, Ep. reflexivity.
        -- rewrite (Hoth j Hj Hne). reflexivity.
Qed.

Lemma remove_pos_from_tap_releases_run pos s w o :
  wf s ->
  remove_pos_from_tap_releases pos {| st := s; env := w; out := o |}
  = match tap_release_slot s pos with
    | Some _ => Done true {| st := without_tap_release pos s; env := w; out := o |}
    | None => Done false {| st := s; env := w; out := o |}
    end.
Proof.
  intros (_ & Hlen & Hr & _). unfold remove_pos_from_tap_releases.
  rewrite bind_gets.
  rewrite (remove_pos_loop_run 8 pos 0 _ s w o eq_refl Hr (Z.mod_1_r _) Hlen).
  unfold without_tap_release, tap_release_slot.
  destruct (slot_of _ _ pos); reflexivity.
Qed.

(** [add_pos_to_tap_releases] fills the lowest free slot, and does nothing
    when there is none. *)
Lemma add_pos_to_tap_releases_run pos s w o :
  wf s ->
  add_pos_to_tap_releases pos {| st := s; env := w; out := o |}
  = Done tt {| st := with_tap_release pos s; env := w; out := o |}.
Proof.
  intros (_ & Hlen & Hr & _). unfold add_pos_to_tap_releases, with_tap_release.
  rewrite bind_gets. pose proof (free_bit _ Hr) as Hf.
  destruct (free_slot (used_release_as_tap_positions_bitmask s)) as [i|].
  - destruct Hf as (Hi & Hnz & Hctz & _).
    apply Z.eqb_neq in Hnz. rewrite Hnz.
    unfold ctz, store_release_as_tap_position. rewrite Hctz.
    unfold bind at 1. unfold ret at 1. unfold bind at 1. unfold bind at 1.
    unfold gets at 1. cbn [st]. rewrite (in_bounds_8 i _ Hi Hlen). reflexivity.
  - destruct Hf as [Hz _]. rewrite Hz. reflexivity.
Qed.

End TapReleases.


(* ------------------------------------------------------------------------- *)
(** ** The release cache *)

Arguments free_slot : simpl never.
Arguments slot_of : simpl never.
Arguments tap_release_slot : simpl never.
Arguments with_tap_release : simpl never.
Arguments without_tap_release : simpl never.

Section ReleaseCache.

Context {fw : Firmware} {cfg : BuildConfig} {hk : Hooks}.

(** [add_release_record] fills the lowest free slot; with no slot free it
    has sent the record on and stops at [__builtin_ctz(0)]. *)
Lemma add_release_record_run r rt s w o :
  wf s ->
  add_release_record r rt {| st := s; env := w; out := o |}
  = match free_slot (used_release_records_bitmask s) with
    | Some i =>
      Done tt
        {| st := set_used_release_records_bitmask
                   (set_bit (used_release_records_bitmask s) i)
                   (set_is_before_second_bitmask
                      (change_bit (is_before_second_bitmask s) i (is_BEFORE_SECOND rt))
                      (set_release_records
                         (list_set (Z.to_nat i) r (release_records s)) s));
           env := w; out := o |}
    | None =>
      Fault Ctz_of_zero
        {| st := s; env := perform (Act_process_record r) w;
           out := o ++ [Act_process_record r] |}
    end.
Proof.
  intros (Hlen & _ & _ & Hr & _). unfold add_release_record.
  rewrite bind_gets. pose proof (free_bit _ Hr) as Hf.
  destruct (free_slot (used_release_records_bitmask s)) as [i|].
  - destruct Hf as (Hi & Hnz & Hctz & _).
    apply Z.eqb_neq in Hnz. rewrite Hnz.
    unfold ctz, store_release_record. rewrite Hctz.
    unfold when. unfold bind at 1. unfold ret at 1.
    unfold bind at 1. unfold ret at 1. unfold bind at 1. unfold bind at 1.
    unfold gets at 1. cbn [st]. rewrite (in_bounds_8 i _ Hi Hlen). reflexivity.
  - destruct Hf as [Hz _]. rewrite Hz. reflexivity.
Qed.

End ReleaseCache.


(* ------------------------------------------------------------------------- *)
(** ** Code that writes no duration *)

Lemma diff_range a b : 0 <= TIMER_DIFF_16 a b < 65536.
Proof. unfold TIMER_DIFF_16, u16. apply Z.mod_pos_bound. lia. Qed.

Lemma diff_self a : TIMER_DIFF_16 a a = 0.
Proof. unfold TIMER_DIFF_16, u16. rewrite Z.sub_diag. reflexivity. Qed.

Lemma i16_small z : -32768 <= z < 32768 -> i16 z = z.
Proof. intros H. unfold i16. rewrite Z.mod_small by lia. lia. Qed.

Lemma down_count_before dc : 0 <= dc < 256 -> u8 (u8 (dc + 1) - 1) = dc.
Proof.
  intros H. unfold u8. destruct (Z.eq_dec dc 255) as [->|Hne]; [reflexivity|].
  rewrite (Z.mod_small (dc + 1)) by lia. replace (dc + 1 - 1) with dc by lia.
  apply Z.mod_small. lia.
Qed.

Lemma u8_succ dc : 0 <= dc < 256 -> u8 (dc + 1) = dc + 1 \/ (dc = 255 /\ u8 (dc + 1) = 0).
Proof.
  intros H. destruct (Z.eq_dec dc 255) as [->|Hne]; [right; split; reflexivity|left].
  apply u8_small. lia.
Qed.

(** A timer that was less than 4096 ms behind at one reading is at most
    4096 ms behind one millisecond later. *)
Lemma diff_later a b c :
  TIMER_DIFF_16 a b <= 4095 -> TIMER_DIFF_16 c a <= 1 -> TIMER_DIFF_16 c b <= 4096.
Proof.
  unfold TIMER_DIFF_16, u16. intros H1 H2.
  replace (c - b) with ((c - a) + (a - b)) by lia.
  rewrite Z.add_mod by lia.
  pose proof (Z.mod_pos_bound (c - a) 65536 ltac:(lia)).
  pose proof (Z.mod_pos_bound (a - b) 65536 ltac:(lia)).
  rewrite Z.mod_small; lia.
Qed.

Lemma keeps_refl s : wf s -> keeps s s.
Proof. intros H. split; [exact H|reflexivity]. Qed.

Lemma keeps_trans s1 s2 s3 : keeps s1 s2 -> keeps s2 s3 -> keeps s1 s3.
Proof. intros [_ E1] [Hw E2]. split; [exact Hw|congruence]. Qed.

Lemma keeps_havoc s x : tame s x -> keeps s (havoc x s).
Proof. intros [_ Hw]. split; [exact Hw|reflexivity]. Qed.

Lemma keeps_durations s s' : keeps s s' -> durations_in_range s -> durations_in_range s'.
Proof.
  intros [_ E]. unfold durs in E. injection E. intros.
  unfold durations_in_range in *. congruence.
Qed.

Section DqCalculus.

Context {fw : Firmware} {cfg : BuildConfig} {hk : Hooks}.

Lemma dq_run {A} (c : M A) s w o :
  dq c -> wf s ->
  (exists a s' w' o',
     c {| st := s; env := w; out := o |} = Done a {| st := s'; env := w'; out := o' |}
     /\ keeps s s')
  \/ (exists f s' w' o',
     c {| st := s; env := w; out := o |} = Fault f {| st := s'; env := w'; out := o' |}
     /\ keeps s s').
Proof.
  intros Hc Hw. specialize (Hc s w o Hw). unfold always in Hc.
  destruct (c _) as [a [s' w' o']|f [s' w' o']]; [left|right]; eauto 6.
Qed.

Lemma dq_ret {A} (a : A) : dq (ret a).
Proof. intros s w o Hw. apply keeps_refl, Hw. Qed.

Lemma dq_gets {A} (f : pth_state -> A) : dq (gets f).
Proof. intros s w o Hw. apply keeps_refl, Hw. Qed.

Lemma dq_hook {A} (f : pth_state -> world -> A) : dq (hook f).
Proof. intros s w o Hw. apply keeps_refl, Hw. Qed.

Lemma dq_emit a : dq (emit a).
Proof. intros s w o Hw. apply keeps_refl, Hw. Qed.

Lemma dq_raise {A} f : dq (@raise fw A f).
Proof. intros s w o Hw. apply keeps_refl, Hw. Qed.

Lemma dq_bind {A B} (c : M A) (k : A -> M B) :
  dq c -> (forall a, dq (k a)) -> dq (bind c k).
Proof.
  intros Hc Hk s w o Hw. unfold always, bind.
  destruct (dq_run c s w o Hc Hw) as [(a & s1 & w1 & o1 & E1 & H1)
                                     |(f & s1 & w1 & o1 & E1 & H1)]; rewrite E1.
  - pose proof (Hk a s1 w1 o1 (proj1 H1)) as H2. unfold always in H2.
    destruct (k a _) as [b m2|f m2]; exact (keeps_trans _ _ _ H1 H2).
  - exact H1.
Qed.

Lemma dq_if {A} (b : bool) (c1 c2 : M A) : dq c1 -> dq c2 -> dq (if b then c1 else c2).
Proof. destruct b; auto. Qed.

Lemma dq_when b c : dq c -> dq (when b c).
Proof. intros H. unfold when. apply dq_if; [exact H|apply dq_ret]. Qed.

Lemma dq_modify g : (forall s, wf s -> keeps s (g s)) -> dq (modify g).
Proof. intros H s w o Hw. exact (H s Hw). Qed.

Lemma dq_of_tq {A} (c : M A) : tq c -> dq c.
Proof.
  intros Hc s w o Hw. destruct (tq_run c s w o Hc Hw) as (a & x & w' & o' & E & Hx).
  unfold always. rewrite E. apply keeps_havoc, Hx.
Qed.

Lemma dq_make_decision_tap : dq make_decision_tap.
Proof.
  intros s w o Hw. destruct (make_decision_tap_run s w o Hw) as (x & w' & o' & E & Hx).
  unfold always. rewrite E. destruct Hx as [_ Hx]. split; [exact Hx|].
  unfold decide. destruct (status_geb _ _); reflexivity.
Qed.

Lemma dq_make_decision_hold : dq make_decision_hold.
Proof.
  intros s w o Hw. destruct (make_decision_hold_run s w o Hw) as (x & w' & o' & E & Hx).
  unfold always. rewrite E. destruct Hx as [_ Hx]. split; [exact Hx|].
  unfold decide. destruct (status_geb _ _); reflexivity.
Qed.

Lemma dq_add_release_record r rt : dq (add_release_record r rt).
Proof.
  intros s w o Hw. unfold always. rewrite (add_release_record_run r rt s w o Hw).
  pose proof Hw as Hw0. wf_split Hw0. clear Hw.
  destruct s; cbn in *.
  match goal with
  | |- context [free_slot ?u] => destruct (free_slot u)
  end; cbv beta iota; (split; [wf_solve|reflexivity]).
Qed.

End DqCalculus.

Create HintDb dq.

#[global] Hint Resolve dq_ret dq_gets dq_hook dq_emit dq_raise dq_make_decision_tap
  dq_make_decision_hold dq_add_release_record : dq.

(** An assignment to a variable that is no duration. *)
Ltac dq_setter :=
  let s := fresh "s" in
  let Hw := fresh "Hw" in
  intros s Hw; wf_split Hw; destruct s; cbn in *; split; [wf_solve|reflexivity].

Ltac dq_auto :=
  repeat first
    [ solve [auto with dq]
    | apply dq_of_tq; solve [auto with tq]
    | apply dq_bind; [|intro]
    | apply dq_when
    | apply dq_if
    | apply dq_modify; dq_setter
    | match goal with
      | |- dq (match ?x with _ => _ end) => destruct x
      end
    | progress cbv zeta ].

Section DqEngine.

Context {fw : Firmware} {cfg : BuildConfig} {hk : Hooks}.

Lemma dq_reset_pth_state : dq reset_pth_state.
Proof. unfold reset_pth_state. dq_auto. Qed.

Lemma dq_reset_immediately_when_tap_chosen : dq reset_immediately_when_tap_chosen.
Proof.
  unfold reset_immediately_when_tap_chosen. pose proof dq_reset_pth_state. dq_auto.
Qed.

Lemma dq_make_user_choice_or_not : dq make_user_choice_or_not.
Proof.
  unfold make_user_choice_or_not.
  pose proof dq_reset_immediately_when_tap_chosen. dq_auto.
Qed.

Lemma dq_is_record_same_side_as_pth r : dq (is_record_same_side_as_pth r).
Proof. unfold is_record_same_side_as_pth. dq_auto. Qed.

Lemma dq_pth_key : dq pth_key.
Proof. apply dq_gets. Qed.

Lemma dq_second_key : dq second_key.
Proof. apply dq_gets. Qed.

End DqEngine.

#[global] Hint Resolve dq_reset_pth_state dq_reset_immediately_when_tap_chosen
  dq_make_user_choice_or_not dq_is_record_same_side_as_pth dq_pth_key dq_second_key : dq.


(* ------------------------------------------------------------------------- *)
(** ** Durations stay in range *)

Ltac use_add_release_record b :=
  lazymatch b with
  | add_release_record ?r ?rt (Build_machine ?S ?W ?O) =>
    let Hwf := fresh "Hwf" in
    assert (Hwf : wf S) by wf_solve;
    rewrite (add_release_record_run r rt S W O Hwf); clear Hwf
  end.

Ltac z_facts :=
  repeat match goal with
         | H : (_ =? _) = true |- _ => apply Z.eqb_eq in H
         | H : (_ =? _) = false |- _ => apply Z.eqb_neq in H
         | H : (_ >=? _) = true |- _ => rewrite Z.geb_leb in H; apply Z.leb_le in H
         | H : (_ >=? _) = false |- _ => rewrite Z.geb_leb in H; apply Z.leb_gt in H
         | H : (_ >? _) = true |- _ => rewrite Z.gtb_ltb in H; apply Z.ltb_lt in H
         | H : (_ >? _) = false |- _ => rewrite Z.gtb_ltb in H; apply Z.ltb_ge in H
         | H : (_ <=? _) = true |- _ => apply Z.leb_le in H
         | H : (_ <=? _) = false |- _ => apply Z.leb_gt in H
         | H : (_ <? _) = true |- _ => apply Z.ltb_lt in H
         | H : (_ <? _) = false |- _ => apply Z.ltb_ge in H
         end.

(** What the timers' freshness gives on the path at hand. *)
Ltac use_fresh :=
  repeat match goal with
         | H : false = false -> _ |- _ => specialize (H eq_refl)
         | H : true = false -> _ |- _ => clear H
         | H : ?a = ?a \/ _ -> _ |- _ => specialize (H (or_introl eq_refl))
         | H : _ \/ ?a = ?a -> _ |- _ => specialize (H (or_intror eq_refl))
         | H : ?a = ?a -> _ |- _ => specialize (H eq_refl)
         | H : ?a = ?b \/ ?c = ?d -> _ |- _ => clear H
         | H : ?a = ?b -> _ |- _ =>
           lazymatch type of a with pth_status_t => clear H end
         | H : 2 <= ?d -> _ |- _ =>
           first [ let P := fresh in assert (P : 2 <= d) by lia; specialize (H P); clear P
                 | clear H ]
         end.

Ltac forget_hooks :=
  repeat match goal with
         | H : context [Build_pth_state] |- _ => clear H
         end.

Ltac dur_field :=
  repeat match goal with
         | |- context [if ?b then _ else _] => destruct b eqn:?
         end;
  z_facts;
  repeat match goal with
         | H : context [u8 (u8 (?d + 1) - 1)] |- _ =>
           rewrite (down_count_before d) in H by lia
         end;
  repeat match goal with
         | H : context [u8 (?d + 1)] |- _ =>
           lazymatch goal with
           | _ : u8 (d + 1) = d + 1 \/ _ |- _ => fail
           | _ => pose proof (u8_succ d ltac:(lia))
           end
         end;
  use_fresh;
  rewrite ?diff_self;
  repeat match goal with
         | |- context [TIMER_DIFF_16 ?a ?b] =>
           lazymatch goal with
           | _ : 0 <= TIMER_DIFF_16 a b < 65536 |- _ => fail
           | _ => pose proof (diff_range a b)
           end
         end;
  repeat match goal with
         | |- context [u8 ?a] =>
           lazymatch goal with
           | _ : 0 <= u8 a < 256 |- _ => fail
           | _ => pose proof (u8_range a)
           end
         end;
  rewrite ?i16_small by lia;
  lia.

Ltac dur_close :=
  forget_hooks;
  split; [wf_solve|];
  unfold durations_in_range, is_dur, is_dur_or_none; fields_goal;
  unfold saturated_diff, MS_MAX_DUR_FOR_TIMERS in *;
  do 13 (split; [first [ assumption | dur_field ]|]);
  first [ assumption | dur_field ].

Lemma flag_kept (r c : bool) :
  (if (if (if r then false else true) then c else false) then true else r) = false ->
  r = false /\ c = false.
Proof. destruct r, c; intros H; try discriminate H; split; reflexivity. Qed.

Lemma flag_kept_when (r d c : bool) :
  (if (if (if (if r then false else true) then d else false) then c else false)
   then true else r) = false ->
  r = false /\ (d = false \/ c = false).
Proof. destruct r, d, c; intros H; try discriminate H; auto. Qed.

Ltac fresh_field :=
  intros;
  repeat match goal with
         | H : _ \/ _ |- _ => destruct H
         end;
  try discriminate;
  repeat match goal with
         | H : (if (if (if ?r then false else true) then ?c else false)
                then true else ?r) = false |- _ =>
           apply flag_kept in H; destruct H as [? ?]
         | H : (if (if (if (if ?r then false else true) then ?d else false)
                    then ?c else false) then true else ?r) = false |- _ =>
           apply flag_kept_when in H; destruct H as [? [?|?]]
         end;
  repeat match goal with
         | H : context [if ?b then _ else _] |- _ => destruct b eqn:?; try discriminate
         end;
  z_facts; unfold MS_MAX_DUR_FOR_TIMERS in *; lia.

(** The equations that say where a hook's answer came from are not needed
    for the ranges. *)
Ltac fresh_close :=
  forget_hooks; z_facts; unfold MS_MAX_DUR_FOR_TIMERS in *;
  split; [wf_solve|]; split;
  [ unfold durations_in_range, is_dur, is_dur_or_none; fields_goal;
    do 13 (split; [assumption|]); assumption
  | unfold timers_fresh, fresh, now; fields_goal;
    do 4 (split; [fresh_field|]); fresh_field ].

(** The rest of a case, from the point where the durations have been
    taken: it is named, and run as a whole. *)
Ltac name_rest :=
  match goal with
  | |- context [bind (hook pth_get_code_to_be_registered_instead_when_hold_chosen) ?k] =>
    let rest := fresh "rest" in
    set (rest := bind (hook pth_get_code_to_be_registered_instead_when_hold_chosen) k)
  | |- context [bind (gets (fun s => pth_was_held_instantly s && instant_layer_was_active s
                                     && (second_keycode s =? KC_NO))) ?k] =>
    let rest := fresh "rest" in
    set (rest := bind (gets (fun s => pth_was_held_instantly s && instant_layer_was_active s
                                      && (second_keycode s =? KC_NO))) k)
  | |- context [bind (hook pth_predict_hold_when_third_press) ?k] =>
    let rest := fresh "rest" in
    set (rest := bind (hook pth_predict_hold_when_third_press) k)
  | _ => idtac
  end.

Ltac subst_fields :=
  repeat match goal with
         | H : ?x = _ |- _ => is_var x; subst x
         end.

Ltac use_rest b :=
  lazymatch b with
  | ?K (Build_machine ?S ?W ?O) =>
    is_var K;
    let Hq := fresh "Hq" in
    let Hwf := fresh "Hwf" in
    let E := fresh "E" in
    let Hk := fresh "Hk" in
    let Hw' := fresh "Hw" in
    let Hd' := fresh "Hd" in
    let s' := fresh "s" in
    assert (Hq : dq K) by (unfold K; dq_auto);
    assert (Hwf : wf S) by wf_solve;
    destruct (dq_run K S W O Hq Hwf)
      as [(? & s' & ? & ? & E & Hk)|(? & s' & ? & ? & E & Hk)];
    clear Hq Hwf; rewrite E; clear E; clear K;
    destruct Hk as [Hw' Hd']; unfold durs in Hd';
    destruct s'; fields_in Hd'; injection Hd'; clear Hd'; intros; subst_fields;
    wf_split Hw'
  end.

(** Two branches that differ in what they write to a timer's flag are one
    path: the flag is written with a conditional value. *)
Ltac merged p b S1 S2 :=
  let x1 := eval run_flat in (p S1) in
  let x2 := eval run_flat in (p S2) in
  match x1 with
  | x2 => x2
  | _ => constr:(if b then x1 else x2)
  end.

Ltac merge_flags :=
  match goal with
  | |- context [?t (Build_machine ?S0 ?W ?O)] =>
    lazymatch t with
    | if ?b then ?c1 else ?c2 =>
      let r1 := eval run_flat in (c1 (Build_machine S0 W O)) in
      let r2 := eval run_flat in (c2 (Build_machine S0 W O)) in
      lazymatch r1 with
      | Done tt (Build_machine ?S1 W O) =>
        lazymatch r2 with
        | Done tt (Build_machine ?S2 W O) =>
          let f1 := merged release_timer_max_reached b S1 S2 in
          let f2 := merged overlap_timer_max_reached b S1 S2 in
          let f3 := merged press_to_press_timer_max_reached b S1 S2 in
          let S := eval run_flat in
            (set_release_timer_max_reached f1
               (set_overlap_timer_max_reached f2
                  (set_press_to_press_timer_max_reached f3 S2))) in
          replace (t (Build_machine S0 W O))
            with (Done tt (Build_machine S W O)) by (destruct b; reflexivity)
        end
      end
    end
  end.

Ltac unfold_case b :=
  lazymatch b with
  | case_PTH_IDLE _ _ _ _ _ => unfold case_PTH_IDLE; name_rest
  | case_PTH_PRESSED _ _ _ _ _ => unfold case_PTH_PRESSED; name_rest
  | case_PTH_SECOND_PRESSED _ _ _ _ _ => unfold case_PTH_SECOND_PRESSED; name_rest
  end.

Ltac engine3 b :=
  first [ merge_flags | use_rest b | use_decision b | use_add_release_record b | use_tq_auto b
        | unfold_case b | unfold_head b ].


Section Durations.

Context {fw : Firmware} {cfg : BuildConfig} {hk : Hooks}.

Lemma event_keeps_durations keycode record s w o :
  wf s -> durations_in_range s -> timers_fresh 4096 (now w) s ->
  always (process_record_predictive_tap_hold keycode record)
         (fun m' => wf (st m') /\ durations_in_range (st m'))
         {| st := s; env := w; out := o |}.
Proof.
  intros Hw Hd Hf. pose proof Hw as Hw0. wf_split Hw0.
  unfold durations_in_range, is_dur, is_dur_or_none in Hd.
  unfold timers_fresh, fresh, now in Hf.
  destruct (pth_status s) eqn:Hst.
  all: destruct s; cbn in *; subst.
  all: unfold always, process_record_predictive_tap_hold.
  all: flat engine3.
  all: clear Hw.
  all: destruct Hd as (? & ? & ? & ? & ? & ? & ? & ? & ? & ? & ? & ? & ? & ?).
  all: destruct Hf as (? & ? & ? & ? & ?).
  all: dur_close.
Qed.

Lemma housekeeping_refreshes_timers s w o :
  wf s -> durations_in_range s ->
  always housekeeping_task_predictive_tap_hold
         (fun m' => wf (st m') /\ durations_in_range (st m')
                    /\ timers_fresh 4095 (now w) (st m'))
         {| st := s; env := w; out := o |}.
Proof.
  intros Hw Hd. pose proof Hw as Hw0. wf_split Hw0.
  unfold durations_in_range, is_dur, is_dur_or_none in Hd.
  destruct (pth_status s) eqn:Hst.
  all: destruct s; cbn in *; subst.
  all: unfold always, housekeeping_task_predictive_tap_hold.
  all: clear Hw.
  all: flat engine3.
  all: destruct Hd as (? & ? & ? & ? & ? & ? & ? & ? & ? & ? & ? & ? & ? & ?).
  all: fresh_close.
Qed.



Lemma dq_keyboard_post_init : dq keyboard_post_init_predictive_tap_hold.
Proof. unfold keyboard_post_init_predictive_tap_hold, timer_read. dq_auto. Qed.

Lemma timers_fresh_later a b s :
  timers_fresh 4095 a s -> TIMER_DIFF_16 b a <= 1 -> timers_fresh 4096 b s.
Proof.
  unfold timers_fresh, fresh. intros (H1 & H2 & H3 & H4 & H5) Hd.
  repeat split; intros; eapply diff_later; eauto.
Qed.

Lemma final_run_cons c cs m :
  final (run (c :: cs) m)
  = match do_call c m with
    | Done _ m' => final (run cs m')
    | Fault _ m' => m'
    end.
Proof. cbn [run]. destruct (do_call c m); [destruct cs|]; reflexivity. Qed.

Lemma durations_in_rangeb_ok s : durations_in_rangeb s = true -> durations_in_range s.
Proof.
  unfold durations_in_rangeb, durations_in_range, in_dur_range, is_dur, is_dur_or_none.
  rewrite !andb_true_iff, !Z.leb_le, !Z.ltb_lt. intuition.
Qed.

(** One call keeps the caches well formed and the durations in range: an
    event when the timers are fresh, the other two calls always.  After a
    housekeeping call the timers are fresh. *)
Lemma call_keeps_durations c m :
  wf (st m) -> durations_in_range (st m) ->
  match c with
  | Call_process_record _ _ w => timers_fresh 4096 (now w) (st m)
  | _ => True
  end ->
  match do_call c m with
  | Done _ m' =>
    wf (st m') /\ durations_in_range (st m')
    /\ match c with
       | Call_housekeeping w => timers_fresh 4095 (now w) (st m')
       | _ => True
       end
  | Fault _ m' => wf (st m') /\ durations_in_range (st m')
  end.
Proof.
  intros Hw Hd Hf. destruct m as [s w0 o]. cbn [st] in *.
  destruct c as [w|kc r w|w]; unfold do_call, enter; cbn [st env out].
  - pose proof (dq_keyboard_post_init s w o Hw) as H. unfold always in H.
    unfold bind. destruct (keyboard_post_init_predictive_tap_hold _) as [a m'|f m'].
    + unfold ret. split; [exact (proj1 H)|]. split; [|exact I].
      exact (keeps_durations _ _ H Hd).
    + split; [exact (proj1 H)|exact (keeps_durations _ _ H Hd)].
  - pose proof (event_keeps_durations kc r s w o Hw Hd Hf) as H. unfold always in H.
    destruct (process_record_predictive_tap_hold _ _ _) as [a m'|f m'].
    + split; [exact (proj1 H)|]. split; [exact (proj2 H)|exact I].
    + exact H.
  - pose proof (housekeeping_refreshes_timers s w o Hw Hd) as H. unfold always in H.
    unfold bind. destruct (housekeeping_task_predictive_tap_hold _) as [a m'|f m'].
    + unfold ret. exact H.
    + split; [exact (proj1 H)|exact (proj1 (proj2 H))].
Qed.

Lemma paced_runs cs : forall m,
  wf (st m) -> durations_in_range (st m) ->
  (paced cs = true ->
   wf (st (final (run cs m))) /\ durations_in_range (st (final (run cs m))))
  /\ (forall w, timers_fresh 4095 (now w) (st m) -> paced_after w cs = true ->
      wf (st (final (run cs m))) /\ durations_in_range (st (final (run cs m)))).
Proof.
  induction cs as [|c cs IH]; intros m Hw Hd.
  - split; [intros _|intros w _ _]; split; assumption.
  - assert (Hplain : (match c with Call_process_record _ _ _ => False | _ => True end) ->
                     paced (c :: cs) = true ->
                     wf (st (final (run (c :: cs) m)))
                     /\ durations_in_range (st (final (run (c :: cs) m)))).
    { intros Hc Hp. rewrite final_run_cons.
      pose proof (call_keeps_durations c m Hw Hd) as H.
      destruct c as [w|kc r w|w]; [|contradiction|]; specialize (H I).
      - destruct (do_call _ m) as [b m'|f m'].
        + destruct H as (Hw' & Hd' & _). apply (IH m' Hw' Hd'). exact Hp.
        + exact H.
      - destruct (do_call _ m) as [b m'|f m'].
        + destruct H as (Hw' & Hd' & Hf'). apply (proj2 (IH m' Hw' Hd') w Hf').
          destruct cs as [|[w1|kc1 r1 w1|w1] cs']; exact Hp.
        + exact H. }
    split.
    + intros Hp. apply Hplain; [|exact Hp].
      destruct c; [exact I|discriminate Hp|exact I].
    + intros w Hf Hp. destruct c as [w1|kc r w1|w1].
      * apply Hplain; [exact I|exact Hp].
      * cbn [paced_after] in Hp. apply andb_true_iff in Hp. destruct Hp as [Hdiff Hp].
        apply Z.leb_le in Hdiff. rewrite final_run_cons.
        pose proof (call_keeps_durations (Call_process_record kc r w1) m Hw Hd
                      (timers_fresh_later _ _ _ Hf Hdiff)) as H.
        destruct (do_call _ m) as [b m'|f m'].
        -- destruct H as (Hw' & Hd' & _). apply (IH m' Hw' Hd'). exact Hp.
        -- exact H.
      * apply Hplain; [exact I|exact Hp].
Qed.

End Durations.


(* ------------------------------------------------------------------------- *)
(** ** Code that sends nothing *)

Section SqCalculus.

Context {fw : Firmware} {cfg : BuildConfig} {hk : Hooks}.
Context {V : Type} (view : pth_state -> V).

Lemma sq_ret {A} (a : A) : sq view (ret a).
Proof. intros s w o Hw. exists a, s. auto. Qed.

Lemma sq_gets {A} (f : pth_state -> A) : sq view (gets f).
Proof. intros s w o Hw. exists (f s), s. auto. Qed.

Lemma sq_hook {A} (f : pth_state -> world -> A) : sq view (hook f).
Proof. intros s w o Hw. exists (f s w), s. auto. Qed.

Lemma sq_bind {A B} (c : M A) (k : A -> M B) :
  sq view c -> (forall a, sq view (k a)) -> sq view (bind c k).
Proof.
  intros Hc Hk s w o Hw.
  destruct (Hc s w o Hw) as (a & s1 & E1 & Hw1 & Hv1).
  destruct (Hk a s1 w o Hw1) as (b & s2 & E2 & Hw2 & Hv2).
  exists b, s2. unfold bind. rewrite E1, E2. split; [reflexivity|]. split; [exact Hw2|].
  congruence.
Qed.

Lemma sq_if {A} (b : bool) (c1 c2 : M A) :
  sq view c1 -> sq view c2 -> sq view (if b then c1 else c2).
Proof. destruct b; auto. Qed.

Lemma sq_when b c : sq view c -> sq view (when b c).
Proof. intros H. unfold when. apply sq_if; [exact H|apply sq_ret]. Qed.

Lemma sq_modify g :
  (forall s, wf s -> wf (g s) /\ view (g s) = view s) -> sq view (modify g).
Proof. intros H s w o Hw. exists tt, (g s). split; [reflexivity|]. exact (H s Hw). Qed.

End SqCalculus.

Ltac sq_auto :=
  repeat first
    [ apply sq_ret
    | apply sq_gets
    | apply sq_hook
    | apply sq_bind; [|intro]
    | apply sq_when
    | apply sq_if
    | apply sq_modify; dq_setter
    | progress cbv zeta ].

Section Tracker.

Context {fw : Firmware} {cfg : BuildConfig} {hk : Hooks}.

Lemma sq_collect p t :
  sq untracked (collect_new_press_to_press_and_overlap_duration p t).
Proof. unfold collect_new_press_to_press_and_overlap_duration. sq_auto. Qed.

Lemma sq_store : sq untracked store_press_to_press_and_overlap_for_pth.
Proof.
  unfold store_press_to_press_and_overlap_for_pth, timer_elapsed, timer_read. sq_auto.
Qed.

End Tracker.


(* ------------------------------------------------------------------------- *)
(** ** A lone tap, step by step *)

Lemma taps_of_app k l1 l2 : taps_of k (l1 ++ l2) = taps_of k l1 ++ taps_of k l2.
Proof.
  induction l1 as [|a l1 IH]; [reflexivity|]. cbn [app]. unfold taps_of; fold taps_of.
  destruct (tap_of k a); cbn [app]; rewrite IH; reflexivity.
Qed.

Lemma slot_of_added used l k i :
  0 <= used < 256 -> length l = 8%nat -> free_slot used = Some i ->
  slot_of (set_bit used i) (list_set (Z.to_nat i) k l) k <> None.
Proof.
  intros Hu Hl Hf. pose proof (free_bit used Hu) as Hb. rewrite Hf in Hb.
  destruct Hb as (Hi & _ & _ & _ & Hset & _).
  unfold slot_of. intros Hn.
  pose proof (find_none _ _ Hn i ltac:(apply in_slots; exact Hi)) as H.
  unfold holds in H. rewrite Hset, nth_list_set, keypos_eq_refl in H by lia.
  discriminate H.
Qed.

Section LoneSpecs.

Context {fw : Firmware} {cfg : BuildConfig} {hk : Hooks}.

Lemma process_release_records_none rt wait s w o :
  used_release_records_bitmask s = 0 ->
  process_release_records rt wait {| st := s; env := w; out := o |}
  = Done false {| st := s; env := w; out := o |}.
Proof.
  intros H. unfold process_release_records. rewrite bind_gets.
  unfold get_to_be_released_bitmask. rewrite H, Z.land_0_l. reflexivity.
Qed.

Lemma remove_pos_absent pos s w o :
  wf s ->
  slot_of (used_release_as_tap_positions_bitmask s) (release_as_tap_positions s) pos = None ->
  remove_pos_from_tap_releases pos {| st := s; env := w; out := o |}
  = Done false {| st := s; env := w; out := o |}.
Proof.
  intros Hw H. rewrite (remove_pos_from_tap_releases_run pos s w o Hw).
  unfold tap_release_slot. rewrite H. reflexivity.
Qed.

Lemma remove_pos_present pos s w o i :
  wf s ->
  slot_of (used_release_as_tap_positions_bitmask s) (release_as_tap_positions s) pos
  = Some i ->
  remove_pos_from_tap_releases pos {| st := s; env := w; out := o |}
  = Done true
      {| st := set_used_release_as_tap_positions_bitmask
                 (clear_bit (used_release_as_tap_positions_bitmask s) i) s;
         env := w; out := o |}.
Proof.
  intros Hw H. rewrite (remove_pos_from_tap_releases_run pos s w o Hw).
  unfold without_tap_release, tap_release_slot. rewrite H. reflexivity.
Qed.

Lemma add_pos_at pos s w o i :
  wf s ->
  free_slot (used_release_as_tap_positions_bitmask s) = Some i ->
  add_pos_to_tap_releases pos {| st := s; env := w; out := o |}
  = Done tt
      {| st := set_used_release_as_tap_positions_bitmask
                 (set_bit (used_release_as_tap_positions_bitmask s) i)
                 (set_release_as_tap_positions
                    (list_set (Z.to_nat i) pos (release_as_tap_positions s)) s);
         env := w; out := o |}.
Proof.
  intros Hw H. rewrite (add_pos_to_tap_releases_run pos s w o Hw).
  unfold with_tap_release. rewrite H. reflexivity.
Qed.

End LoneSpecs.

Ltac use_no_records b :=
  lazymatch b with
  | process_release_records ?rt ?wt (Build_machine ?S ?W ?O) =>
    rewrite (process_release_records_none rt wt S W O eq_refl)
  end.

(** The tap-release set, where the slot in question is known. *)
Ltac use_remove b :=
  lazymatch b with
  | remove_pos_from_tap_releases ?pos (Build_machine ?S ?W ?O) =>
    let Hwf := fresh "Hwf" in
    assert (Hwf : wf S) by wf_solve;
    match goal with
    | H : slot_of _ _ pos = None |- _ =>
      rewrite (remove_pos_absent pos S W O Hwf H)
    | H : slot_of _ _ pos = Some ?i |- _ =>
      rewrite (remove_pos_present pos S W O i Hwf H)
    end; clear Hwf
  end.

Ltac use_add b :=
  lazymatch b with
  | add_pos_to_tap_releases ?pos (Build_machine ?S ?W ?O) =>
    let Hwf := fresh "Hwf" in
    assert (Hwf : wf S) by wf_solve;
    match goal with
    | H : free_slot _ = Some ?i |- _ =>
      rewrite (add_pos_at pos S W O i Hwf H)
    end; clear Hwf
  end.

Ltac after_sq s' E Hw' Hv :=
  rewrite E; clear E;
  destruct s'; unfold untracked in Hv; fields_in Hv;
  repeat match goal with
         | H : (_, _) = (_, _) |- _ => injection H; clear H; intros
         end;
  subst_fields; wf_split Hw'.

Ltac use_tracker b :=
  lazymatch b with
  | collect_new_press_to_press_and_overlap_duration ?p ?t (Build_machine ?S ?W ?O) =>
    let Hwf := fresh "Hwf" in
    let E := fresh "E" in
    let Hw' := fresh "Hw" in
    let Hv := fresh "Hview" in
    let s' := fresh "s" in
    assert (Hwf : wf S) by wf_solve;
    destruct (sq_collect p t S W O Hwf) as (? & s' & E & Hw' & Hv); clear Hwf;
    after_sq s' E Hw' Hv
  | store_press_to_press_and_overlap_for_pth (Build_machine ?S ?W ?O) =>
    let Hwf := fresh "Hwf" in
    let E := fresh "E" in
    let Hw' := fresh "Hw" in
    let Hv := fresh "Hview" in
    let s' := fresh "s" in
    assert (Hwf : wf S) by wf_solve;
    destruct (sq_store S W O Hwf) as (? & s' & E & Hw' & Hv); clear Hwf;
    after_sq s' E Hw' Hv
  end.

(** The timeout a press got is not 0. *)
Ltac use_timeout b :=
  lazymatch b with
  | ?v =? 0 =>
    match goal with
    | Hv : pth_get_timeout_for_forcing_choice ?S ?W = v,
      Hn : forall s, not_forced (pth_get_timeout_for_forcing_choice s ?W) _ _ |- _ =>
      let H := fresh "Hnot" in
      pose proof (Hn S) as H; rewrite Hv in H;
      replace (v =? 0) with false by (symmetry; apply Z.eqb_neq; exact (proj1 H))
    end
  end.

Ltac unfold_exact b :=
  lazymatch b with
  | make_decision_tap _ => unfold make_decision_tap
  | at_pth_record _ _ => unfold at_pth_record
  | at_second_record _ _ => unfold at_second_record
  | process_register_record _ _ => unfold process_register_record
  | process_unregister_record _ _ => unfold process_unregister_record
  | process_register_record_as_hold _ _ => unfold process_register_record_as_hold
  | process_unregister_record_as_hold _ _ => unfold process_unregister_record_as_hold
  | process_register_record_as_tap _ _ => unfold process_register_record_as_tap
  | process_unregister_record_as_tap _ _ => unfold process_unregister_record_as_tap
  | process_record_with_new_time _ _ => unfold process_record_with_new_time
  | send_and_wait _ => unfold send_and_wait
  | should_neutralize_mods _ _ _ => unfold should_neutralize_mods
  | get_keycode_same_pos_in_layer _ _ _ => unfold get_keycode_same_pos_in_layer
  | tap_code16 _ _ => unfold tap_code16
  | process_release_records_and_wait_before_first _ _ =>
    unfold process_release_records_and_wait_before_first
  end.

Ltac engine_exact b :=
  first [ merge_flags | use_timeout b | use_tracker b | use_no_records b | use_remove b
        | use_add b | unfold_exact b | unfold_head b ].

(** What was sent, and the taps in it. *)
Ltac sent_solve :=
  rewrite <- ?app_assoc; cbn [app];
  first [ reflexivity | symmetry; apply app_nil_r ].

Ltac taps_solve :=
  cbn; rewrite ?keypos_eq_refl; cbn; reflexivity.

Ltac lone_inv_solve :=
  unfold lone_inv; split; [wf_solve|];
  unfold tap_release_slot; fields_goal;
  repeat split;
  first [ reflexivity | assumption
        | apply slot_of_added; assumption
        | match goal with
          | H : not_forced _ _ _ |- _ => first [ exact (proj1 H) | exact (proj2 H) ]
          end ].

Ltac lone_mode_solve mode :=
  exists mode; eexists; split; [sent_solve|]; split; [taps_solve|lone_inv_solve].

Section LoneSteps.

Context {fw : Firmware} {cfg : BuildConfig} {hk : Hooks}.

Lemma press_lone keycode press w1 ticks s o :
  lone_ready (key (event press)) s ->
  pth_is_tap_hold_keycode keycode = true ->
  IS_KEYEVENT (event press) = true ->
  yields_to_qmk keycode press w1 = false ->
  pressed (event press) = true ->
  (forall s, not_forced (pth_get_timeout_for_forcing_choice s w1) (now w1) ticks) ->
  wp (process_record_predictive_tap_hold keycode press)
     (fun b m' =>
        b = false
        /\ exists mode sent,
             out m' = o ++ sent
             /\ taps_of (key (event press)) sent = taps_so_far mode
             /\ lone_inv (key (event press)) (now w1) ticks mode (st m'))
     {| st := s; env := w1; out := o |}.
Proof.
  intros (Hw & Hst & Hsec & Hrel & Hslot & Hfree) Hth Hev Hy Hp Hn.
  pose proof Hw as Hw0. wf_split Hw0.
  destruct (free_slot (used_release_as_tap_positions_bitmask s)) as [i0|] eqn:Hfree0;
    [clear Hfree|contradiction].
  unfold tap_release_slot in Hslot.
  destruct press as [[k p t ty] tp]. cbn [event key pressed] in *. subst p.
  destruct s; cbn in *; subst.
  unfold process_record_predictive_tap_hold.
  flat engine_exact.
  all: forget_hooks.
  all: (split; [reflexivity|]).
  all: first [ congruence | lone_mode_solve Waiting | lone_mode_solve Tapped
             | lone_mode_solve Tapped_and_reset ].
Qed.

Lemma not_forced_tail t t0 w ticks :
  not_forced t t0 (w :: ticks) ->
  not_forced t t0 ticks
  /\ ((t >? 0) = true -> (TIMER_DIFF_16 (u16 (timer_read32 w)) t0 >=? t) = false).
Proof.
  intros [Hnz Hf]. split.
  - split; [exact Hnz|]. intros Hpos. specialize (Hf Hpos). inversion Hf. assumption.
  - intros Hpos. rewrite Z.gtb_ltb in Hpos. apply Z.ltb_lt in Hpos.
    specialize (Hf Hpos). inversion Hf as [|? ? Hd _]. subst.
    rewrite Z.geb_leb. apply Z.leb_gt. exact Hd.
Qed.

Lemma tick_lone k t0 w ticks mode s o :
  lone_inv k t0 (w :: ticks) mode s ->
  wp housekeeping_task_predictive_tap_hold
     (fun _ m' => out m' = o /\ lone_inv k t0 ticks mode (st m'))
     {| st := s; env := w; out := o |}.
Proof.
  intros [Hw Hi]. pose proof Hw as Hw0. wf_split Hw0.
  unfold tap_release_slot in Hi.
  destruct mode.
  - destruct Hi as (Hst & Hk & Hsec & Hrel & Hslot & Ht0 & Hnf).
    apply not_forced_tail in Hnf. destruct Hnf as [Hnf Hno].
    destruct s; cbn in *; subst.
    match type of Hno with
    | (?t >? 0) = true -> _ =>
      destruct (t >? 0) eqn:Hpos; [specialize (Hno eq_refl)|clear Hno]
    end.
    all: unfold housekeeping_task_predictive_tap_hold.
    all: flat engine_exact.
    all: forget_hooks.
    all: (split; [reflexivity|lone_inv_solve]).
  - destruct Hi as (Hst & Hk & Hslot).
    destruct s; cbn in *; subst.
    unfold housekeeping_task_predictive_tap_hold.
    flat engine_exact.
    all: forget_hooks.
    all: (split; [reflexivity|lone_inv_solve]).
  - destruct Hi as (Hst & Hslot).
    destruct s; cbn in *; subst.
    unfold housekeeping_task_predictive_tap_hold.
    flat engine_exact.
    all: forget_hooks.
    all: (split; [reflexivity|lone_inv_solve]).
Qed.

Lemma release_lone keycode release k t0 w2 mode s o :
  lone_inv k t0 [] mode s ->
  IS_KEYEVENT (event release) = true ->
  yields_to_qmk keycode release w2 = false ->
  pressed (event release) = false ->
  key (event release) = k ->
  wp (process_record_predictive_tap_hold keycode release)
     (fun b m' =>
        b = false
        /\ pth_status (st m') = PTH_IDLE
        /\ exists sent,
             out m' = o ++ sent
             /\ taps_so_far mode ++ taps_of k sent = [true; false])
     {| st := s; env := w2; out := o |}.
Proof.
  intros [Hw Hi] Hev Hy Hp Hkey. pose proof Hw as Hw0. wf_split Hw0.
  unfold tap_release_slot in Hi.
  destruct release as [[rk rp rt rty] rtp]. cbn [event key pressed] in *. subst rp rk.
  pose proof (keypos_eq_refl k) as Hkk.
  destruct mode.
  - destruct Hi as (Hst & Hk & Hsec & Hrel & Hslot & Ht0 & Hnf).
    destruct s; cbn in *.
    match type of Hk with
    | key (event ?r) = _ => destruct r as [[pk pp pt pty] ptp]
    end.
    cbn [event key] in *; subst.
    unfold process_record_predictive_tap_hold.
    flat engine_exact.
    all: forget_hooks.
    all: (split; [reflexivity|split; [reflexivity|]]).
    all: (eexists; split; [sent_solve|taps_solve]).
  - destruct Hi as (Hst & Hk & Hslot).
    destruct s; cbn in *.
    match type of Hk with
    | key (event ?r) = _ => destruct r as [[pk pp pt pty] ptp]
    end.
    cbn [event key] in *; subst.
    unfold process_record_predictive_tap_hold.
    flat engine_exact.
    all: forget_hooks.
    all: (split; [reflexivity|split; [reflexivity|]]).
    all: (eexists; split; [sent_solve|taps_solve]).
  - destruct Hi as (Hst & Hslot).
    destruct s; cbn in *; subst.
    match type of Hslot with
    | ?t <> None => destruct t as [j|] eqn:Hj; [clear Hslot|contradiction]
    end.
    unfold process_record_predictive_tap_hold.
    flat engine_exact.
    all: forget_hooks.
    all: (split; [reflexivity|split; [reflexivity|]]).
    all: (eexists; split; [sent_solve|taps_solve]).
Qed.

Lemma run_cons_app c l x m :
  run (c :: l ++ [x]) m
  = match do_call c m with
    | Done _ m' => run (l ++ [x]) m'
    | Fault f m' => Fault f m'
    end.
Proof. cbn [run]. destruct (do_call c m); [destruct l|]; reflexivity. Qed.

Lemma ticks_then_release keycode release k t0 w2 :
  IS_KEYEVENT (event release) = true ->
  yields_to_qmk keycode release w2 = false ->
  pressed (event release) = false ->
  key (event release) = k ->
  forall ticks mode m,
  lone_inv k t0 ticks mode (st m) ->
  wp (run (map Call_housekeeping ticks ++ [Call_process_record keycode release w2]))
     (fun b m' =>
        b = false
        /\ pth_status (st m') = PTH_IDLE
        /\ exists sent,
             out m' = out m ++ sent
             /\ taps_so_far mode ++ taps_of k sent = [true; false])
     m.
Proof.
  intros Hev Hy Hp Hkey. induction ticks as [|w ticks IH]; intros mode [s w0 o] Hi.
  - cbn [map app run do_call enter st env out] in *.
    pose proof (release_lone keycode release k t0 w2 mode s o Hi Hev Hy Hp Hkey) as H.
    unfold wp in *. destruct (process_record_predictive_tap_hold _ _ _); exact H.
  - cbn [map app]. unfold wp. rewrite run_cons_app. cbn [do_call enter st env out] in *.
    pose proof (tick_lone k t0 w ticks mode s o Hi) as H. unfold wp in H.
    unfold bind. destruct (housekeeping_task_predictive_tap_hold _) as [a [s1 w1 o1]|];
      [|contradiction].
    cbn [st out] in H. destruct H as [Ho H1]. subst o1. unfold ret.
    exact (IH mode {| st := s1; env := w1; out := o |} H1).
Qed.

Lemma press_then_release keycode press release w1 ticks w2 m :
  lone_ready (key (event press)) (st m) ->
  pth_is_tap_hold_keycode keycode = true ->
  IS_KEYEVENT (event press) = true ->
  IS_KEYEVENT (event release) = true ->
  yields_to_qmk keycode press w1 = false ->
  yields_to_qmk keycode release w2 = false ->
  pressed (event press) = true ->
  pressed (event release) = false ->
  key (event release) = key (event press) ->
  (forall s, not_forced (pth_get_timeout_for_forcing_choice s w1) (now w1) ticks) ->
  wp (run (lone_tap_calls keycode press release w1 ticks w2))
     (fun b m' =>
        b = false
        /\ pth_status (st m') = PTH_IDLE
        /\ exists sent,
             out m' = out m ++ sent
             /\ taps_of (key (event press)) sent = [true; false])
     m.
Proof.
  intros Hr Hth Hev1 Hev2 Hy1 Hy2 Hp1 Hp2 Hkey Hn. destruct m as [s w0 o].
  unfold lone_tap_calls, wp. rewrite run_cons_app. cbn [do_call enter st env out] in *.
  pose proof (press_lone keycode press w1 ticks s o Hr Hth Hev1 Hy1 Hp1 Hn) as H.
  unfold wp in H.
  destruct (process_record_predictive_tap_hold keycode press _) as [b [s1 w1' o1]|];
    [|contradiction].
  cbn [st out] in H. destruct H as (_ & mode & e1 & Ho & Ht & Hi). subst o1.
  pose proof (ticks_then_release keycode release (key (event press)) (now w1) w2
                Hev2 Hy2 Hp2 Hkey ticks mode
                {| st := s1; env := w1'; out := o ++ e1 |} Hi) as H.
  unfold wp in H. destruct (run _ _) as [b' m'|]; [|contradiction].
  cbn [out] in H. destruct H as (Hb & Hs & e2 & Ho & Ht2).
  split; [exact Hb|]. split; [exact Hs|].
  exists (e1 ++ e2). split; [rewrite Ho, app_assoc; reflexivity|].
  rewrite taps_of_app, Ht. exact Ht2.
Qed.

End LoneSteps.

(* ------------------------------------------------------------------------- *)
(** ** The side table *)

(** C4: for every pair of atoms, with Left = 00, Right = 01, Opposite = 10
    and Same = 11, the 16-entry table of [is_same_side_as_pth], indexed by
    [(pth_atom << 2) | other_atom], answers as the rules of the
    specification do: different when the other key is Opposite, same when it
    is Same, otherwise different when the PTH is Opposite, same when it is
    Same, otherwise same exactly when the two absolute atoms are equal. *)
Theorem is_same_side_as_pth_follows_the_rules (pth other : atom) (s : pth_state) :
  is_same_side_as_pth (atom_code other) (set_pth_atomic_side (atom_code pth) s)
  = same_side_by_the_rules pth other.
Proof. destruct pth, other; reflexivity. Qed.

(* ------------------------------------------------------------------------- *)
(** ** Streak keys *)

Section Streak.

Context {fw : Firmware} {cfg : BuildConfig}.

(** C9, as the code has it: [pth_is_fast_streak_tap_key] answers false for
    every keycode whenever a Control, a GUI or the left Alt modifier is
    active; the mask it tests is [MOD_MASK_CG | MOD_BIT_LALT]. *)
Theorem no_streak_under_ctrl_gui_or_left_alt (keycode : Z) (w : world) :
  Z.land (get_mods w) (Z.lor MOD_MASK_CG MOD_BIT_LALT) <> 0 ->
  pth_is_fast_streak_tap_key keycode w = false.
Proof.
  intros H. unfold pth_is_fast_streak_tap_key.
  apply Z.eqb_neq in H. rewrite H. reflexivity.
Qed.

End Streak.

Lemma no_streak_under_ctrl_gui_or_left_alt_witness :
  Z.land (@get_mods ref_firmware {| clock := 0; mods := 1 |})
         (Z.lor (@MOD_MASK_CG ref_firmware) (@MOD_BIT_LALT ref_firmware)) <> 0
  /\ @pth_is_fast_streak_tap_key ref_firmware (@KC_A ref_firmware) {| clock := 0; mods := 1 |}
     = false.
Proof.
  split.
  - vm_compute. discriminate.
  - apply (@no_streak_under_ctrl_gui_or_left_alt ref_firmware). vm_compute. discriminate.
Defined.

(** C9, against the claim: with the right Alt modifier active, which is not
    a Shift, [KC_A] is a streak key still. *)
Lemma right_alt_does_not_stop_a_streak :
  Z.land (@get_mods ref_firmware {| clock := 0; mods := MOD_BIT_RALT |})
         (Z.lnot MOD_MASK_SHIFT) <> 0
  /\ @pth_is_fast_streak_tap_key ref_firmware (@KC_A ref_firmware)
       {| clock := 0; mods := MOD_BIT_RALT |} = true.
Proof. split; [vm_compute; discriminate | vm_compute; reflexivity]. Qed.

(* ------------------------------------------------------------------------- *)
(** ** The recursion guard *)

Section Guard.

Context {fw : Firmware} {cfg : BuildConfig} {hk : Hooks}.

(** C8: while [is_processing_record_due_to_pth] is set, the dispatcher
    returns true and the machine it returns is the machine it was given:
    no static variable is written and nothing is sent. *)
Theorem reentrant_event_is_passed_on (keycode : Z) (record : keyrecord_t) (m : machine) :
  is_processing_record_due_to_pth (st m) = true ->
  process_record_predictive_tap_hold keycode record m = Done true m.
Proof.
  intros H. unfold process_record_predictive_tap_hold, bind, gets.
  rewrite H. reflexivity.
Qed.

(* ------------------------------------------------------------------------- *)
(** ** The release cache when it is full *)

(** C2, as the code has it: with every bit of
    [used_release_records_bitmask] set, [add_release_record] hands the
    record to [process_record] and then, there being no [return], goes on
    to [__builtin_ctz] of a zero mask, which is undefined. *)
Theorem add_release_record_when_full
    (record : keyrecord_t) (release_time : release_time_t) (m : machine) :
  used_release_records_bitmask (st m) = 255 ->
  add_release_record record release_time m
  = Fault Ctz_of_zero
      {| st := st m;
         env := perform (Act_process_record record) (env m);
         out := out m ++ [Act_process_record record] |}.
Proof.
  intros H. unfold add_release_record, bind, gets, when, emit, ctz.
  rewrite H. reflexivity.
Qed.

End Guard.

Lemma reentrant_event_is_passed_on_witness :
  is_processing_record_due_to_pth (st reentered) = true
  /\ @process_record_predictive_tap_hold ref_firmware ref_config ref_hooks
       LCTL_T_A (key_event 1 1 true 0) reentered = Done true reentered.
Proof.
  split; [reflexivity|].
  apply (@reentrant_event_is_passed_on ref_firmware ref_config ref_hooks). reflexivity.
Defined.

Lemma add_release_record_when_full_witness :
  used_release_records_bitmask (st full_cache) = 255
  /\ @add_release_record ref_firmware (key_event 13 2 false 280) BEFORE_SECOND full_cache
     = Fault Ctz_of_zero
         {| st := st full_cache;
            env := perform (Act_process_record (key_event 13 2 false 280)) (env full_cache);
            out := out full_cache ++ [Act_process_record (key_event 13 2 false 280)] |}.
Proof.
  split; [reflexivity|].
  apply (@add_release_record_when_full ref_firmware). reflexivity.
Defined.

(** C2, through the dispatcher: the ninth release while the mod-tap key is
    held ends in the fault. *)
Lemma ninth_release_overflows :
  used_release_records_bitmask (st (final (ref_run fill_the_cache))) = 255
  /\ fault_of (ref_run (fill_the_cache ++ [plain_release 8])) = Some Ctz_of_zero.
Proof. split; vm_compute; reflexivity. Qed.

(* ------------------------------------------------------------------------- *)
(** ** Status and active key *)

(** C5, against the claim: in a build with
    [PTH_RESET_IMMEDIATELY_WHEN_TAP_CHOSEN] and [PTH_FAST_STREAK_TAP_ENABLE],
    with a keymap whose forced choice on press is a tap, one press of a
    mod-tap key from the initial state leaves the status at
    [PTH_DECIDED_TAP] while [pth_keycode] is [KC_NO] and the PTH record's
    key is the empty position. *)
Lemma decided_without_active_key :
  answer tap_on_press_run = Some false
  /\ pth_status (st (final tap_on_press_run)) = PTH_DECIDED_TAP
  /\ pth_keycode (st (final tap_on_press_run)) = @KC_NO ref_firmware
  /\ key (event (pth_record (st (final tap_on_press_run)))) = EMPTY_KEYPOS.
Proof. repeat split; vm_compute; reflexivity. Qed.

(* ------------------------------------------------------------------------- *)
(** ** Decisions are final *)

Section Final.

Context {fw : Firmware} {cfg : BuildConfig} {hk : Hooks}.

(** C10: once the status is [PTH_DECIDED_TAP] or [PTH_DECIDED_HOLD],
    [make_decision_tap] and [make_decision_hold] return at once, the machine
    as it was: no status written, nothing sent.  And whatever the firmware
    calls next, the call ends with the status as it was, or with
    [PTH_IDLE] after [reset_pth_state], which has put the decided status
    into [pth_prev_status]. *)
Theorem decision_is_final (c : call) (m : machine) :
  wf (st m) ->
  status_geb (pth_status (st m)) PTH_DECIDED_TAP = true ->
  make_decision_tap m = Done tt m
  /\ make_decision_hold m = Done tt m
  /\ wp (do_call c)
        (fun _ m' =>
           pth_status (st m') = pth_status (st m)
           \/ (pth_status (st m') = PTH_IDLE
               /\ pth_prev_status (st m') = pth_status (st m)
               /\ pth_keycode (st m') = KC_NO)) m.
Proof.
  intros Hw Hs. split; [|split].
  - unfold make_decision_tap, bind, gets. rewrite Hs. reflexivity.
  - unfold make_decision_hold, bind, gets. rewrite Hs. reflexivity.
  - destruct m as [s w0 o]. cbn [st] in *. pose proof Hw as Hw0. wf_split Hw0.
    destruct (pth_status s) eqn:Hst; try discriminate Hs; clear Hs.
    all: destruct s; cbn in *; subst.
    all: destruct c as [w|kc r w|w]; unfold do_call, enter; cbn [st env out].
    all: unfold process_record_predictive_tap_hold, housekeeping_task_predictive_tap_hold.
    all: flat engine.
    all: first [ left; reflexivity | right; repeat split; reflexivity ].
Qed.

End Final.

Lemma decision_is_final_witness :
  wf (st tap_decided)
  /\ status_geb (pth_status (st tap_decided)) PTH_DECIDED_TAP = true
  /\ @make_decision_tap ref_firmware ref_config ref_hooks tap_decided = Done tt tap_decided
  /\ @make_decision_hold ref_firmware ref_config ref_hooks tap_decided = Done tt tap_decided
  /\ @wp ref_firmware bool (@do_call ref_firmware ref_config ref_hooks (ref_tick 0))
        (fun _ m' =>
           pth_status (st m') = pth_status (st tap_decided)
           \/ (pth_status (st m') = PTH_IDLE
               /\ pth_prev_status (st m') = pth_status (st tap_decided)
               /\ pth_keycode (st m') = @KC_NO ref_firmware)) tap_decided.
Proof.
  assert (Hw : wf (st tap_decided)) by (repeat split; (reflexivity || (cbn; lia))).
  split; [exact Hw|]. split; [reflexivity|].
  exact (@decision_is_final ref_firmware ref_config ref_hooks (ref_tick 0) tap_decided
           Hw eq_refl).
Defined.

(* ------------------------------------------------------------------------- *)
(** ** The forced choice on press *)

Ltac eqb_facts :=
  repeat match goal with
         | H : (_ =? _) = true |- _ => apply Z.eqb_eq in H
         | H : (_ =? _) = false |- _ => apply Z.eqb_neq in H
         end.

Section Forced.

Context {fw : Firmware} {cfg : BuildConfig} {hk : Hooks}.

(** C3, as the code has it: on the press of a tap-hold key from Idle the
    timeout the keymap gives is stored, and [make_user_choice_or_not] runs
    at once exactly when it is 0.  When it is 0 the call ends with
    [has_chosen_after_timeout_reached] set, unless a reset has cleared the
    PTH since; when it is not 0, negative or not, the flag stays clear and
    no hold was decided. *)
Theorem forced_choice_on_press
    (keycode : Z) (record : keyrecord_t) (w : world) (m : machine) :
  wf (st m) ->
  pth_status (st m) = PTH_IDLE ->
  has_chosen_after_timeout_reached (st m) = false ->
  IS_KEYEVENT (event record) = true ->
  yields_to_qmk keycode record w = false ->
  pressed (event record) = true ->
  pth_is_tap_hold_keycode keycode = true ->
  wp (process_record_predictive_tap_hold keycode record)
     (fun b m' =>
        b = false
        /\ (exists s, timeout_for_forcing_choice (st m')
                      = pth_get_timeout_for_forcing_choice s w)
        /\ (timeout_for_forcing_choice (st m') = 0 ->
            has_chosen_after_timeout_reached (st m') = true
            \/ pth_keycode (st m') = KC_NO)
        /\ (timeout_for_forcing_choice (st m') <> 0 ->
            has_chosen_after_timeout_reached (st m') = false
            /\ pth_status (st m') <> PTH_DECIDED_HOLD))
     (enter w m).
Proof.
  destruct m as [s w0 o]. unfold enter. cbn [st env out].
  intros Hw Hst Hch Hev Hy Hp Hth. pose proof Hw as Hw0. wf_split Hw0.
  destruct s; cbn in *; subst.
  unfold process_record_predictive_tap_hold.
  flat engine.
  all: eqb_facts.
  all: split; [reflexivity|]; split; [eexists; symmetry; eassumption|]; split; intros Ht.
  all: first [ left; reflexivity | right; reflexivity | contradiction
             | split; [reflexivity|discriminate] ].
Qed.

End Forced.

Lemma forced_choice_on_press_witness :
  wf (st (ref_boot 0))
  /\ @wp ref_firmware bool
       (@process_record_predictive_tap_hold ref_firmware ref_config ref_hooks
          LCTL_T_A (key_event 1 1 true 100))
       (fun b m' =>
          b = false
          /\ (exists s, timeout_for_forcing_choice (st m')
                        = @pth_get_timeout_for_forcing_choice ref_firmware ref_hooks s
                            (at_ms 100))
          /\ (timeout_for_forcing_choice (st m') = 0 ->
              has_chosen_after_timeout_reached (st m') = true
              \/ pth_keycode (st m') = @KC_NO ref_firmware)
          /\ (timeout_for_forcing_choice (st m') <> 0 ->
              has_chosen_after_timeout_reached (st m') = false
              /\ pth_status (st m') <> PTH_DECIDED_HOLD))
       (@enter ref_firmware (at_ms 100) (ref_boot 0)).
Proof.
  assert (Hw : wf (st (ref_boot 0))) by (apply wfb_wf; reflexivity).
  split; [exact Hw|].
  exact (@forced_choice_on_press ref_firmware ref_config ref_hooks
           LCTL_T_A (key_event 1 1 true 100) (at_ms 100) (ref_boot 0)
           Hw eq_refl eq_refl eq_refl eq_refl eq_refl eq_refl).
Defined.

(** C3, against the claim: with a timeout of -1, which is less than 0, the
    press ends with the status at [PTH_PRESSED] and the flag clear:
    [make_user_choice_or_not] has not run, or the default choice, a hold,
    would have been made. *)
Lemma negative_timeout_forces_nothing :
  timeout_for_forcing_choice (st (final negative_timeout_run)) = -1
  /\ has_chosen_after_timeout_reached (st (final negative_timeout_run)) = false
  /\ pth_status (st (final negative_timeout_run)) = PTH_PRESSED.
Proof. repeat split; vm_compute; reflexivity. Qed.

(* ------------------------------------------------------------------------- *)
(** ** The minimum overlap *)

Section Overlap.

Context {fw : Firmware} {cfg : BuildConfig} {hk : Hooks}.

(** C6, as the code has it: on a second press while Pressed, unless the
    PTH is held instantly with its layer active and the second key has no
    keycode there (a tap is decided at once then), if the second key is
    tap-hold or not on the PTH's side, the call ends with
    [min_overlap_dur_for_hold] at the predictor's answer clamped to
    [[39, 232]], or with the PTH reset after an immediate tap. *)
Theorem min_overlap_is_clamped
    (keycode : Z) (record : keyrecord_t) (w : world) (m : machine) :
  wf (st m) ->
  pth_status (st m) = PTH_PRESSED ->
  IS_KEYEVENT (event record) = true ->
  yields_to_qmk keycode record w = false ->
  pressed (event record) = true ->
  wp (process_record_predictive_tap_hold keycode record)
     (fun b m' =>
        b = false
        /\ (pth_was_held_instantly (st m) && instant_layer_was_active (st m)
            && (keycode =? KC_NO) = false ->
            pth_is_tap_hold_keycode keycode = true
            \/ second_is_same_side_as_pth (st m') = false ->
            (exists s, min_overlap_dur_for_hold (st m')
                       = Z.min PTH_MS_MAX_OVERLAP
                           (Z.max PTH_MS_MIN_OVERLAP
                              (pth_predict_min_overlap_for_hold_in_ms s w)))
            \/ pth_status (st m') = PTH_IDLE))
     (enter w m).
Proof.
  destruct m as [s w0 o]. unfold enter. cbn [st env out].
  intros Hw Hst Hev Hy Hp. pose proof Hw as Hw0. wf_split Hw0.
  destruct s; cbn in *; subst.
  unfold process_record_predictive_tap_hold.
  flat engine.
  all: split; [reflexivity|]; intros Hsc Hcond.
  all: first
         [ right; reflexivity
         | left; eexists; rewrite MIN_min, MAX_max;
           match goal with
           | H : pth_predict_min_overlap_for_hold_in_ms _ _ = ?v |- context [?v] =>
             rewrite <- H
           end; reflexivity
         | exfalso;
           repeat match goal with
                  | E : ?b = _ |- _ =>
                    match type of Hsc with context [b] => rewrite E in Hsc end
                  end;
           discriminate Hsc
         | exfalso; destruct Hcond; congruence ].
Qed.

End Overlap.

Lemma min_overlap_is_clamped_witness :
  wf (st mod_tap_pressed)
  /\ pth_status (st mod_tap_pressed) = PTH_PRESSED
  /\ @wp ref_firmware bool
       (@process_record_predictive_tap_hold ref_firmware ref_config ref_hooks
          KC_C (key_event 7 1 true 150))
       (fun b m' =>
          b = false
          /\ (pth_was_held_instantly (st mod_tap_pressed)
              && instant_layer_was_active (st mod_tap_pressed)
              && (KC_C =? @KC_NO ref_firmware) = false ->
              @pth_is_tap_hold_keycode ref_firmware KC_C = true
              \/ second_is_same_side_as_pth (st m') = false ->
              (exists s, min_overlap_dur_for_hold (st m')
                         = Z.min PTH_MS_MAX_OVERLAP
                             (Z.max PTH_MS_MIN_OVERLAP
                                (@pth_predict_min_overlap_for_hold_in_ms
                                   ref_firmware ref_hooks s (at_ms 150))))
              \/ pth_status (st m') = PTH_IDLE))
       (@enter ref_firmware (at_ms 150) mod_tap_pressed).
Proof.
  assert (Hw : wf (st mod_tap_pressed)) by (apply wfb_wf; vm_compute; reflexivity).
  assert (Hs : pth_status (st mod_tap_pressed) = PTH_PRESSED) by (vm_compute; reflexivity).
  split; [exact Hw|]. split; [exact Hs|].
  exact (@min_overlap_is_clamped ref_firmware ref_config ref_hooks
           KC_C (key_event 7 1 true 150) (at_ms 150) mod_tap_pressed
           Hw Hs eq_refl eq_refl eq_refl).
Defined.

(** C6, against the claim: a layer-tap key is held with its layer active
    and a key without a keycode on that layer goes down on the other half.
    The second key is not on the PTH's side, yet no prediction is made:
    [min_overlap_dur_for_hold] is 0 after the call, below the interval. *)
Lemma no_overlap_prediction_without_keycode :
  answer no_key_on_layer_run = Some false
  /\ pth_was_held_instantly (st layer_tap_pressed) = true
  /\ instant_layer_was_active (st layer_tap_pressed) = true
  /\ second_is_same_side_as_pth (st (final no_key_on_layer_run)) = false
  /\ min_overlap_dur_for_hold (st (final no_key_on_layer_run)) = 0
  /\ pth_status (st (final no_key_on_layer_run)) = PTH_DECIDED_TAP.
Proof. repeat split; vm_compute; reflexivity. Qed.

(* ------------------------------------------------------------------------- *)
(** ** Timer saturation *)

Section Saturation.

Context {fw : Firmware} {cfg : BuildConfig} {hk : Hooks}.

(** C7, as the code has it: when every key event comes at most one
    millisecond after a housekeeping call, every duration the predictors
    read stays between 0 and [MS_MAX_DUR_FOR_TIMERS], or is the -1 that the
    press-to-press and overlap durations start with; this holds of the
    machine the run ends in, also when it ends in a fault. *)
Theorem durations_stay_in_range_when_paced (cs : list call) (m : machine) :
  paced cs = true ->
  wf (st m) ->
  durations_in_range (st m) ->
  durations_in_range (st (final (run cs m))).
Proof.
  intros Hp Hw Hd. exact (proj2 (proj1 (paced_runs cs m Hw Hd) Hp)).
Qed.

End Saturation.

Lemma durations_stay_in_range_when_paced_witness :
  @paced ref_firmware paced_typing = true
  /\ wf (st (ref_boot 0))
  /\ durations_in_range (st (ref_boot 0))
  /\ durations_in_range
       (st (final (@run ref_firmware ref_config ref_hooks paced_typing (ref_boot 0)))).
Proof.
  assert (Hw : wf (st (ref_boot 0))) by (apply wfb_wf; reflexivity).
  assert (Hd : durations_in_range (st (ref_boot 0)))
    by (apply durations_in_rangeb_ok; reflexivity).
  split; [reflexivity|]. split; [exact Hw|]. split; [exact Hd|].
  exact (@durations_stay_in_range_when_paced ref_firmware ref_config ref_hooks
           paced_typing (ref_boot 0) eq_refl Hw Hd).
Defined.

(** C7, against the claim: with no housekeeping call between two presses
    that are 5100 ms apart, [pth_press_to_second_press_dur] is 5100; 40
    seconds after the last press, with no housekeeping call,
    [pth_prev_press_to_pth_press_dur] is negative; and at the first PTH
    press after boot [pth_prev_prev_press_to_prev_press_dur] is -1. *)
Lemma sparse_ticks_exceed_the_maximum :
  pth_press_to_second_press_dur (st (final sparse_run)) = 5100
  /\ pth_prev_press_to_pth_press_dur (st (final far_run)) = -25436
  /\ pth_prev_prev_press_to_prev_press_dur (st (final first_press_run)) = -1.
Proof. repeat split; vm_compute; reflexivity. Qed.

(* ------------------------------------------------------------------------- *)
(** ** Lone-tap invariance *)

Section LoneTapInvariance.

Context {fw : Firmware} {cfg : BuildConfig} {hk : Hooks}.

(** C1, as the code has it: a tap-hold key is pressed while the status is
    [PTH_IDLE], with no second key and no release waiting in the cache, the
    key not in the tap-release set and a slot free there; housekeeping
    calls follow, none of which finds the timeout for forcing a choice
    reached, and then the key's release.  The release is answered with
    [false], the status is [PTH_IDLE] again, and of the records sent to
    [process_record] in between exactly two are marked as taps of the key:
    one pressed, then one released. *)
Theorem lone_tap_is_one_tap
    (keycode : Z) (press release : keyrecord_t) (w1 : world) (ticks : list world)
    (w2 : world) (m : machine) :
  lone_ready (key (event press)) (st m) ->
  pth_is_tap_hold_keycode keycode = true ->
  IS_KEYEVENT (event press) = true ->
  IS_KEYEVENT (event release) = true ->
  yields_to_qmk keycode press w1 = false ->
  yields_to_qmk keycode release w2 = false ->
  pressed (event press) = true ->
  pressed (event release) = false ->
  key (event release) = key (event press) ->
  (forall s, not_forced (pth_get_timeout_for_forcing_choice s w1) (now w1) ticks) ->
  wp (run (lone_tap_calls keycode press release w1 ticks w2))
     (fun b m' =>
        b = false
        /\ pth_status (st m') = PTH_IDLE
        /\ exists sent,
             out m' = out m ++ sent
             /\ taps_of (key (event press)) sent = [true; false])
     m.
Proof. exact (press_then_release keycode press release w1 ticks w2 m). Qed.

End LoneTapInvariance.

Lemma lone_tap_is_one_tap_witness :
  lone_ready {| col := 1; row := 1 |} (st (ref_boot 0))
  /\ @wp ref_firmware bool
       (@run ref_firmware ref_config ref_hooks
          (@lone_tap_calls ref_firmware LCTL_T_A
             (key_event 1 1 true 100) (key_event 1 1 false 400)
             (at_ms 100) [at_ms 200; at_ms 300] (at_ms 400)))
       (fun b m' =>
          b = false
          /\ pth_status (st m') = PTH_IDLE
          /\ exists sent,
               out m' = out (ref_boot 0) ++ sent
               /\ taps_of {| col := 1; row := 1 |} sent = [true; false])
       (ref_boot 0).
Proof.
  assert (Hr : lone_ready {| col := 1; row := 1 |} (st (ref_boot 0))).
  { split; [apply wfb_wf; reflexivity|].
    repeat split; try reflexivity. vm_compute. discriminate. }
  split; [exact Hr|].
  refine (@lone_tap_is_one_tap ref_firmware ref_config ref_hooks LCTL_T_A
            (key_event 1 1 true 100) (key_event 1 1 false 400)
            (at_ms 100) [at_ms 200; at_ms 300] (at_ms 400) (ref_boot 0)
            Hr eq_refl eq_refl eq_refl eq_refl eq_refl eq_refl eq_refl eq_refl _).
  intros s. split; [discriminate|]. intros _.
  repeat constructor.
Defined.

(** C1, against the claim: in the build where a fast streak tap resets at
    once, eight mod-tap keys that are held as taps fill the tap-release
    set.  The status is [PTH_IDLE]; a ninth mod-tap key is pressed and is
    sent on as a tap, but its position is not stored, and its release is
    answered with [true] and nothing is sent for it: the tap of the ninth
    key is pressed and never released. *)
Lemma ninth_streak_tap_is_not_released :
  pth_status (st (final (streak_run eight_held))) = PTH_IDLE
  /\ used_release_as_tap_positions_bitmask (st (final (streak_run eight_held))) = 255
  /\ answer (streak_run (eight_held ++ ninth_tap)) = Some true
  /\ pth_status (st (final (streak_run (eight_held ++ ninth_tap)))) = PTH_IDLE
  /\ taps_of {| col := 8; row := 2 |} (out (final (streak_run (eight_held ++ ninth_tap))))
     = [true].
Proof. repeat split; vm_compute; reflexivity. Qed.
